(** * Vault-to-graph import pipeline: a shallow embedding and its properties

    The development follows the Python sources under [scripts/]:
    [wikilink_extractor.py], [edtf_parser.py], [document_parser.py],
    [entity_parser.py], [event_parser.py], [microaction_parser.py],
    [master_import.py] and [relation_calculator.py].

    Conventions.
    - A Python [str] is a Rocq [string]; an [ascii] stands for a code point
      below 256 (Latin-1).  On that range the only decimal digits known to
      [\d] are 0-9 and the characters removed by [str.strip()] are
      9-13, 28-32, 133 and 160.
    - Python exceptions are values of [exn]; a function that can raise
      returns a [result].
    - Python dicts used as maps are [gmap]s, Python sets are [gset]s.
    - The graph backend is modelled by the Cypher clauses the scripts send:
      MATCH, MERGE, CREATE and SET over a list of nodes and a list of
      relationships. *)

From Stdlib Require Import ZArith Ascii String List Bool Lia.
From stdpp Require Import base option gmap strings list fin_maps sets pretty.

Open Scope string_scope.
Set Warnings "-register-all".

(* ===================================================================== *)
(** * Python values, exceptions                                           *)
(* ===================================================================== *)

Inductive exn : Type :=
| ValueError (msg : string)
| TypeError
| AttributeError
| IllegalMonthError (month : Z)
| YAMLError
| CypherError.

Inductive result (A : Type) : Type :=
| Ok (a : A)
| Raise (e : exn).
Arguments Ok {A} a.
Arguments Raise {A} e.

(** Sequencing: the first exception raised is the one that propagates. *)
Global Instance result_bind : MBind result := fun A B k m =>
  match m with
  | Ok a => k a
  | Raise e => Raise e
  end.
Global Instance result_ret : MRet result := fun A a => Ok a.

(* ===================================================================== *)
(** * Python string operations                                            *)
(* ===================================================================== *)

Module PyStr.

Definition LF : ascii := ascii_of_nat 10.
Definition nl : string := String LF EmptyString.

Definition code (c : ascii) : nat := nat_of_ascii c.

(** [str.isspace] on code points below 256. *)
Definition is_space (c : ascii) : bool :=
  let n := code c in
  (((9 <=? n) && (n <=? 13)) || ((28 <=? n) && (n <=? 32))
   || (n =? 133) || (n =? 160))%nat.

(** [\d] on code points below 256. *)
Definition is_digit (c : ascii) : bool :=
  let n := code c in ((48 <=? n) && (n <=? 57))%nat.

(** [[0-9a-fA-F-]] *)
Definition is_hex_dash (c : ascii) : bool :=
  let n := code c in
  is_digit c
  || (((97 <=? n) && (n <=? 102)) || ((65 <=? n) && (n <=? 70))
      || (n =? 45))%nat.

Fixpoint mem (c : ascii) (cs : string) : bool :=
  match cs with
  | EmptyString => false
  | String d cs' => Ascii.eqb c d || mem c cs'
  end.

(** [s.lstrip(chars)] and [s.rstrip(chars)] for an arbitrary character
    class [p]; [strip] is [lstrip] after [rstrip]. *)
Fixpoint lstrip_by (p : ascii -> bool) (s : string) : string :=
  match s with
  | EmptyString => EmptyString
  | String c s' => if p c then lstrip_by p s' else s
  end.

Fixpoint rstrip_by (p : ascii -> bool) (s : string) : string :=
  match s with
  | EmptyString => EmptyString
  | String c s' =>
      match rstrip_by p s' with
      | EmptyString => if p c then EmptyString else String c EmptyString
      | r => String c r
      end
  end.

Definition strip_by (p : ascii -> bool) (s : string) : string :=
  lstrip_by p (rstrip_by p s).

Definition strip (s : string) : string := strip_by is_space s.
Definition strip_chars (cs s : string) : string :=
  strip_by (fun c => mem c cs) s.
Definition rstrip_chars (cs s : string) : string :=
  rstrip_by (fun c => mem c cs) s.
Definition lstrip_chars (cs s : string) : string :=
  lstrip_by (fun c => mem c cs) s.

Fixpoint startswith (p s : string) : bool :=
  match p, s with
  | EmptyString, _ => true
  | String a p', String b s' => Ascii.eqb a b && startswith p' s'
  | String _ _, EmptyString => false
  end.

Fixpoint endswith (p s : string) : bool :=
  String.eqb p s ||
  match s with
  | EmptyString => false
  | String _ s' => endswith p s'
  end.

(** [sub in s] *)
Fixpoint contains (sub s : string) : bool :=
  startswith sub s ||
  match s with
  | EmptyString => false
  | String _ s' => contains sub s'
  end.

(** [s[n:]] and [s[:-n]] *)
Fixpoint drop (n : nat) (s : string) : string :=
  match n, s with
  | O, _ => s
  | S n', String _ s' => drop n' s'
  | S _, EmptyString => EmptyString
  end.

Fixpoint take (n : nat) (s : string) : string :=
  match n, s with
  | S n', String c s' => String c (take n' s')
  | _, _ => EmptyString
  end.

Definition drop_last (n : nat) (s : string) : string :=
  take (String.length s - n) s.

(** [s.split(c)] for a one-character separator: the pieces, in order. *)
Fixpoint split_char (sep : ascii) (s : string) : list string :=
  match s with
  | EmptyString => [EmptyString]
  | String c s' =>
      if Ascii.eqb c sep then EmptyString :: split_char sep s'
      else match split_char sep s' with
           | [] => [String c EmptyString]
           | p :: ps => String c p :: ps
           end
  end.

(** [s.replace(c, '')] *)
Fixpoint remove_char (x : ascii) (s : string) : string :=
  match s with
  | EmptyString => EmptyString
  | String c s' =>
      if Ascii.eqb c x then remove_char x s' else String c (remove_char x s')
  end.

(** [s.lower()] on code points below 128; the accented capitals of
    Latin-1 (192-222 except 215) move by 32 as well. *)
Definition lower_char (c : ascii) : ascii :=
  let n := code c in
  if (((65 <=? n) && (n <=? 90))
      || ((192 <=? n) && (n <=? 222) && negb (n =? 215)))%nat
  then ascii_of_nat (n + 32) else c.

Fixpoint lower (s : string) : string :=
  match s with
  | EmptyString => EmptyString
  | String c s' => String (lower_char c) (lower s')
  end.

(** Position of the first occurrence of [sub] in [s] ([s.find(sub)]). *)
Fixpoint find (sub s : string) : option nat :=
  if startswith sub s then Some 0
  else match s with
       | EmptyString => None
       | String _ s' => S <$> find sub s'
       end.

(** Decimal value of a run of digits, most significant first. *)
Fixpoint digits_value (acc : Z) (s : string) : option Z :=
  match s with
  | EmptyString => Some acc
  | String c s' =>
      if is_digit c
      then digits_value (10 * acc + Z.of_nat (code c - 48))%Z s'
      else None
  end.

(** [int(s)] on the inputs the scripts give it: surrounding white space
    is ignored, and what remains must be a non-empty run of digits. *)
Definition int (s : string) : option Z :=
  match strip s with
  | EmptyString => None
  | t => digits_value 0 t
  end.

Definition digit_char (n : Z) : ascii := ascii_of_nat (48 + Z.to_nat n).

(** [f"{n:02d}"] for [0 <= n < 100]. *)
Definition fmt02 (n : Z) : string :=
  String (digit_char (n / 10)%Z) (String (digit_char (n mod 10)%Z) EmptyString).

(** Python truthiness of a string. *)
Definition truthy (s : string) : bool := negb (String.eqb s EmptyString).

Definition CR : ascii := ascii_of_nat 13.

(** The line boundaries of [str.splitlines] below 256. *)
Definition is_linebreak (c : ascii) : bool :=
  let n := code c in
  (((10 <=? n) && (n <=? 13)) || ((28 <=? n) && (n <=? 30)) || (n =? 133))%nat.

(** [s.splitlines()]; [after_cr] tells that the previous character was a
    carriage return, whose line feed belongs to the same boundary. *)
Fixpoint splitlines_from (after_cr : bool) (s : string) : list string :=
  match s with
  | EmptyString => []
  | String c s' =>
      if after_cr && Ascii.eqb c LF then splitlines_from false s'
      else if is_linebreak c
      then EmptyString :: splitlines_from (Ascii.eqb c CR) s'
      else match splitlines_from false s' with
           | [] => [String c EmptyString]
           | l :: ls => String c l :: ls
           end
  end.

Definition splitlines : string -> list string := splitlines_from false.

(** [s.upper()] where the result stays below 256; the three characters
    whose capital lies elsewhere (181, 223, 255) are left as they are. *)
Definition upper_char (c : ascii) : ascii :=
  let n := code c in
  if (((97 <=? n) && (n <=? 122))
      || ((224 <=? n) && (n <=? 254) && negb (n =? 247)))%nat
  then ascii_of_nat (n - 32) else c.

Fixpoint upper (s : string) : string :=
  match s with
  | EmptyString => EmptyString
  | String c s' => String (upper_char c) (upper s')
  end.

End PyStr.

(* ===================================================================== *)
(** * The fragment of [re] the scripts rely on                            *)
(* ===================================================================== *)

Module Regex.
Import PyStr.

(** [$] without MULTILINE: the end of the string, or just before a final
    line feed. *)
Definition at_end (s : string) : bool := String.eqb s EmptyString || String.eqb s nl.

(** The anchored patterns are sequences of single-character classes:
    [\d], [[0-9a-fA-F-]] or a literal. *)
Inductive tok : Type := D | H | L (c : ascii).

Definition tok_ok (t : tok) (c : ascii) : bool :=
  match t with
  | D => is_digit c
  | H => is_hex_dash c
  | L d => Ascii.eqb c d
  end.

(** Matches the tokens at the head of [s]; the rest of [s] on success. *)
Fixpoint match_toks (ts : list tok) (s : string) : option string :=
  match ts, s with
  | [], _ => Some s
  | t :: ts', String c s' => if tok_ok t c then match_toks ts' s' else None
  | _ :: _, EmptyString => None
  end.

Definition re_anchored (ts : list tok) (s : string) : bool :=
  match match_toks ts s with
  | Some r => at_end r
  | None => false
  end.

Fixpoint lits (s : string) : list tok :=
  match s with
  | EmptyString => []
  | String c s' => L c :: lits s'
  end.

End Regex.

(* ===================================================================== *)
(** * edtf_parser.py                                                      *)
(* ===================================================================== *)

(** [calendar.monthrange(year, month)[1]] of the Python standard library:
    [IllegalMonthError] outside 1..12, otherwise the table [mdays] plus
    one for February of a leap year. *)
Module Calendar.

Definition isleap (year : Z) : bool :=
  (year mod 4 =? 0)%Z && (negb (year mod 100 =? 0)%Z || (year mod 400 =? 0)%Z).

Definition mdays (month : Z) : Z :=
  match month with
  | 1 => 31 | 2 => 28 | 3 => 31 | 4 => 30 | 5 => 31 | 6 => 30
  | 7 => 31 | 8 => 31 | 9 => 30 | 10 => 31 | 11 => 30 | 12 => 31
  | _ => 0
  end%Z.

Definition monthrange_days (year month : Z) : result Z :=
  if ((1 <=? month) && (month <=? 12))%Z
  then Ok (mdays month + (if (month =? 2)%Z && isleap year then 1 else 0))%Z
  else Raise (IllegalMonthError month).

End Calendar.

Module EDTFParser.
Import PyStr Regex.

Definition YEAR : list tok := [D; D; D; D].
Definition YEAR_MONTH : list tok := YEAR ++ [L "-"%char; D; D].
Definition FULL : list tok := YEAR_MONTH ++ [L "-"%char; D; D].

(** [re.match(r'^\d{4}$', s)] *)
Definition re_year : string -> bool := re_anchored YEAR.
(** [re.match(r'^\d{4}-\d{2}$', s)] *)
Definition re_year_month : string -> bool := re_anchored YEAR_MONTH.
(** [re.match(r'^\d{4}-\d{2}-\d{2}$', s)] *)
Definition re_full : string -> bool := re_anchored FULL.

Definition _normalize_single_date (date_str : string) (start : bool)
  : result (option string) :=
  if negb (truthy date_str) then Ok None else
  let date_str := rstrip_chars "~?" date_str in
  if re_year date_str then
    Ok (Some (if start then date_str +:+ "-01-01" else date_str +:+ "-12-31"))
  else if re_year_month date_str then
    match split_char "-"%char date_str with
    | [year; month] =>
        if start then Ok (Some (date_str +:+ "-01"))
        else
          match int year, int month with
          | Some y, Some m =>
              last_day ← Calendar.monthrange_days y m;
              Ok (Some (date_str +:+ "-" +:+ fmt02 last_day))
          | _, _ => Raise (ValueError "invalid literal for int()")
          end
    | _ => Raise (ValueError "not enough values to unpack")
    end
  else if re_full date_str then Ok (Some date_str)
  else Ok None.

Definition triple : Type := option string * option string * string.

Definition parse (edtf_string : string) : result triple :=
  if negb (truthy edtf_string) || String.eqb edtf_string "../.."
  then Ok (None, None, "unknown") else
  let edtf := strip edtf_string in
  if startswith "../" edtf then
    date_end ← _normalize_single_date (drop 3 edtf) true;
    Ok (None, date_end, "before")
  else if endswith "/.." edtf then
    date_start ← _normalize_single_date (drop_last 3 edtf) true;
    Ok (date_start, None, "after")
  else if mem "/"%char edtf then
    match split_char "/"%char edtf with
    | p0 :: p1 :: _ =>
        date_start ← _normalize_single_date p0 true;
        date_end ← _normalize_single_date p1 true;
        Ok (date_start, date_end, "interval")
    | _ => Raise (ValueError "list index out of range")
    end
  else if endswith "~" edtf then
    let base := drop_last 1 edtf in
    date_start ← _normalize_single_date base true;
    date_end ← _normalize_single_date base false;
    Ok (date_start, date_end, "circa")
  else if endswith "?" edtf then
    let base := drop_last 1 edtf in
    date_start ← _normalize_single_date base true;
    date_end ← _normalize_single_date base false;
    Ok (date_start, date_end, "uncertain")
  else
    date_start ← _normalize_single_date edtf true;
    date_end ← _normalize_single_date edtf false;
    let precision :=
      if re_full edtf then "day"
      else if re_year_month edtf then "month"
      else if re_year edtf then "year"
      else "unknown" in
    Ok (date_start, date_end, precision).

End EDTFParser.

(* ===================================================================== *)
(** * wikilink_extractor.py                                               *)
(* ===================================================================== *)

(** Python values as they come out of [yaml.safe_load] and as they are
    handed to the graph backend.  A [PDict] lists the items of the dict in
    insertion order; keys are strings and occur once. *)
Inductive pyval : Type :=
| PNone
| PBool (b : bool)
| PInt (z : Z)
| PStr (s : string)
| PList (l : list pyval)
| PDict (m : list (string * pyval)).

Module Py.
Import PyStr.

(** Truthiness. *)
Definition truthy (v : pyval) : bool :=
  match v with
  | PNone => false
  | PBool b => b
  | PInt z => negb (z =? 0)%Z
  | PStr s => PyStr.truthy s
  | PList l => negb (Nat.eqb (length l) 0)
  | PDict m => negb (Nat.eqb (length m) 0)
  end.

(** [d.get(k)] on the items of a dict: [None] when the key is absent. *)
Fixpoint get (k : string) (m : list (string * pyval)) : pyval :=
  match m with
  | [] => PNone
  | (k', v) :: m' => if String.eqb k k' then v else get k m'
  end.

Fixpoint has_key (k : string) (m : list (string * pyval)) : bool :=
  match m with
  | [] => false
  | (k', _) :: m' => String.eqb k k' || has_key k m'
  end.

Definition is_str (v : pyval) : option string :=
  match v with PStr s => Some s | _ => None end.

(** [key in v] for a string [key]: key of a dict, substring of a string,
    element of a list; a [TypeError] on anything else. *)
Definition contains_key (key : string) (v : pyval) : result bool :=
  match v with
  | PDict m => Ok (has_key key m)
  | PStr s => Ok (contains key s)
  | PList l =>
      Ok (existsb (fun x => match x with
                            | PStr s => String.eqb s key
                            | _ => false
                            end) l)
  | _ => Raise TypeError
  end.

Definition of_option (o : option string) : pyval :=
  match o with Some s => PStr s | None => PNone end.

End Py.

(** The collector [WikilinkWarnings]: every list only grows. *)
Record WikilinkWarnings : Type := {
  invalid_wikilinks : list (string * nat * string * string);
  auto_corrected_slashes : list (string * nat * string);
  frontmatter_unquoted : list (string * string * string);
  document_id_collisions : list (string * string * string);
  parse_errors : list (string * string);
  reply_missing_anchor_date_list : list (string * string);
  in_reply_to_date_extracted_list : list (string * string * string);
  microaction_missing_about_list : list (string * string);
  is_part_of_in_body_list : list (string * string)
}.

Module Warnings.

Definition empty : WikilinkWarnings :=
  {| invalid_wikilinks := []; auto_corrected_slashes := [];
     frontmatter_unquoted := []; document_id_collisions := [];
     parse_errors := []; reply_missing_anchor_date_list := [];
     in_reply_to_date_extracted_list := [];
     microaction_missing_about_list := [];
     is_part_of_in_body_list := [] |}.

Definition log_invalid (w : WikilinkWarnings) (file : string) (line : nat)
    (raw_link error : string) : WikilinkWarnings :=
  {| invalid_wikilinks := invalid_wikilinks w ++ [(file, line, raw_link, error)];
     auto_corrected_slashes := auto_corrected_slashes w;
     frontmatter_unquoted := frontmatter_unquoted w;
     document_id_collisions := document_id_collisions w;
     parse_errors := parse_errors w;
     reply_missing_anchor_date_list := reply_missing_anchor_date_list w;
     in_reply_to_date_extracted_list := in_reply_to_date_extracted_list w;
     microaction_missing_about_list := microaction_missing_about_list w;
     is_part_of_in_body_list := is_part_of_in_body_list w |}.

Definition log_slash_correction (w : WikilinkWarnings) (file : string)
    (line : nat) (raw_link : string) : WikilinkWarnings :=
  {| invalid_wikilinks := invalid_wikilinks w;
     auto_corrected_slashes := auto_corrected_slashes w ++ [(file, line, raw_link)];
     frontmatter_unquoted := frontmatter_unquoted w;
     document_id_collisions := document_id_collisions w;
     parse_errors := parse_errors w;
     reply_missing_anchor_date_list := reply_missing_anchor_date_list w;
     in_reply_to_date_extracted_list := in_reply_to_date_extracted_list w;
     microaction_missing_about_list := microaction_missing_about_list w;
     is_part_of_in_body_list := is_part_of_in_body_list w |}.

Definition log_document_id_collision (w : WikilinkWarnings)
    (file_name original_path current_path : string) : WikilinkWarnings :=
  {| invalid_wikilinks := invalid_wikilinks w;
     auto_corrected_slashes := auto_corrected_slashes w;
     frontmatter_unquoted := frontmatter_unquoted w;
     document_id_collisions :=
       document_id_collisions w ++ [(file_name, original_path, current_path)];
     parse_errors := parse_errors w;
     reply_missing_anchor_date_list := reply_missing_anchor_date_list w;
     in_reply_to_date_extracted_list := in_reply_to_date_extracted_list w;
     microaction_missing_about_list := microaction_missing_about_list w;
     is_part_of_in_body_list := is_part_of_in_body_list w |}.

Definition log_parse_error (w : WikilinkWarnings) (file error : string)
  : WikilinkWarnings :=
  {| invalid_wikilinks := invalid_wikilinks w;
     auto_corrected_slashes := auto_corrected_slashes w;
     frontmatter_unquoted := frontmatter_unquoted w;
     document_id_collisions := document_id_collisions w;
     parse_errors := parse_errors w ++ [(file, error)];
     reply_missing_anchor_date_list := reply_missing_anchor_date_list w;
     in_reply_to_date_extracted_list := in_reply_to_date_extracted_list w;
     microaction_missing_about_list := microaction_missing_about_list w;
     is_part_of_in_body_list := is_part_of_in_body_list w |}.

Definition log_is_part_of_in_body (w : WikilinkWarnings)
    (file entity_id : string) : WikilinkWarnings :=
  {| invalid_wikilinks := invalid_wikilinks w;
     auto_corrected_slashes := auto_corrected_slashes w;
     frontmatter_unquoted := frontmatter_unquoted w;
     document_id_collisions := document_id_collisions w;
     parse_errors := parse_errors w;
     reply_missing_anchor_date_list := reply_missing_anchor_date_list w;
     in_reply_to_date_extracted_list := in_reply_to_date_extracted_list w;
     microaction_missing_about_list := microaction_missing_about_list w;
     is_part_of_in_body_list := is_part_of_in_body_list w ++ [(file, entity_id)] |}.

Definition log_reply_missing_anchor_date (w : WikilinkWarnings)
    (file micro_id : string) : WikilinkWarnings :=
  {| invalid_wikilinks := invalid_wikilinks w;
     auto_corrected_slashes := auto_corrected_slashes w;
     frontmatter_unquoted := frontmatter_unquoted w;
     document_id_collisions := document_id_collisions w;
     parse_errors := parse_errors w;
     reply_missing_anchor_date_list :=
       reply_missing_anchor_date_list w ++ [(file, micro_id)];
     in_reply_to_date_extracted_list := in_reply_to_date_extracted_list w;
     microaction_missing_about_list := microaction_missing_about_list w;
     is_part_of_in_body_list := is_part_of_in_body_list w |}.

Definition log_in_reply_to_date_extracted (w : WikilinkWarnings)
    (file micro_id date : string) : WikilinkWarnings :=
  {| invalid_wikilinks := invalid_wikilinks w;
     auto_corrected_slashes := auto_corrected_slashes w;
     frontmatter_unquoted := frontmatter_unquoted w;
     document_id_collisions := document_id_collisions w;
     parse_errors := parse_errors w;
     reply_missing_anchor_date_list := reply_missing_anchor_date_list w;
     in_reply_to_date_extracted_list :=
       in_reply_to_date_extracted_list w ++ [(file, micro_id, date)];
     microaction_missing_about_list := microaction_missing_about_list w;
     is_part_of_in_body_list := is_part_of_in_body_list w |}.

Definition log_missing_about (w : WikilinkWarnings)
    (file micro_id : string) : WikilinkWarnings :=
  {| invalid_wikilinks := invalid_wikilinks w;
     auto_corrected_slashes := auto_corrected_slashes w;
     frontmatter_unquoted := frontmatter_unquoted w;
     document_id_collisions := document_id_collisions w;
     parse_errors := parse_errors w;
     reply_missing_anchor_date_list := reply_missing_anchor_date_list w;
     in_reply_to_date_extracted_list := in_reply_to_date_extracted_list w;
     microaction_missing_about_list :=
       microaction_missing_about_list w ++ [(file, micro_id)];
     is_part_of_in_body_list := is_part_of_in_body_list w |}.

End Warnings.

Module WikilinkExtractor.
Import PyStr Regex.

Definition TYPES : list string := ["person"; "org"; "gpe"; "place"].

Definition HEX36 : list tok := repeat H 36.

(** [id/(?:person|org|gpe|place)/[0-9a-fA-F-]{36}] for one alternative. *)
Definition id_body (ty : string) : list tok :=
  lits "id/" ++ lits ty ++ [L "/"%char] ++ HEX36.

(** [ID_PATTERN.match(s)] with
    [ID_PATTERN = ^/id/(person|org|gpe|place)/[0-9a-fA-F-]{36}$]. *)
Definition ID_PATTERN_match (s : string) : bool :=
  existsb (fun ty => re_anchored (L "/"%char :: id_body ty) s) TYPES.

Definition FRONTMATTER_BLACKLIST : list string :=
  ["quote"; "source_quote"; "note"; "doc"; "page"].

(** [line_num or 0] *)
Definition or_zero (line_num : option nat) : nat := default 0 line_num.

(** The guard [if warnings and file_path:] in front of every log call. *)
Definition log_if (warnings : option WikilinkWarnings)
    (file_path : option string)
    (f : WikilinkWarnings -> string -> WikilinkWarnings)
  : option WikilinkWarnings :=
  match warnings, file_path with
  | Some w, Some fp => if truthy fp then Some (f w fp) else warnings
  | _, _ => warnings
  end.

(** [clean_id]: the result or the [ValueError], and the collector as the
    call leaves it (the log entry is written before the raise). *)
Definition clean_id (raw_link : string) (warnings : option WikilinkWarnings)
    (file_path : option string) (line_num : option nat)
  : result string * option WikilinkWarnings :=
  let cleaned := strip_chars "[]" raw_link in
  let cleaned :=
    if mem "|"%char cleaned then hd EmptyString (split_char "|"%char cleaned)
    else cleaned in
  let '(cleaned, warnings) :=
    if negb (startswith "/" cleaned)
    then ("/" +:+ cleaned,
          log_if warnings file_path (fun w fp =>
            Warnings.log_slash_correction w fp (or_zero line_num) raw_link))
    else (cleaned, warnings) in
  if negb (ID_PATTERN_match cleaned) then
    let error := "Invalid ID format: " +:+ cleaned in
    (Raise (ValueError error),
     log_if warnings file_path (fun w fp =>
       Warnings.log_invalid w fp (or_zero line_num) raw_link error))
  else (Ok cleaned, warnings).

(** [(?:\|[^\]]+)?\]\]] : the optional alias and the closing brackets.
    The alias run is greedy and cannot give characters back usefully,
    since every character it holds differs from the bracket. *)
Definition match_tail (s : string) : option string :=
  let close r := match_toks (lits "]]") r in
  match s with
  | String "|" r =>
      let r' := lstrip_by (fun c => negb (Ascii.eqb c "]")) r in
      if (String.length r' <? String.length r)%nat then close r' else None
  | _ => close s
  end.

(** [WIKILINK_PATTERN] tried at the head of [s]: group 1 and what
    follows the match. *)
Definition match_wikilink (s : string) : option (string * string) :=
  r0 ← match_toks (lits "[[") s;
  let r1 := match r0 with String "/" r => r | _ => r0 end in
  let try ty :=
    r2 ← match_toks (id_body ty) r1;
    r3 ← match_tail r2;
    Some (take (String.length r1 - String.length r2) r1, r3) in
  list_find (fun o : option (string * string) => is_Some o) (try <$> TYPES)
    ≫= snd.

(** [WIKILINK_PATTERN.finditer(text)]: group 1 of every match with the
    line number [text[:match.start()].count('\n') + 1]; [skip] counts
    the characters still covered by the previous match. *)
Fixpoint finditer (skip line : nat) (s : string) : list (string * nat) :=
  match s with
  | EmptyString => []
  | String c s' =>
      let line' := if Ascii.eqb c LF then S line else line in
      match skip with
      | S k => finditer k line' s'
      | O =>
          match match_wikilink s with
          | Some (g1, rest) =>
              (g1, line)
                :: finditer (String.length s - String.length rest - 1) line' s'
          | None => finditer 0 line' s'
          end
      end
  end.

(** [extract_all_wikilinks]: a [ValueError] of [clean_id] drops the
    link and the loop goes on. *)
Definition extract_all_wikilinks (text : string)
    (warnings : option WikilinkWarnings) (file_path : option string)
  : gset string * option WikilinkWarnings :=
  foldl (fun '(ids, w) '(raw_id, line_num) =>
           match clean_id raw_id w file_path (Some line_num) with
           | (Ok clean, w') => ({[clean]} ∪ ids, w')
           | (Raise _, w') => (ids, w')
           end)
        (∅, warnings) (finditer 0 1 text).

(** The two early returns of [scan_value]. *)
Definition blacklisted (blacklist_fields : list string)
    (parent_key : option string) : bool :=
  match parent_key with
  | Some k =>
      truthy k
      && (existsb (String.eqb k) blacklist_fields
          || (mem "."%char k
              && existsb (fun bl => contains bl k) blacklist_fields))
  | None => false
  end.

(** [f"{parent_key}.{k}" if parent_key else k] *)
Definition child_key (parent_key : option string) (k : string) : string :=
  match parent_key with
  | Some p => if truthy p then p +:+ "." +:+ k else k
  | None => k
  end.

(** The local function [scan_value] of [extract_from_dict]; the pair
    carries the set [ids] and the collector. *)
Fixpoint scan_value (blacklist_fields : list string)
    (file_path : option string) (val : pyval) (parent_key : option string)
    (acc : gset string * option WikilinkWarnings)
  : gset string * option WikilinkWarnings :=
  if blacklisted blacklist_fields parent_key then acc else
  match val with
  | PStr s =>
      let '(found, w) := extract_all_wikilinks s (snd acc) file_path in
      (fst acc ∪ found, w)
  | PDict m =>
      (fix items (m : list (string * pyval)) acc :=
         match m with
         | [] => acc
         | (k, v) :: m' =>
             items m' (scan_value blacklist_fields file_path v
                         (Some (child_key parent_key k)) acc)
         end) m acc
  | PList l =>
      (fix elems (l : list pyval) acc :=
         match l with
         | [] => acc
         | v :: l' =>
             elems l' (scan_value blacklist_fields file_path v parent_key acc)
         end) l acc
  | _ => acc
  end.

Definition extract_from_dict (data : pyval) (blacklist_fields : list string)
    (warnings : option WikilinkWarnings) (file_path : option string)
  : gset string * option WikilinkWarnings :=
  scan_value blacklist_fields file_path data None (∅, warnings).

(** [categorize_links] *)
Definition categorize_links (all_links specific_links : gset string)
    (entity_id : string) : gset string * gset string :=
  let generic_refs := all_links ∖ specific_links ∖ {[entity_id]} in
  (specific_links, generic_refs).

End WikilinkExtractor.

(* ===================================================================== *)
(** * Canonical records handed to the projector                           *)
(* ===================================================================== *)

(** A [pathlib.Path] is the list of its parts. *)
Module Path.
Definition name (p : list string) : string := default EmptyString (last p).
Definition to_str (p : list string) : string := String.concat "/" p.
End Path.

Record Assertion : Type := {
  assertion_id : string;
  doc_id : string;
  assertion_properties : gmap string pyval
}.

Record EventRecord : Type := {
  event_id : string;
  event_properties : gmap string pyval;
  event_assertion : Assertion;
  event_references : gset string
}.

Record MicroActionRecord : Type := {
  micro_id : string;
  micro_properties : gmap string pyval;
  micro_assertion : Assertion;
  micro_references : gset string
}.

Record DocumentRecord : Type := {
  document_id : string;
  document_properties : gmap string pyval;
  document_references : gset string
}.

Record StructureItem : Type := {
  rid : pyval;
  target_id : option string;
  item_properties : gmap string pyval
}.

Record EntityRecord : Type := {
  label : string;
  entity_id : string;
  entity_properties : gmap string pyval;
  structures : list (string * list StructureItem);
  specific_relations : list (string * list string);
  generic_references : gset string
}.

(* ===================================================================== *)
(** * document_parser.py                                                  *)
(* ===================================================================== *)

Module DocumentParser.
Import PyStr.

Section WithLibraries.
(** [hashlib.sha1(s.encode('utf-8')).hexdigest()] *)
Variable sha1_hex : string -> string.
(** [yaml.safe_load]: the loaded value, or the exception that leaves
    the call: a [YAMLError] of the scanner, the parser or a
    constructor, or another exception that a constructor lets
    through, such as the [ValueError] of a date that does not
    exist. *)
Variable yaml_safe_load : string -> result pyval.

(** [self._doc_id_index]: per base id, the collision count and the
    path of the first file. *)
Definition doc_id_index : Type := gmap string (nat * string).

Definition base_id (file_path : list string) : string :=
  "/id/document/" +:+ sha1_hex (Path.name file_path).

Definition _build_document_id (file_path : list string)
    (st : gmap string (nat * string) * WikilinkWarnings)
  : string * (gmap string (nat * string) * WikilinkWarnings) :=
  let '(index, warnings) := st in
  let file_name := Path.name file_path in
  let base := base_id file_path in
  match index !! base with
  | Some (count, original_path) =>
      let n := S count in
      (base +:+ "::" +:+ pretty n,
       (<[base := (n, original_path)]> index,
        Warnings.log_document_id_collision warnings file_name
          original_path (Path.to_str file_path)))
  | None =>
      (base, (<[base := (0, Path.to_str file_path)]> index, warnings))
  end.

(** The calls that [parse_all] makes to [_build_document_id], one per
    archive document, in the order in which the files are met: the
    ids, and the index and the collector at the end. *)
Fixpoint build_document_ids (paths : list (list string))
    (st : gmap string (nat * string) * WikilinkWarnings)
  : list string * (gmap string (nat * string) * WikilinkWarnings) :=
  match paths with
  | [] => ([], st)
  | p :: ps =>
      let '(id, st) := _build_document_id p st in
      let '(ids, st) := build_document_ids ps st in
      (id :: ids, st)
  end.

(** [text.split('---', 2)] when it yields three parts whose first is
    empty: the second and the third. *)
Definition split3 (text : string) : option (string * string) :=
  if startswith "---" text then
    let rest := drop 3 text in
    i ← find "---" rest;
    Some (take i rest, drop (i + 3) rest)
  else None.

(** [_split_frontmatter]: the [except yaml.YAMLError] branch returns
    the empty mapping and the whole text; an exception of another
    class is not caught. *)
Definition _split_frontmatter (text : string) : result (pyval * string) :=
  match split3 text with
  | None => Ok (PDict [], text)
  | Some (block, rest) =>
      match yaml_safe_load block with
      | Ok v =>
          let fm := if Py.truthy v then v else PDict [] in
          Ok (fm, lstrip_chars nl rest)
      | Raise YAMLError => Ok (PDict [], text)
      | Raise e => Raise e
      end
  end.

End WithLibraries.
End DocumentParser.

(* ===================================================================== *)
(** * event_parser.py                                                     *)
(* ===================================================================== *)

(** The loop state of one block: the dict [data], the two accumulated
    texts with their mode flags, the set [specific_entities] and the
    collector. *)
Record BlockState : Type := {
  data : gmap string string;
  description_text : string;
  observation_text : string;
  in_description : bool;
  in_observation : bool;
  specific_entities : gset string;
  block_warnings : option WikilinkWarnings
}.

Module Block.

Definition init (raw_id : string) (w : option WikilinkWarnings) : BlockState :=
  {| data := {[ "id" := raw_id ]};
     description_text := EmptyString; observation_text := EmptyString;
     in_description := false; in_observation := false;
     specific_entities := ∅; block_warnings := w |}.

Definition set_modes (d o : bool) (st : BlockState) : BlockState :=
  {| data := data st;
     description_text := description_text st;
     observation_text := observation_text st;
     in_description := d; in_observation := o;
     specific_entities := specific_entities st;
     block_warnings := block_warnings st |}.

Definition set_texts (d o : string) (st : BlockState) : BlockState :=
  {| data := data st;
     description_text := d; observation_text := o;
     in_description := in_description st;
     in_observation := in_observation st;
     specific_entities := specific_entities st;
     block_warnings := block_warnings st |}.

Definition set_data (m : gmap string string) (st : BlockState) : BlockState :=
  {| data := m;
     description_text := description_text st;
     observation_text := observation_text st;
     in_description := in_description st;
     in_observation := in_observation st;
     specific_entities := specific_entities st;
     block_warnings := block_warnings st |}.

Definition set_warnings (w : option WikilinkWarnings) (st : BlockState)
  : BlockState :=
  {| data := data st;
     description_text := description_text st;
     observation_text := observation_text st;
     in_description := in_description st;
     in_observation := in_observation st;
     specific_entities := specific_entities st;
     block_warnings := w |}.

(** [data[f"{key}_id"] = entity_id; specific_entities.add(entity_id)] *)
Definition add_entity (key entity_id : string) (st : BlockState) : BlockState :=
  {| data := <[key +:+ "_id" := entity_id]> (data st);
     description_text := description_text st;
     observation_text := observation_text st;
     in_description := in_description st;
     in_observation := in_observation st;
     specific_entities := {[entity_id]} ∪ specific_entities st;
     block_warnings := block_warnings st |}.

(** [data.get(k)] and [data.get(k, '')] *)
Definition get (k : string) (st : BlockState) : option string := data st !! k.
Definition get_str (k : string) (st : BlockState) : string :=
  default EmptyString (data st !! k).

(** Truthiness of [data.get(k)]. *)
Definition has (k : string) (st : BlockState) : bool :=
  match data st !! k with
  | Some v => PyStr.truthy v
  | None => false
  end.

End Block.

Module EventParser.
Import PyStr.

Section WithLibraries.
Variable sha1_hex : string -> string.
(** [EVENT_BLOCK_RE.finditer(text)]: groups 1 and 2 of every match. *)
Variable EVENT_BLOCK_RE_finditer : string -> list (string * string).
(** [KV_RE.match(line)]: groups 1 and 2. *)
Variable KV_RE_match : string -> option (string * string).
Variable DESC_PATTERN_match : string -> bool.
Variable OBS_PATTERN_match : string -> bool.

Definition _build_document_id_from_path (file_path : list string) : string :=
  let file_name := Path.name file_path in
  let h := sha1_hex file_name in
  "/id/document/" +:+ h.

Definition _canonicalize_event_id (raw_id : string) : string :=
  if startswith "/id/event/" raw_id then raw_id
  else "/id/event/" +:+ sha1_hex raw_id.

(** [_extract_entity_id]; [clean_id] raises nothing but [ValueError]. *)
Definition _extract_entity_id (wikilink : string)
    (warnings : option WikilinkWarnings) (file_path : string)
    (line_num : nat) : option string * option WikilinkWarnings :=
  if String.eqb wikilink "UNKNOWN_AUTHORITY"
  then (Some "UNKNOWN_AUTHORITY", warnings)
  else
    match WikilinkExtractor.clean_id wikilink warnings (Some file_path)
            (Some line_num) with
    | (Ok id, w) => (Some id, w)
    | (Raise _, w) =>
        (if contains "UNKNOWN" (upper wikilink)
         then Some "UNKNOWN_AUTHORITY" else None, w)
    end.

(** One turn of the loop over [content.splitlines()]. *)
Definition block_line (file_path : string) (st : BlockState)
    (line : string) : BlockState :=
  let line_stripped := strip line in
  if DESC_PATTERN_match line_stripped then Block.set_modes true false st
  else if OBS_PATTERN_match line_stripped then Block.set_modes false true st
  else
    let st :=
      if startswith "**" line_stripped || startswith "---" line_stripped
      then Block.set_modes false false st else st in
    let st :=
      if in_description st
      then Block.set_texts (description_text st +:+ line +:+ nl)
             (observation_text st) st
      else if in_observation st
      then Block.set_texts (description_text st)
             (observation_text st +:+ line +:+ nl) st
      else st in
    if negb (truthy line_stripped) || startswith "**" line_stripped
    then st
    else
      match KV_RE_match line with
      | Some (key, val) =>
          let val := strip val in
          if existsb (String.eqb key) ["victim"; "agent"; "place"] then
            let '(entity, w) :=
              _extract_entity_id val (block_warnings st) file_path 0 in
            let st := Block.set_warnings w st in
            match entity with
            | Some e => if truthy e then Block.add_entity key e st else st
            | None => st
            end
          else Block.set_data (<[key := val]> (data st)) st
      | None => st
      end.

(** [all_links.update(extract_all_wikilinks(data[k], ...))] when
    [data.get(k)] is truthy. *)
Definition links_of_field (file_path k : string) (st : BlockState)
    (acc : gset string * option WikilinkWarnings)
  : gset string * option WikilinkWarnings :=
  if Block.has k st then
    let '(found, w) :=
      WikilinkExtractor.extract_all_wikilinks (Block.get_str k st)
        (snd acc) (Some file_path) in
    (fst acc ∪ found, w)
  else acc.

(** [date_start, date_end, date_precision] of a block. *)
Definition block_dates (date_edtf : option string)
  : result EDTFParser.triple :=
  match date_edtf with
  | Some d => if truthy d then EDTFParser.parse d
              else Ok (None, None, "unknown")
  | None => Ok (None, None, "unknown")
  end.

(** [date_edtf and ('..' in date_edtf)] *)
Definition gap_flag_of (date_edtf : option string) : pyval :=
  match date_edtf with
  | Some d => if truthy d then PBool (contains ".." d) else PStr d
  | None => PNone
  end.

Definition _parse_event_block (raw_id content doc_id file_path : string)
    (warnings : option WikilinkWarnings)
  : result EventRecord * option WikilinkWarnings :=
  let event_id := _canonicalize_event_id raw_id in
  let st := foldl (block_line file_path) (Block.init raw_id warnings)
              (splitlines content) in
  let st :=
    if truthy (strip (description_text st))
    then Block.set_data
           (<["description" := strip (description_text st)]> (data st)) st
    else st in
  let st :=
    if truthy (strip (observation_text st))
    then Block.set_data
           (<["observation" := strip (observation_text st)]> (data st)) st
    else st in
  let '(all_links, w) :=
    links_of_field file_path "observation" st
      (links_of_field file_path "description" st (∅, block_warnings st)) in
  let generic_refs := all_links ∖ specific_entities st in
  let date_edtf := Block.get "date_edtf" st in
  match block_dates date_edtf with
  | Raise e => (Raise e, w)
  | Ok (date_start, date_end, date_precision) =>
      let conf_raw := lower (strip (Block.get_str "confidence" st)) in
      let uncertainty_flag :=
        String.eqb conf_raw "low" || endswith "/low" conf_raw in
      let agent := Block.get "agent_id" st in
      let unknown_agent :=
        match agent with
        | None => true
        | Some a => String.eqb a "UNKNOWN_AUTHORITY"
        end in
      let get k := Py.of_option (Block.get k st) in
      let properties : gmap string pyval :=
        list_to_map
          [("event_id", PStr event_id);
           ("tags", PStr (Block.get_str "tags" st));
           ("event_type", get "event_type");
           ("date_edtf", Py.of_option date_edtf);
           ("date_start", Py.of_option date_start);
           ("date_end", Py.of_option date_end);
           ("date_precision", PStr date_precision);
           ("date_source", get "date_source");
           ("victim_id", get "victim_id");
           ("agent_id",
             PStr (if Block.has "agent_id" st
                   then Block.get_str "agent_id" st
                   else "UNKNOWN_AUTHORITY"));
           ("agent_precision", get "agent_precision");
           ("agent_role", get "agent_role");
           ("place_id", get "place_id");
           ("place_precision", get "place_precision");
           ("description", get "description");
           ("observation", get "observation");
           ("uncertainty_flag", PBool uncertainty_flag);
           ("gap_flag", gap_flag_of date_edtf);
           ("unknown_agent", PBool unknown_agent)] in
      let assertion :=
        {| assertion_id := event_id +:+ "::assertion";
           doc_id := doc_id;
           assertion_properties :=
             list_to_map
               [("type", PStr "EVENT_ASSERTION");
                ("confidence",
                  PStr (default "medium" (Block.get "confidence" st)));
                ("evidence_type",
                  PStr (default "reported" (Block.get "evidence_type" st)));
                ("source_quote", PStr (Block.get_str "source_quote" st));
                ("page", get "page")] |} in
      (Ok {| event_id := event_id;
             event_properties := properties;
             event_assertion := assertion;
             event_references := generic_refs |}, w)
  end.

(** [_parse_events_from_file]: an exception of a block leaves the loop
    and loses the events collected so far. *)
Definition _parse_events_from_file (file_path : list string)
    (text : string) (warnings : option WikilinkWarnings)
  : result (list EventRecord) * option WikilinkWarnings :=
  let doc_id := _build_document_id_from_path file_path in
  foldl (fun '(acc, w) '(g1, block_content) =>
           match acc with
           | Raise e => (Raise e, w)
           | Ok events =>
               let raw_id := strip g1 in
               match _parse_event_block raw_id block_content doc_id
                       (Path.to_str file_path) w with
               | (Ok event, w') => (Ok (events ++ [event])%list, w')
               | (Raise e, w') => (Raise e, w')
               end
           end)
        (Ok [], warnings) (EVENT_BLOCK_RE_finditer text).

End WithLibraries.
End EventParser.

(* ===================================================================== *)
(** * microaction_parser.py                                               *)
(* ===================================================================== *)

Module MicroActionParser.
Import PyStr.

Section WithLibraries.
Variable sha1_hex : string -> string.
(** [MICRO_BLOCK_RE.finditer(text)]: groups 1 and 2 of every match. *)
Variable MICRO_BLOCK_RE_finditer : string -> list (string * string).
Variable KV_RE_match : string -> option (string * string).
(** The method [_extract_reply_date], a cascade of [re.search] calls
    over [REPLY_DATE_PATTERNS]; it only feeds [in_reply_to_date]. *)
Variable _extract_reply_date : string -> option string.

Definition _build_document_id_from_path (file_path : list string) : string :=
  let file_name := Path.name file_path in
  let h := sha1_hex file_name in
  "/id/document/" +:+ h.

Definition _canonicalize_micro_id (raw_id : string) : string :=
  if startswith "/id/microaction/" raw_id then raw_id
  else "/id/microaction/" +:+ sha1_hex raw_id.

Definition _extract_entity_id (wikilink : string)
    (warnings : option WikilinkWarnings) (file_path : string)
    (line_num : nat) : option string * option WikilinkWarnings :=
  if negb (startswith "[[" wikilink) then
    (Some wikilink,
     (fun w => Warnings.log_invalid w file_path line_num wikilink
                 "Not a wikilink") <$> warnings)
  else
    match WikilinkExtractor.clean_id wikilink warnings (Some file_path)
            (Some line_num) with
    | (Ok id, w) => (Some id, w)
    | (Raise _, w) => (None, w)
    end.

Definition block_line (file_path : string) (st : BlockState)
    (line : string) : BlockState :=
  let line := strip line in
  if negb (truthy line) || startswith "**" line then st
  else
    match KV_RE_match line with
    | Some (key, val) =>
        let val := strip val in
        if existsb (String.eqb key) ["actor"; "recipient"; "about"] then
          let '(entity, w) :=
            _extract_entity_id val (block_warnings st) file_path 0 in
          let st := Block.set_warnings w st in
          match entity with
          | Some e => if truthy e then Block.add_entity key e st else st
          | None => st
          end
        else Block.set_data (<[key := val]> (data st)) st
    | None => st
    end.

(** The [in_reply_to_date] that ends up in the properties, and the
    collector after the two possible log calls. *)
Definition reply_anchor (file_path micro_id : string) (st : BlockState)
    (w : option WikilinkWarnings)
  : option string * option WikilinkWarnings :=
  let in_reply_to_date := Block.get "in_reply_to_date" st in
  let link_type := Block.get_str "link_type" st in
  if Block.has "in_reply_to_date" st then (in_reply_to_date, w)
  else if contains "acknowledges_receipt" link_type
          || contains "replies_to" link_type then
    let full_text :=
      Block.get_str "description" st +:+ " "
        +:+ Block.get_str "observations" st in
    match _extract_reply_date full_text with
    | Some d =>
        if truthy d
        then (Some d,
              (fun x => Warnings.log_in_reply_to_date_extracted x
                          file_path micro_id d) <$> w)
        else (Some d,
              (fun x => Warnings.log_reply_missing_anchor_date x
                          file_path micro_id) <$> w)
    | None =>
        (None,
         (fun x => Warnings.log_reply_missing_anchor_date x
                     file_path micro_id) <$> w)
    end
  else (in_reply_to_date, w).

Definition _parse_micro_block (raw_id content doc_id file_path : string)
    (warnings : option WikilinkWarnings)
  : result MicroActionRecord * option WikilinkWarnings :=
  let micro_id := _canonicalize_micro_id raw_id in
  let st := foldl (block_line file_path) (Block.init raw_id warnings)
              (splitlines content) in
  let '(all_links, w) :=
    foldl (fun acc field =>
             EventParser.links_of_field file_path field st acc)
          (∅, block_warnings st)
          ["description"; "summary"; "abstract"; "observations"] in
  let person_refs :=
    filter (fun r => contains "/id/person/" r = true) (elements all_links) in
  let w :=
    match person_refs with
    | _ :: _ =>
        if negb (Block.has "about_id" st)
        then (fun x => Warnings.log_missing_about x file_path micro_id) <$> w
        else w
    | [] => w
    end in
  let generic_refs := all_links ∖ specific_entities st in
  let date_edtf := Block.get "date_edtf" st in
  match EventParser.block_dates date_edtf with
  | Raise e => (Raise e, w)
  | Ok (date_start, date_end, date_precision) =>
      let '(in_reply_to_date, w) := reply_anchor file_path micro_id st w in
      let confidence_raw := lower (strip (Block.get_str "confidence" st)) in
      let uncertainty_flag := String.eqb confidence_raw "low" in
      let get k := Py.of_option (Block.get k st) in
      let properties : gmap string pyval :=
        list_to_map
          [("micro_id", PStr micro_id);
           ("action_type", get "action_type");
           ("tags", PStr (Block.get_str "tags" st));
           ("link_type", get "link_type");
           ("delivery_channel", get "delivery_channel");
           ("date_edtf", Py.of_option date_edtf);
           ("date_start", Py.of_option date_start);
           ("date_end", Py.of_option date_end);
           ("date_precision", PStr date_precision);
           ("date_source", get "date_source");
           ("in_reply_to_date", Py.of_option in_reply_to_date);
           ("actor_id", get "actor_id");
           ("recipient_id", get "recipient_id");
           ("about_id", get "about_id");
           ("place_id", get "place_id");
           ("summary", get "summary");
           ("description", get "description");
           ("abstract", get "abstract");
           ("observations", get "observations");
           ("uncertainty_flag", PBool uncertainty_flag);
           ("gap_flag", EventParser.gap_flag_of date_edtf)] in
      let assertion :=
        {| assertion_id := micro_id +:+ "::assertion";
           doc_id := doc_id;
           assertion_properties :=
             list_to_map
               [("type", PStr "MICROACTION_ASSERTION");
                ("confidence",
                  PStr (default "medium" (Block.get "confidence" st)));
                ("evidence_type",
                  PStr (default "reported" (Block.get "evidence_type" st)));
                ("source_quote", PStr (Block.get_str "source_quote" st));
                ("page", get "page")] |} in
      (Ok {| micro_id := micro_id;
             micro_properties := properties;
             micro_assertion := assertion;
             micro_references := generic_refs |}, w)
  end.

Definition _parse_microactions_from_file (file_path : list string)
    (text : string) (warnings : option WikilinkWarnings)
  : result (list MicroActionRecord) * option WikilinkWarnings :=
  let doc_id := _build_document_id_from_path file_path in
  foldl (fun '(acc, w) '(g1, block_content) =>
           match acc with
           | Raise e => (Raise e, w)
           | Ok micros =>
               let raw_id := strip g1 in
               match _parse_micro_block raw_id block_content doc_id
                       (Path.to_str file_path) w with
               | (Ok micro, w') => (Ok (micros ++ [micro])%list, w')
               | (Raise e, w') => (Raise e, w')
               end
           end)
        (Ok [], warnings) (MICRO_BLOCK_RE_finditer text).

End WithLibraries.
End MicroActionParser.

(* ===================================================================== *)
(** * entity_parser.py                                                    *)
(* ===================================================================== *)

Module EntityParser.
Import PyStr.

(** [_split_frontmatter_raw] *)
Definition _split_frontmatter_raw (text : string) : string * string :=
  match DocumentParser.split3 text with
  | None => (EmptyString, text)
  | Some (block, rest) => (block, lstrip_chars nl rest)
  end.

(** [_get_label]: the part that follows the first part named [id]. *)
Fixpoint _get_label (parts : list string) : string :=
  match parts with
  | [] => "Entity"
  | p :: rest =>
      if String.eqb p "id" then
        match rest with
        | folder :: _ =>
            if String.eqb folder "person" then "Person"
            else if String.eqb folder "org" then "Organization"
            else if String.eqb folder "gpe" || String.eqb folder "place"
            then "GPE"
            else "Entity"
        | [] => "Entity"
        end
      else _get_label rest
  end.

(** Code that logs into the collector and may raise: the collector is
    threaded through, and survives a raise. *)
Definition M (A : Type) : Type :=
  option WikilinkWarnings -> result A * option WikilinkWarnings.

Definition ret {A} (a : A) : M A := fun w => (Ok a, w).
Definition raise {A} (e : exn) : M A := fun w => (Raise e, w).
Definition lift {A} (r : result A) : M A := fun w => (r, w).
Definition bindM {A B} (m : M A) (k : A -> M B) : M B :=
  fun w =>
    match m w with
    | (Ok a, w') => k a w'
    | (Raise e, w') => (Raise e, w')
    end.

Notation "x <~ m ; k" := (bindM m (fun x => k))
  (at level 20, m at level 100, k at level 200, only parsing).
Notation "' x <~ m ; k" := (bindM m (fun x => k))
  (at level 20, x pattern, m at level 100, k at level 200, only parsing).

(** A [for] loop whose body may raise. *)
Fixpoint foldM {A B} (f : B -> A -> M B) (b : B) (xs : list A) : M B :=
  match xs with
  | [] => ret b
  | x :: xs' => b' <~ f b x; foldM f b' xs'
  end.

(** [x.get(...)] needs a dict. *)
Definition as_dict (x : pyval) : M (list (string * pyval)) :=
  match x with
  | PDict m => ret m
  | _ => raise AttributeError
  end.

(** [(v or {}).get(...)] *)
Definition or_empty_dict (v : pyval) : M (list (string * pyval)) :=
  if Py.truthy v then as_dict v else ret [].

(** [x.get(k, '')] *)
Definition get_or_empty (k : string) (m : list (string * pyval)) : pyval :=
  if Py.has_key k m then Py.get k m else PStr EmptyString.

(** [try: clean_id(v, ...) except (ValueError, TypeError): pass]: the id
    when the call succeeds, [None] when the [ValueError] is swallowed;
    a value without [strip] raises [AttributeError], which is not
    caught. *)
Definition try_clean (v : pyval) (file_path : string) : M (option string) :=
  match v with
  | PStr s =>
      fun w =>
        match WikilinkExtractor.clean_id s w (Some file_path) None with
        | (Ok id, w') => (Ok (Some id), w')
        | (Raise _, w') => (Ok None, w')
        end
  | _ => raise AttributeError
  end.

(** [id = None; if raw: try: id = clean_id(raw, ...) except ...: pass] *)
Definition clean_field (raw : pyval) (file_path : string) : M (option string) :=
  if Py.truthy raw then try_clean raw file_path else ret None.

(** [EDTFParser.parse(v)] on a value read from the front matter. *)
Definition parse_interval (v : pyval) : M EDTFParser.triple :=
  match v with
  | PStr s => lift (EDTFParser.parse s)
  | _ => if Py.truthy v then raise AttributeError
         else ret (None, None, "unknown")
  end.

Definition opt_set (o : option string) : gset string :=
  match o with Some x => {[x]} | None => ∅ end.

Definition _parse_occupations (occs_data : list pyval) (file_path : string)
  : M (list StructureItem * gset string) :=
  foldM (fun '(occupations, org_ids) occ =>
           occ <~ as_dict occ;
           org_id <~ clean_field (Py.get "organization" occ) file_path;
           let interval := get_or_empty "interval" occ in
           '(date_start, date_end, precision) <~ parse_interval interval;
           provenance <~ or_empty_dict (Py.get "provenance" occ);
           ret ((occupations ++
                 [{| rid := Py.get "rid" occ;
                     target_id := None;
                     item_properties :=
                       list_to_map
                         [("type_activity", Py.get "type_activity" occ);
                          ("organization", Py.of_option org_id);
                          ("position_title", Py.get "position_title" occ);
                          ("interval", interval);
                          ("date_start", Py.of_option date_start);
                          ("date_end", Py.of_option date_end);
                          ("date_precision", PStr precision);
                          ("doc", Py.get "doc" provenance);
                          ("page", Py.get "page" provenance);
                          ("quote", Py.get "quote" provenance);
                          ("evidence_type", Py.get "evidence_type" provenance);
                          ("confidence", Py.get "confidence" provenance)] |}])%list,
                org_ids ∪ opt_set org_id))
        ([], ∅) occs_data.

Definition _parse_names (names_data : list pyval) (entity_id : string)
  : M (list StructureItem) :=
  foldM (fun names name =>
           name <~ as_dict name;
           let interval := get_or_empty "interval" name in
           '(date_start, date_end, precision) <~ parse_interval interval;
           parts <~ or_empty_dict (Py.get "parts" name);
           provenance <~ or_empty_dict (Py.get "provenance" name);
           ret (names ++
                [{| rid := Py.get "rid" name;
                    target_id := None;
                    item_properties :=
                      list_to_map
                        [("display", Py.get "display" name);
                         ("parts_family", Py.get "family" parts);
                         ("parts_given", Py.get "given" parts);
                         ("parts_particle", Py.get "particle" parts);
                         ("lang", Py.get "lang" name);
                         ("interval", interval);
                         ("date_start", Py.of_option date_start);
                         ("date_end", Py.of_option date_end);
                         ("date_precision", PStr precision);
                         ("type", Py.get "type" name);
                         ("doc", Py.get "doc" provenance);
                         ("quote", Py.get "quote" provenance);
                         ("evidence_type", Py.get "evidence_type" provenance);
                         ("confidence", Py.get "confidence" provenance)] |}])%list)
        [] names_data.

Definition _parse_origins (origins_data : list pyval) (file_path : string)
  : M (list StructureItem) :=
  foldM (fun origins origin =>
           origin <~ as_dict origin;
           place_id <~ clean_field (Py.get "place" origin) file_path;
           let interval := get_or_empty "interval" origin in
           '(date_start, date_end, precision) <~ parse_interval interval;
           provenance <~ or_empty_dict (Py.get "provenance" origin);
           ret (origins ++
                [{| rid := Py.get "rid" origin;
                    target_id := None;
                    item_properties :=
                      list_to_map
                        [("mode", Py.get "mode" origin);
                         ("place", Py.of_option place_id);
                         ("interval", interval);
                         ("date_start", Py.of_option date_start);
                         ("date_end", Py.of_option date_end);
                         ("date_precision", PStr precision);
                         ("is_primary",
                           if Py.has_key "is_primary" origin
                           then Py.get "is_primary" origin else PBool false);
                         ("doc", Py.get "doc" provenance);
                         ("quote", Py.get "quote" provenance);
                         ("evidence_type", Py.get "evidence_type" provenance);
                         ("confidence", Py.get "confidence" provenance)] |}])%list)
        [] origins_data.

Definition _parse_family_relations (rels_data : list pyval)
    (file_path : string) : M (list StructureItem * gset string) :=
  foldM (fun '(relations, target_ids) rel =>
           rel <~ as_dict rel;
           target <~ clean_field (Py.get "target" rel) file_path;
           let interval := get_or_empty "interval" rel in
           '(date_start, date_end, precision) <~ parse_interval interval;
           provenance <~ or_empty_dict (Py.get "provenance" rel);
           ret ((relations ++
                 [{| rid := Py.get "rid" rel;
                     target_id := target;
                     item_properties :=
                       list_to_map
                         [("relation_type", Py.get "relation_type" rel);
                          ("interval", interval);
                          ("date_start", Py.of_option date_start);
                          ("date_end", Py.of_option date_end);
                          ("date_precision", PStr precision);
                          ("doc", Py.get "doc" provenance);
                          ("quote", Py.get "quote" provenance);
                          ("evidence_type", Py.get "evidence_type" provenance);
                          ("confidence", Py.get "confidence" provenance)] |}])%list,
                target_ids ∪ opt_set target))
        ([], ∅) rels_data.

Definition _parse_professional_relations (rels_data : list pyval)
    (file_path : string) : M (list StructureItem * gset string) :=
  foldM (fun '(relations, target_ids) rel =>
           rel <~ as_dict rel;
           target <~ clean_field (Py.get "target" rel) file_path;
           org_id <~ clean_field (Py.get "organization_context" rel) file_path;
           let interval := get_or_empty "interval" rel in
           '(date_start, date_end, precision) <~ parse_interval interval;
           provenance <~ or_empty_dict (Py.get "provenance" rel);
           ret ((relations ++
                 [{| rid := Py.get "rid" rel;
                     target_id := target;
                     item_properties :=
                       list_to_map
                         [("relation_type", Py.get "relation_type" rel);
                          ("organization_context", Py.of_option org_id);
                          ("interval", interval);
                          ("date_start", Py.of_option date_start);
                          ("date_end", Py.of_option date_end);
                          ("date_precision", PStr precision);
                          ("doc", Py.get "doc" provenance);
                          ("quote", Py.get "quote" provenance);
                          ("evidence_type", Py.get "evidence_type" provenance);
                          ("confidence", Py.get "confidence" provenance)] |}])%list,
                target_ids ∪ opt_set target))
        ([], ∅) rels_data.

(** Python dicts whose iteration order matters are association lists:
    [d[k] = v] replaces in place or appends. *)
Fixpoint alist_get {A} (k : string) (l : list (string * A)) : option A :=
  match l with
  | [] => None
  | (k', v) :: l' => if String.eqb k k' then Some v else alist_get k l'
  end.

Fixpoint alist_set {A} (k : string) (v : A) (l : list (string * A))
  : list (string * A) :=
  match l with
  | [] => [(k, v)]
  | (k', v') :: l' =>
      if String.eqb k k' then (k, v) :: l' else (k', v') :: alist_set k v l'
  end.

(** [clean_id(frontmatter['id'], ...)], outside any [try]. *)
Definition clean_or_raise (v : pyval) (file_path : string) : M string :=
  match v with
  | PStr s => fun w => WikilinkExtractor.clean_id s w (Some file_path) None
  | _ => raise AttributeError
  end.

(** The value of a link property of a markdown item, when it is truthy;
    the markdown parser stores a string or [None] there. *)
Definition truthy_str (v : pyval) : option string :=
  match v with
  | PStr s => if truthy s then Some s else None
  | _ => None
  end.

(** The accumulators [specific_links], [specific_relations] and
    [structures] of [_parse_entity_file]. *)
Record Acc : Type := {
  specific_links : gset string;
  acc_relations : list (string * list string);
  acc_structures : list (string * list StructureItem)
}.

Definition add_link (x : string) (a : Acc) : Acc :=
  {| specific_links := {[x]} ∪ specific_links a;
     acc_relations := acc_relations a;
     acc_structures := acc_structures a |}.

Definition add_links (xs : gset string) (a : Acc) : Acc :=
  {| specific_links := specific_links a ∪ xs;
     acc_relations := acc_relations a;
     acc_structures := acc_structures a |}.

Definition set_relation (k : string) (targets : list string) (a : Acc) : Acc :=
  {| specific_links := specific_links a;
     acc_relations := alist_set k targets (acc_relations a);
     acc_structures := acc_structures a |}.

Definition set_structure (k : string) (items : list StructureItem) (a : Acc)
  : Acc :=
  {| specific_links := specific_links a;
     acc_relations := acc_relations a;
     acc_structures := alist_set k items (acc_structures a) |}.

(** The body of the loop over the occupations found in the markdown. *)
Definition worked_for_of_item (a : Acc) (item : StructureItem) : Acc :=
  match truthy_str (default PNone (item_properties item !! "organization")) with
  | Some org_id =>
      let a := add_link org_id a in
      let current := default [] (alist_get "WORKED_FOR" (acc_relations a)) in
      if existsb (String.eqb org_id) current then
        set_relation "WORKED_FOR" current a
      else set_relation "WORKED_FOR" (current ++ [org_id])%list a
  | None => a
  end.

Definition target_of_item (a : Acc) (item : StructureItem) : Acc :=
  match target_id item with
  | Some t => if truthy t then add_link t a else a
  | None => a
  end.

Definition place_of_item (a : Acc) (item : StructureItem) : Acc :=
  match truthy_str (default PNone (item_properties item !! "place")) with
  | Some place_id => add_link place_id a
  | None => a
  end.

(** One turn of the loop over [markdown_structures.items()]. *)
Definition merge_markdown (a : Acc) (entry : string * list StructureItem)
  : Acc :=
  let '(struct_key, items) := entry in
  let old := default [] (alist_get struct_key (acc_structures a)) in
  let a := set_structure struct_key (old ++ items)%list a in
  if String.eqb struct_key "occupations" then foldl worked_for_of_item a items
  else if String.eqb struct_key "family_relations" then
    foldl target_of_item a items
  else if String.eqb struct_key "professional_relations" then
    foldl target_of_item a items
  else if String.eqb struct_key "origins" then foldl place_of_item a items
  else a.

Section WithLibraries.
(** [yaml.safe_load]: the loaded value, or the exception that leaves
    the call. *)
Variable yaml_safe_load : string -> result pyval.
(** [WikilinkExtractor.validate_frontmatter_syntax]: a regular
    expression scan that only logs. *)
Variable validate_frontmatter_syntax :
  string -> string -> option WikilinkWarnings -> option WikilinkWarnings.
(** [parse_structures_from_markdown(label, body, ...)] of
    [entity_parser_markdown.py]; it never logs. *)
Variable parse_structures_from_markdown :
  string -> string -> list (string * list StructureItem).
(** The block that fills [properties] from the label, the front matter
    and the body; it reads no link set and lets no exception out. *)
Variable base_properties :
  string -> list (string * pyval) -> string -> gmap string pyval.

(** [if k in frontmatter and isinstance(frontmatter.get(k), list)] *)
Definition list_field (k : string) (fm : list (string * pyval))
  : option (list pyval) :=
  match Py.get k fm with
  | PList l => if Py.has_key k fm then Some l else None
  | _ => None
  end.

(** The legacy list-valued fields of a person. *)
Definition legacy_structures (fm : list (string * pyval))
    (entity_id file_path : string) (a : Acc) : M Acc :=
  a <~ match list_field "occupations" fm with
       | Some l =>
           '(occs, worked_for_ids) <~ _parse_occupations l file_path;
           let a := add_links worked_for_ids
                      (set_structure "occupations" occs a) in
           ret (if decide (worked_for_ids = ∅) then a
                else set_relation "WORKED_FOR" (elements worked_for_ids) a)
       | None => ret a
       end;
  a <~ match list_field "names" fm with
       | Some l =>
           names <~ _parse_names l entity_id;
           ret (set_structure "names" names a)
       | None => ret a
       end;
  a <~ match list_field "origins" fm with
       | Some l =>
           origins <~ _parse_origins l file_path;
           ret (set_structure "origins" origins a)
       | None => ret a
       end;
  a <~ match list_field "relations_family" fm with
       | Some l =>
           '(rels, family_ids) <~ _parse_family_relations l file_path;
           ret (add_links family_ids
                  (set_structure "family_relations" rels a))
       | None => ret a
       end;
  match list_field "professional_relations" fm with
  | Some l =>
      '(rels, prof_ids) <~ _parse_professional_relations l file_path;
      ret (add_links prof_ids
             (set_structure "professional_relations" rels a))
  | None => ret a
  end.

(** The [IS_PART_OF] block. *)
Definition is_part_of_block (fm : list (string * pyval))
    (file_path : string) (a : Acc) : M Acc :=
  let v := Py.get "is_part_of" fm in
  if Py.truthy v then
    let parts := match v with
                 | PStr _ => [v]
                 | PList l => l
                 | _ => []
                 end in
    '(a, parent_ids) <~
      foldM (fun '(a, parent_ids) part =>
               parent <~ try_clean part file_path;
               ret match parent with
                   | Some parent_id =>
                       (add_link parent_id a,
                        (parent_ids ++ [parent_id])%list)
                   | None => (a, parent_ids)
                   end)
            (a, []) parts;
    ret match parent_ids with
        | [] => a
        | _ => set_relation "IS_PART_OF" parent_ids a
        end
  else ret a.

Definition _parse_entity_file (file_path : list string) (text : string)
  : M (option EntityRecord) :=
  let fp := Path.to_str file_path in
  let '(frontmatter_text, body) := _split_frontmatter_raw text in
  frontmatter <~
    (if truthy frontmatter_text then lift (yaml_safe_load frontmatter_text)
     else ret (PDict []));
  if negb (Py.truthy frontmatter) then ret None else
  has_id <~ lift (Py.contains_key "id" frontmatter);
  if negb has_id then ret None else
  let label := _get_label file_path in
  if String.eqb label "Entity" then ret None else
  fm <~ match frontmatter with
        | PDict m => ret m
        | _ => raise TypeError
        end;
  entity_id <~ clean_or_raise (Py.get "id" fm) fp;
  _ <~ (fun w => (Ok tt, validate_frontmatter_syntax frontmatter_text fp w));
  _ <~ (fun w =>
          (Ok tt,
           if contains "is_part_of" (lower body)
           then (fun x => Warnings.log_is_part_of_in_body x fp entity_id) <$> w
           else w));
  all_links_text <~
    (fun w => let '(ids, w') :=
                WikilinkExtractor.extract_all_wikilinks body w (Some fp) in
              (Ok ids, w'));
  all_links_fm <~
    (fun w => let '(ids, w') :=
                WikilinkExtractor.extract_from_dict frontmatter
                  WikilinkExtractor.FRONTMATTER_BLACKLIST w (Some fp) in
              (Ok ids, w'));
  let all_links := all_links_text ∪ all_links_fm in
  let a := {| specific_links := ∅; acc_relations := [];
              acc_structures := [] |} in
  a <~ (if Py.truthy (Py.get "gpe" fm) then
          gpe <~ try_clean (Py.get "gpe" fm) fp;
          ret match gpe with
              | Some gpe_id =>
                  set_relation "LOCATED_IN" [gpe_id] (add_link gpe_id a)
              | None => a
              end
        else ret a);
  a <~ is_part_of_block fm fp a;
  a <~ (if String.eqb label "Person"
        then legacy_structures fm entity_id fp a else ret a);
  let a := foldl merge_markdown a
             (parse_structures_from_markdown label body) in
  let '(_, generic_refs) :=
    WikilinkExtractor.categorize_links all_links (specific_links a)
      entity_id in
  ret (Some {| label := label;
               entity_id := entity_id;
               entity_properties := base_properties label fm body;
               structures := acc_structures a;
               specific_relations := acc_relations a;
               generic_references := generic_refs |}).

End WithLibraries.
End EntityParser.

(* ===================================================================== *)
(** * The graph backend, as far as the Cypher of the scripts uses it      *)
(* ===================================================================== *)

(** Every node of the scripts carries one label; a node is identified by
    its position in [nodes], and nothing but [clear_database] deletes. *)
Record Node : Type := {
  node_label : string;
  node_props : gmap string pyval
}.

Record Rel : Type := {
  rel_src : nat;
  rel_type : string;
  rel_dst : nat;
  rel_props : gmap string pyval
}.

Record Graph : Type := {
  nodes : list Node;
  rels : list Rel
}.

Module Cypher.

Definition empty : Graph := {| nodes := []; rels := [] |}.

(** [a = b] on property values: never true when a side is null; the
    scripts compare strings, integers and booleans only. *)
Definition eq (a b : pyval) : bool :=
  match a, b with
  | PStr x, PStr y => String.eqb x y
  | PInt x, PInt y => (x =? y)%Z
  | PBool x, PBool y => Bool.eqb x y
  | _, _ => false
  end.

(** [n.k], null when the property is absent. *)
Definition prop (k : string) (n : Node) : pyval :=
  default PNone (node_props n !! k).

Definition not_null (v : pyval) : bool :=
  match v with PNone => false | _ => true end.

(** The pattern [(x:Label {k: v})]; [lbl = None] is a pattern without
    a label. *)
Definition node_matches (lbl : option string) (k : string) (v : pyval)
    (n : Node) : bool :=
  match lbl with
  | Some l => String.eqb (node_label n) l
  | None => true
  end && eq (prop k n) v.

(** Positions of the elements that satisfy [p], in order. *)
Fixpoint positions {A} (p : A -> bool) (i : nat) (l : list A) : list nat :=
  match l with
  | [] => []
  | x :: l' => if p x then i :: positions p (S i) l' else positions p (S i) l'
  end.

(** [MATCH (x:Label {k: v})] *)
Definition match_nodes (lbl : option string) (k : string) (v : pyval)
    (g : Graph) : list nat :=
  positions (node_matches lbl k v) 0 (nodes g).

(** [SET x += props] on one property map: a null value removes the
    key. *)
Definition set_plus (props old : gmap string pyval) : gmap string pyval :=
  merge (fun o n => match n with
                    | Some PNone => None
                    | Some v => Some v
                    | None => o
                    end) old props.

(** [SET x = props]: the old properties go, nulls are not stored. *)
Definition set_all (props : gmap string pyval) : gmap string pyval :=
  set_plus props ∅.

Definition update_node (f : gmap string pyval -> gmap string pyval)
    (n : Node) : Node :=
  {| node_label := node_label n; node_props := f (node_props n) |}.

(** Applies [f] to the properties of the nodes listed in [ids]. *)
Definition update_nodes (ids : list nat)
    (f : gmap string pyval -> gmap string pyval) (g : Graph) : Graph :=
  {| nodes := imap (fun i n => if bool_decide (i ∈ ids)
                               then update_node f n else n) (nodes g);
     rels := rels g |}.

(** [CREATE (x:Label)] with its properties: the new node and its
    position. *)
Definition create_node (lbl : string) (props : gmap string pyval)
    (g : Graph) : Graph * nat :=
  ({| nodes := nodes g ++ [{| node_label := lbl; node_props := props |}];
      rels := rels g |}, length (nodes g)).

(** [MERGE (x:Label {k: v})]: the matching nodes, or a new one that
    carries the label and the property. *)
Definition merge_node (lbl k : string) (v : string) (g : Graph)
  : Graph * list nat :=
  match match_nodes (Some lbl) k (PStr v) g with
  | [] => let '(g', i) := create_node lbl {[ k := PStr v ]} g in (g', [i])
  | ids => (g, ids)
  end.

(** [MERGE (x:Label {k: v}) SET x += props] *)
Definition merge_set (lbl k : string) (v : string)
    (props : gmap string pyval) (g : Graph) : Graph :=
  let '(g', ids) := merge_node lbl k v g in
  update_nodes ids (set_plus props) g'.

Definition rel_is (src : nat) (ty : string) (dst : nat) (r : Rel) : bool :=
  Nat.eqb (rel_src r) src && String.eqb (rel_type r) ty
  && Nat.eqb (rel_dst r) dst.

(** [MERGE (a)-[:TYPE]->(b)] for one row. *)
Definition merge_rel (ty : string) (g : Graph) (row : nat * nat) : Graph :=
  let '(src, dst) := row in
  if existsb (rel_is src ty dst) (rels g) then g
  else {| nodes := nodes g;
          rels := rels g ++ [{| rel_src := src; rel_type := ty;
                                rel_dst := dst; rel_props := ∅ |}] |}.

(** [MERGE (a)-[r:TYPE]->(b) SET r += props] for one row. *)
Definition merge_rel_set (ty : string) (props : gmap string pyval)
    (g : Graph) (row : nat * nat) : Graph :=
  let '(src, dst) := row in
  let g := merge_rel ty g row in
  {| nodes := nodes g;
     rels := (fun r => if rel_is src ty dst r
                       then {| rel_src := rel_src r; rel_type := rel_type r;
                               rel_dst := rel_dst r;
                               rel_props := set_plus props (rel_props r) |}
                       else r) <$> rels g |}.

(** [MATCH (a ...) MATCH (b ...) MERGE (a)-[:TYPE]->(b)]: one row per
    pair. *)
Definition merge_rels (ty : string) (srcs dsts : list nat) (g : Graph)
  : Graph :=
  foldl (merge_rel ty) g (src ← srcs; dst ← dsts; [(src, dst)]).

(** [(a)-[:TYPE]->()] *)
Definition has_out (ty : string) (src : nat) (g : Graph) : bool :=
  existsb (fun r => Nat.eqb (rel_src r) src && String.eqb (rel_type r) ty)
    (rels g).

(** [(a)-[:T1|T2]->(b)] *)
Definition linked (tys : list string) (src dst : nat) (g : Graph) : bool :=
  existsb (fun r => Nat.eqb (rel_src r) src && Nat.eqb (rel_dst r) dst
                    && existsb (String.eqb (rel_type r)) tys) (rels g).

End Cypher.

(* ===================================================================== *)
(** * master_import.py                                                    *)
(* ===================================================================== *)

Record DateInfo : Type := {
  date_start : option string;
  date_end : option string;
  date_precision : string;
  date_edtf : string
}.

Module MasterImport.
Import PyStr Cypher.

(** The normalisation of one side of an interval in [parse_edtf_date]. *)
Definition interval_side (raw : string) : option string :=
  if negb (truthy raw) || String.eqb raw ".." || String.eqb raw EmptyString
  then None
  else
    let d := strip (remove_char "?" (remove_char "~" raw)) in
    if String.eqb d ".." then None else Some d.

Definition parse_edtf_date (edtf_string : string) : DateInfo :=
  if negb (truthy edtf_string) || String.eqb (strip edtf_string) EmptyString
  then {| date_start := None; date_end := None;
          date_precision := "unknown"; date_edtf := edtf_string |}
  else
  let edtf_string := strip edtf_string in
  if String.eqb edtf_string ".." then
    {| date_start := None; date_end := None;
       date_precision := "unknown"; date_edtf := edtf_string |}
  else if mem "/" edtf_string then
    let parts := split_char "/" edtf_string in
    let date_start_raw := strip (hd EmptyString parts) in
    let date_end_raw :=
      match parts with
      | _ :: p1 :: _ => strip p1
      | _ => EmptyString
      end in
    let date_start := interval_side date_start_raw in
    let date_end := interval_side date_end_raw in
    let precision :=
      match date_start, date_end with
      | None, Some _ => "open_start"
      | Some _, None => "open_end"
      | None, None => "unknown"
      | Some _, Some _ => "interval"
      end in
    {| date_start := date_start; date_end := date_end;
       date_precision := precision; date_edtf := edtf_string |}
  else if mem "~" edtf_string then
    let clean_date := strip (remove_char "~" edtf_string) in
    {| date_start := Some clean_date; date_end := Some clean_date;
       date_precision := "approximate"; date_edtf := edtf_string |}
  else if mem "?" edtf_string then
    let clean_date := strip (remove_char "?" edtf_string) in
    {| date_start := Some clean_date; date_end := Some clean_date;
       date_precision := "uncertain"; date_edtf := edtf_string |}
  else
    {| date_start := Some edtf_string; date_end := Some edtf_string;
       date_precision := "exact"; date_edtf := edtf_string |}.

(** The block of [import_events] and [import_microactions] that rewrites
    the date fields of the copied properties.  A truthy [date_edtf] that
    is not a string has no [strip]. *)
Definition commit_dates (props : gmap string pyval)
  : result (gmap string pyval) :=
  let v := default PNone (props !! "date_edtf") in
  if Py.truthy v then
    match v with
    | PStr s =>
        let date_info := parse_edtf_date s in
        Ok (<["gap_flag" :=
                PBool (bool_decide (date_start date_info = None)
                       || bool_decide (date_end date_info = None))]>
            (<["date_precision" := PStr (date_precision date_info)]>
             (<["date_end" := Py.of_option (date_end date_info)]>
              (<["date_start" := Py.of_option (date_start date_info)]>
               props))))
    | _ => Raise AttributeError
    end
  else
    Ok (<["gap_flag" := PBool true]>
        (<["date_precision" := PStr "unknown"]>
         (<["date_end" := PNone]> (<["date_start" := PNone]> props)))).

(** [clear_database]: [MATCH (n) DETACH DELETE n] *)
Definition clear_database (g : Graph) : Graph := Cypher.empty.

(** [sorted(entities, key=...)]: a stable sort on the label rank. *)
Definition label_order (l : string) : nat :=
  if String.eqb l "GPE" then 1
  else if String.eqb l "Organization" then 2
  else if String.eqb l "Person" then 3
  else 999.

Fixpoint insert_by {A} (key : A -> nat) (x : A) (l : list A) : list A :=
  match l with
  | [] => [x]
  | y :: l' => if (key y <=? key x)%nat then y :: insert_by key x l'
               else x :: l
  end.

Definition sorted_by {A} (key : A -> nat) (l : list A) : list A :=
  foldl (fun acc x => insert_by key x acc) [] l.

(** The relationships of pass 1 that start at the entity itself. *)
Definition specific_relation (entity_id rel_type : string) (g : Graph)
    (target_id : string) : Graph :=
  if String.eqb rel_type "LOCATED_IN" then
    merge_rels "LOCATED_IN"
      (match_nodes None "id" (PStr entity_id) g)
      (match_nodes (Some "GPE") "id" (PStr target_id) g) g
  else if String.eqb rel_type "IS_PART_OF" then
    merge_rels "IS_PART_OF"
      (match_nodes None "id" (PStr entity_id) g)
      (match_nodes (Some "Organization") "id" (PStr target_id) g) g
  else if String.eqb rel_type "WORKED_FOR" then
    merge_rels "WORKED_FOR"
      (match_nodes (Some "Person") "id" (PStr entity_id) g)
      (match_nodes (Some "Organization") "id" (PStr target_id) g) g
  else g.

(** [MATCH (x ...) MATCH (target {id: $ref_id}) MERGE (x)-[:REFERENCES]->(target)] *)
Definition reference (srcs : Graph -> list nat) (g : Graph)
    (ref_id : string) : Graph :=
  merge_rels "REFERENCES" (srcs g) (match_nodes None "id" (PStr ref_id) g) g.

(** Label and ownership relationship of each structure kind. *)
Definition structure_kind (struct_type : string) : option (string * string) :=
  if String.eqb struct_type "occupations" then
    Some ("Occupation", "HAS_OCCUPATION")
  else if String.eqb struct_type "names" then Some ("Name", "HAS_NAME")
  else if String.eqb struct_type "origins" then Some ("Origin", "HAS_ORIGIN")
  else if String.eqb struct_type "family_relations" then
    Some ("FamilyRelation", "HAS_FAMILY_REL")
  else if String.eqb struct_type "professional_relations" then
    Some ("ProfessionalRelation", "HAS_PROF_REL")
  else if String.eqb struct_type "residences" then
    Some ("Residence", "HAS_RESIDENCE")
  else None.

(** [_create_reified_structure_nodes_only]:
    [MATCH (p:Person {id}) CREATE (o:Kind) SET o = $properties,
     o.rid = $rid MERGE (p)-[:HAS_...]->(o)], one new node per matched
    person. *)
Definition _create_reified_structure_nodes_only (entity_id struct_type : string)
    (g : Graph) (item : StructureItem) : Graph :=
  match structure_kind struct_type with
  | Some (kind, owns) =>
      let props :=
        set_plus {[ "rid" := rid item ]} (set_all (item_properties item)) in
      foldl (fun g p =>
               let '(g', o) := create_node kind props g in
               merge_rel owns g' (p, o))
            g (match_nodes (Some "Person") "id" (PStr entity_id) g)
  | None => g
  end.

(** [MATCH (s:Kind {rid: $rid}) MATCH (t:Label {id: $target})
     MERGE (s)-[:TYPE]->(t)], sent when the target property is truthy. *)
Definition structure_link (kind : string) (item : StructureItem)
    (field : string) (target_label : option string) (ty : string)
    (g : Graph) : Graph :=
  let target := default PNone (item_properties item !! field) in
  if Py.truthy target then
    merge_rels ty
      (match_nodes (Some kind) "rid" (rid item) g)
      (match_nodes target_label "id" target g) g
  else g.

(** [_create_reified_structure_relations] *)
Definition _create_reified_structure_relations (entity_id struct_type : string)
    (g : Graph) (item : StructureItem) : Graph :=
  if String.eqb struct_type "occupations" then
    structure_link "Occupation" item "place" (Some "GPE") "AT_PLACE"
      (structure_link "Occupation" item "organization" (Some "Organization")
         "AT_ORGANIZATION" g)
  else if String.eqb struct_type "origins" then
    structure_link "Origin" item "place" (Some "GPE") "AT_PLACE" g
  else if String.eqb struct_type "family_relations" then
    structure_link "FamilyRelation" item "target" (Some "Person")
      "RELATES_TO" g
  else if String.eqb struct_type "professional_relations" then
    structure_link "ProfessionalRelation" item "organization_context"
      (Some "Organization") "IN_CONTEXT_OF"
      (structure_link "ProfessionalRelation" item "target" None
         "RELATES_TO" g)
  else if String.eqb struct_type "residences" then
    structure_link "Residence" item "place" (Some "GPE") "AT_PLACE" g
  else g.

(** Runs [f] on every item of every structure list of an entity. *)
Definition for_structures
    (f : string -> string -> Graph -> StructureItem -> Graph)
    (entity : EntityRecord) (g : Graph) : Graph :=
  foldl (fun g '(struct_name, items) =>
           foldl (f (entity_id entity) struct_name) g items)
        g (structures entity).

(** Pass 1 for one entity. *)
Definition entity_pass1 (g : Graph) (entity : EntityRecord) : Graph :=
  let g := merge_set (label entity) "id" (entity_id entity)
             (entity_properties entity) g in
  let g := foldl (fun g '(rel_type, targets) =>
                    foldl (specific_relation (entity_id entity) rel_type)
                      g targets)
                 g (specific_relations entity) in
  let g := foldl (reference
                    (match_nodes None "id" (PStr (entity_id entity))))
                 g (elements (generic_references entity)) in
  for_structures _create_reified_structure_nodes_only entity g.

(** Pass 2 for one entity. *)
Definition entity_pass2 (g : Graph) (entity : EntityRecord) : Graph :=
  for_structures _create_reified_structure_relations entity g.

Definition import_entities (entities : list EntityRecord) (g : Graph)
  : Graph :=
  let entities_sorted :=
    sorted_by (fun e => label_order (label e)) entities in
  foldl entity_pass2 (foldl entity_pass1 g entities_sorted) entities_sorted.

Definition import_documents (documents : list DocumentRecord) (g : Graph)
  : Graph :=
  foldl (fun g doc =>
           let g := merge_set "ArchiveDocument" "id" (document_id doc)
                      (document_properties doc) g in
           foldl (reference
                    (match_nodes (Some "ArchiveDocument") "id"
                       (PStr (document_id doc))))
                 g (elements (document_references doc)))
        g documents.

(** The assertion query: for every pair of a claimed node and a
    document, [MERGE (a:Assertion {assertion_id}) SET a += props
    MERGE (d)-[:SUPPORTS]->(a) MERGE (a)-[:CLAIMS]->(x)]. *)
Definition commit_assertion (claimed : Graph -> list nat) (a : Assertion)
    (g : Graph) : Graph :=
  foldl (fun g '(x, d) =>
           let '(g, ids) := merge_node "Assertion" "assertion_id"
                              (assertion_id a) g in
           let g := update_nodes ids (set_plus (assertion_properties a)) g in
           let g := foldl (fun g i => merge_rel "SUPPORTS" g (d, i)) g ids in
           foldl (fun g i => merge_rel "CLAIMS" g (i, x)) g ids)
        g (x ← claimed g;
           d ← match_nodes (Some "ArchiveDocument") "id" (PStr (doc_id a)) g;
           [(x, d)]).

(** [if props.get(k): MATCH ... MERGE ...] for a participant field;
    [rev] tells that the participant is the source. *)
Definition participant (props : gmap string pyval) (field : string)
    (self : Graph -> list nat) (target_label : option string)
    (ty : string) (rev : bool) (g : Graph) : Graph :=
  let v := default PNone (props !! field) in
  if Py.truthy v then
    let others := match_nodes target_label "id" v g in
    if rev then merge_rels ty others (self g) g
    else merge_rels ty (self g) others g
  else g.

Definition import_event (g : Graph) (event : EventRecord) : result Graph :=
  props ← commit_dates (event_properties event);
  let self := match_nodes (Some "Event") "event_id" (PStr (event_id event)) in
  let g := merge_set "Event" "event_id" (event_id event) props g in
  let g := commit_assertion self (event_assertion event) g in
  let g := participant props "victim_id" self (Some "Person")
             "WAS_VICTIM_OF" true g in
  let g :=
    if Cypher.eq (default PNone (props !! "agent_id"))
         (PStr "UNKNOWN_AUTHORITY")
    then g
    else participant props "agent_id" self None "ACTED_AS_AGENT" true g in
  let g := participant props "place_id" self (Some "GPE")
             "OCCURRED_AT" false g in
  Ok (foldl (reference self) g (elements (event_references event))).

(** A [for] loop over records that stops at the first exception. *)
Fixpoint for_each {A} (f : Graph -> A -> result Graph) (g : Graph)
    (xs : list A) : result Graph :=
  match xs with
  | [] => Ok g
  | x :: xs' => g' ← f g x; for_each f g' xs'
  end.

Definition import_events (events : list EventRecord) (g : Graph)
  : result Graph :=
  for_each import_event g events.

(** [resolve_entity]: is there a Person, or else an Organization, with
    this id? *)
Definition resolve_entity (entity_id : pyval) (g : Graph) : bool :=
  negb (Nat.eqb (length (match_nodes (Some "Person") "id" entity_id g)) 0)
  || negb (Nat.eqb
             (length (match_nodes (Some "Organization") "id" entity_id g)) 0).

(** [MATCH (a) WHERE a.id = $id AND (a:Person OR a:Organization)] *)
Definition person_or_org (entity_id : pyval) (g : Graph) : list nat :=
  positions (fun n => Cypher.eq (prop "id" n) entity_id
                      && (String.eqb (node_label n) "Person"
                          || String.eqb (node_label n) "Organization"))
    0 (nodes g).

Definition create_microaction_relations (micro_id : string)
    (actor_id recipient_id : pyval) (g : Graph) : Graph :=
  let self := match_nodes (Some "MicroAction") "micro_id" (PStr micro_id) in
  let g :=
    if Py.truthy actor_id && resolve_entity actor_id g
    then merge_rels "PERFORMED" (person_or_org actor_id g) (self g) g
    else g in
  if Py.truthy recipient_id && resolve_entity recipient_id g
  then merge_rels "RECEIVED" (self g) (person_or_org recipient_id g) g
  else g.

Definition import_microaction (g : Graph) (micro : MicroActionRecord)
  : result Graph :=
  props ← commit_dates (micro_properties micro);
  let self := match_nodes (Some "MicroAction") "micro_id"
                (PStr (micro_id micro)) in
  let g := merge_set "MicroAction" "micro_id" (micro_id micro) props g in
  let g := commit_assertion self (micro_assertion micro) g in
  let g := create_microaction_relations (micro_id micro)
             (default PNone (props !! "actor_id"))
             (default PNone (props !! "recipient_id")) g in
  let g := participant props "about_id" self (Some "Person")
             "CONCERNS" false g in
  Ok (foldl (reference self) g (elements (micro_references micro))).

Definition import_microactions (microactions : list MicroActionRecord)
    (g : Graph) : result Graph :=
  for_each import_microaction g microactions.

End MasterImport.

(* ===================================================================== *)
(** * relation_calculator.py                                              *)
(* ===================================================================== *)

Module RelationCalculator.
Import PyStr Cypher.

Section WithBackend.
(** [date(s)] of the backend as a day number; [None] when the backend
    rejects the text. *)
Variable cypher_date : string -> option Z.
(** [datetime(s).epochSeconds]; [None] when the text is rejected. *)
Variable cypher_epoch : string -> option Z.

Definition date_of (v : pyval) : result Z :=
  match v with
  | PStr s => match cypher_date s with
              | Some d => Ok d
              | None => Raise CypherError
              end
  | _ => Raise CypherError
  end.

Definition epoch_of (v : pyval) : result Z :=
  match v with
  | PStr s => match cypher_epoch s with
              | Some d => Ok d
              | None => Raise CypherError
              end
  | _ => Raise CypherError
  end.

(** [toLower(x.link_type) CONTAINS 'replies_to' OR ... CONTAINS
    'acknowledges_receipt']; null gives null, which [WHERE] drops. *)
Definition flagged_reply (n : Node) : result bool :=
  match prop "link_type" n with
  | PStr s =>
      Ok (contains "replies_to" (lower s)
          || contains "acknowledges_receipt" (lower s))
  | PNone => Ok false
  | _ => Raise CypherError
  end.

Definition is_micro (n : Node) : bool := String.eqb (node_label n) "MicroAction".
Definition is_event (n : Node) : bool := String.eqb (node_label n) "Event".
Definition is_person (n : Node) : bool := String.eqb (node_label n) "Person".

(** The first [MATCH ... WHERE] of [calculate_replies_to] for one
    node. *)
Definition reply_row (g : Graph) (i : nat) (n : Node) : result bool :=
  if is_micro n then
    flag ← flagged_reply n;
    Ok (flag && not_null (prop "actor_id" n)
        && not_null (prop "recipient_id" n)
        && not_null (prop "date_start" n)
        && negb (has_out "REPLIES_TO" i g))
  else Ok false.

(** The elements of [l], with their positions from [i] on, that pass a
    test which may fail; paired with what the test computed. *)
Fixpoint select {A B} (p : nat -> A -> result (option B)) (i : nat)
    (l : list A) : result (list (nat * B)) :=
  match l with
  | [] => Ok []
  | x :: l' =>
      o ← p i x;
      rest ← select p (S i) l';
      Ok match o with
         | Some b => (i, b) :: rest
         | None => rest
         end
  end.

(** The [WHERE] of the subquery: the date of [original] when it
    qualifies for [reply]. *)
Definition original_row (reply : Node) (i : nat) (original : Node)
  : result (option Z) :=
  if is_micro original
     && Cypher.eq (prop "actor_id" original) (prop "recipient_id" reply)
     && Cypher.eq (prop "recipient_id" original) (prop "actor_id" reply)
     && not_null (prop "date_start" original)
  then
    d_original ← date_of (prop "date_start" original);
    d_reply ← date_of (prop "date_start" reply);
    Ok (if (d_original <? d_reply)%Z then Some d_original else None)
  else Ok None.

Definition candidates (g : Graph) (reply : Node) : result (list (nat * Z)) :=
  select (original_row reply) 0 (nodes g).

(** [ORDER BY date(original.date_start) DESC]: a stable sort. *)
Fixpoint insert_desc (x : nat * Z) (l : list (nat * Z)) : list (nat * Z) :=
  match l with
  | [] => [x]
  | y :: l' => if (x.2 <=? y.2)%Z then y :: insert_desc x l' else x :: l
  end.

Definition order_desc (l : list (nat * Z)) : list (nat * Z) :=
  foldl (fun acc x => insert_desc x acc) [] l.

(** The subquery with its [LIMIT 1]. *)
Definition latest_original (g : Graph) (reply : Node) : result (option nat) :=
  cs ← candidates g reply;
  Ok (fst <$> head (order_desc cs)).

Definition COMPUTED : gmap string pyval := {[ "computed" := PBool true ]}.

(** One reply row: the subquery, [WHERE original IS NOT NULL], then
    [MERGE (reply)-[r:REPLIES_TO]->(original) SET r.computed = true]. *)
Definition link_reply (acc : result (Graph * nat)) (row : nat * Node)
  : result (Graph * nat) :=
  '(g', created) ← acc;
  original ← latest_original g' row.2;
  Ok match original with
     | Some o =>
         (merge_rel_set "REPLIES_TO" COMPUTED g' (row.1, o), S created)
     | None => (g', created)
     end.

(** [calculate_replies_to]: the graph after the query and the number
    it returns. *)
Definition calculate_replies_to (g : Graph) : result (Graph * nat) :=
  replies ← select (fun (i : nat) (n : Node) =>
                      b ← reply_row g i n;
                      Ok (if b : bool then Some n else None))
               0 (nodes g);
  foldl link_reply (Ok (g, 0)) replies.

Definition str_lt (a b : pyval) : bool :=
  match a, b with
  | PStr x, PStr y => String.ltb x y
  | _, _ => false
  end.

(** [EXISTS { MATCH (a)-[:CONCERNS|REFERENCES]->(p:Person)
              MATCH (b)-[:CONCERNS|REFERENCES]->(p) }] *)
Definition share_person (g : Graph) (a b : nat) : bool :=
  existsb (fun '(p, n) =>
             is_person n
             && linked ["CONCERNS"; "REFERENCES"] a p g
             && linked ["CONCERNS"; "REFERENCES"] b p g)
    (imap (fun p n => (p, n)) (nodes g)).

Definition indexed (g : Graph) : list (nat * Node) :=
  imap (fun i n => (i, n)) (nodes g).

(** Runs a row test over all ordered pairs of nodes. *)
Definition pairs_where (g : Graph)
    (p : nat * Node -> nat * Node -> result (option (gmap string pyval)))
  : result (list (nat * nat * gmap string pyval)) :=
  foldr (fun '(a, b) acc =>
           rest ← acc;
           o ← p a b;
           Ok match o with
              | Some props => (a.1, b.1, props) :: rest
              | None => rest
              end)
        (Ok []) (a ← indexed g; b ← indexed g; [(a, b)]).

(** [MERGE (a)-[r:TYPE]->(b) SET r += props] for every row, and the
    row count. *)
Definition merge_rows (ty : string) (g : Graph)
    (rows : list (nat * nat * gmap string pyval)) : Graph * nat :=
  (foldl (fun g '(a, b, props) => merge_rel_set ty props g (a, b)) g rows,
   length rows).

(** [calculate_next_in_chain]: the rows pair a later action [m1] with
    an earlier one [m2]; the edge goes from [m2] to [m1]. *)
Definition calculate_next_in_chain (max_days : Z) (g : Graph)
  : result (Graph * nat) :=
  rows ← pairs_where g (fun '(i1, m1) '(i2, m2) =>
    if is_micro m1 && is_micro m2
       && Cypher.eq (prop "actor_id" m1) (prop "actor_id" m2)
       && Cypher.eq (prop "recipient_id" m1) (prop "recipient_id" m2)
       && not_null (prop "date_start" m1)
       && not_null (prop "date_start" m2)
       && str_lt (prop "date_start" m2) (prop "date_start" m1)
    then
      epoch1 ← epoch_of (prop "date_start" m1);
      epoch2 ← epoch_of (prop "date_start" m2);
      let days_diff := ((epoch1 - epoch2) ÷ 86400)%Z in
      Ok (if (days_diff <=? max_days)%Z
             && share_person g i1 i2
             && negb (existsb (fun '(i3, m3) =>
                        is_micro m3
                        && Cypher.eq (prop "actor_id" m3) (prop "actor_id" m1)
                        && Cypher.eq (prop "recipient_id" m3)
                             (prop "recipient_id" m1)
                        && str_lt (prop "date_start" m2) (prop "date_start" m3)
                        && str_lt (prop "date_start" m3) (prop "date_start" m1)
                        && share_person g i3 i1)
                      (indexed g))
          then Some (<["days_diff" := PInt days_diff]> COMPUTED)
          else None)
    else Ok None);
  Ok (merge_rows "NEXT_IN_COMMUNICATION_CHAIN" g
        ((fun '(i1, i2, props) => (i2, i1, props)) <$> rows)).

(** [coalesce(x.date_end, x.date_start)] *)
Definition end_or_start (n : Node) : pyval :=
  if not_null (prop "date_end" n) then prop "date_end" n
  else prop "date_start" n.

Definition calculate_acted_in_context (g : Graph) : result (Graph * nat) :=
  rows ← pairs_where g (fun '(im, m) '(ie, e) =>
    if is_micro m && is_event e
       && existsb (fun '(ip, p) =>
                     is_person p
                     && linked ["CONCERNS"; "REFERENCES"] im ip g
                     && Cypher.eq (prop "victim_id" e) (prop "id" p))
            (indexed g)
       && not_null (prop "date_start" m)
       && not_null (prop "date_start" e)
    then
      m_start ← date_of (prop "date_start" m);
      m_end ← date_of (end_or_start m);
      e_start ← date_of (prop "date_start" e);
      e_end ← date_of (end_or_start e);
      Ok (if (m_start <=? e_end)%Z && (e_start <=? m_end)%Z
          then Some COMPUTED else None)
    else Ok None);
  Ok (merge_rows "ACTED_IN_CONTEXT_OF" g rows).

Definition calculate_case_timeline (g : Graph) : result (Graph * nat) :=
  rows ← pairs_where g (fun '(i1, e1) '(i2, e2) =>
    Ok (if is_event e1 && is_event e2
           && Cypher.eq (prop "victim_id" e1) (prop "victim_id" e2)
           && not_null (prop "victim_id" e1)
           && not_null (prop "date_start" e1)
           && not_null (prop "date_start" e2)
           && str_lt (prop "date_start" e1) (prop "date_start" e2)
           && negb (existsb (fun '(i3, e3) =>
                      is_event e3
                      && Cypher.eq (prop "victim_id" e3) (prop "victim_id" e1)
                      && str_lt (prop "date_start" e1) (prop "date_start" e3)
                      && str_lt (prop "date_start" e3) (prop "date_start" e2))
                    (indexed g))
        then Some COMPUTED else None));
  Ok (merge_rows "FOLLOWS_IN_CASE" g rows).

End WithBackend.
End RelationCalculator.

(* ===================================================================== *)
(** * The import run of [main]                                            *)
(* ===================================================================== *)

(** What the four parsers hand to the projector. *)
Record Batches : Type := {
  entities : list EntityRecord;
  documents : list DocumentRecord;
  events : list EventRecord;
  microactions : list MicroActionRecord
}.

Module Main.
Import Cypher MasterImport.

(** Phase 3.5: [MATCH (source)-[r:REFERENCES]->(target)
    WHERE r.entity_prefLabel IS NULL SET r.entity_prefLabel =
    target.prefLabel_fr, r.entity_type = labels(target)[0]]. *)
Definition enrich_references (g : Graph) : Graph :=
  {| nodes := nodes g;
     rels :=
       (fun r =>
          match nodes g !! rel_dst r with
          | Some target =>
              if String.eqb (rel_type r) "REFERENCES"
                 && negb (not_null
                            (default PNone (rel_props r !! "entity_prefLabel")))
              then {| rel_src := rel_src r; rel_type := rel_type r;
                      rel_dst := rel_dst r;
                      rel_props :=
                        set_plus
                          (<["entity_type" := PStr (node_label target)]>
                             {[ "entity_prefLabel" := prop "prefLabel_fr" target ]})
                          (rel_props r) |}
              else r
          | None => r
          end) <$> rels g |}.

Section WithBackend.
Variable cypher_date : string -> option Z.
Variable cypher_epoch : string -> option Z.

(** Phase 2.5; the window of the chain rule is the default of
    [RelationCalculator.__init__]. *)
Definition calculated_relations (g : Graph) : result Graph :=
  '(g, _) ← RelationCalculator.calculate_replies_to cypher_date g;
  '(g, _) ← RelationCalculator.calculate_next_in_chain cypher_epoch 14 g;
  '(g, _) ← RelationCalculator.calculate_acted_in_context cypher_date g;
  '(g, _) ← RelationCalculator.calculate_case_timeline g;
  Ok g.

(** Phase 2 of [main] and what follows it, on the database [g] found
    at connection time. *)
Definition run_import (calculated_relations_enable write_detailed_report : bool)
    (input : Batches) (g : Graph) : result Graph :=
  let g := clear_database g in
  let g := import_entities (entities input) g in
  let g := import_documents (documents input) g in
  g ← import_events (events input) g;
  g ← import_microactions (microactions input) g;
  g ← (if calculated_relations_enable then calculated_relations g else Ok g);
  Ok (if write_detailed_report then enrich_references g else g).

End WithBackend.
End Main.

(* ===================================================================== *)
(** * Vocabulary of the statements                                        *)
(* ===================================================================== *)

Global Instance exn_eq_dec : EqDecision exn.
Proof. solve_decision. Defined.

Global Instance result_eq_dec {A} `{EqDecision A} : EqDecision (result A).
Proof. solve_decision. Defined.

Module Spec.
Import PyStr.

(** Every character of [s] satisfies [p]. *)
Fixpoint all_chars (p : ascii -> bool) (s : string) : bool :=
  match s with
  | EmptyString => true
  | String c s' => p c && all_chars p s'
  end.

(** The Gregorian calendar: length of month [m] of year [y]. *)
Definition leap (y : Z) : bool :=
  bool_decide (y mod 4 = 0 ∧ (y mod 100 ≠ 0 ∨ y mod 400 = 0))%Z.

Definition days_in_month (y m : Z) : Z :=
  if (m =? 2)%Z then (if leap y then 29 else 28)%Z
  else if bool_decide (m ∈ [4; 6; 9; 11]%Z) then 30%Z else 31%Z.

(** The text [s] is exactly the token sequence [ts]. *)
Definition exactly (ts : list Regex.tok) (s : string) : Prop :=
  Regex.match_toks ts s = Some EmptyString.

(** The characters of a date token: digits and the dash. *)
Definition date_char (c : ascii) : bool := is_digit c || Ascii.eqb c "-".

(** Decimal value of a run of digits. *)
Definition value (s : string) : Z := default 0%Z (digits_value 0 s).

(** The strict grammar of an entity id: [/id/], one of the four types,
    a slash, then 36 characters that are hexadecimal digits or dashes,
    and nothing after them. *)
Definition strict_id (s : string) : Prop :=
  exists ty u,
    ty ∈ ["person"; "org"; "gpe"; "place"]
    /\ String.length u = 36
    /\ all_chars is_hex_dash u = true
    /\ s = "/id/" +:+ ty +:+ "/" +:+ u.

(** The nodes that carry [lbl] in [g'] were in [g] already, at the same
    place and with the same properties. *)
Definition keeps (lbl : string) (g g' : Graph) : Prop :=
  forall i n, nodes g' !! i = Some n -> node_label n = lbl ->
              nodes g !! i = Some n.


(** The accumulator holds [e] among the targets of relation [k]. *)
Definition has_target (k e : string) (a : EntityParser.Acc) : Prop :=
  exists ts,
    EntityParser.alist_get k (EntityParser.acc_relations a) = Some ts
    /\ e ∈ ts.



(** Whenever [m] returns a value, the value satisfies [P]. *)
Definition post {A} (m : EntityParser.M A) (P : A -> Prop) : Prop :=
  forall w a w', m w = (Ok a, w') -> P a.

(** How often the base id [b] was met before. *)
Definition occurrences (b : string) (seen : list string) : nat :=
  length (filter (eq b) seen).

(** The ids that a run hands out, from the base ids met so far: the
    bare hash the first time, the hash with the number of earlier
    occurrences afterwards. *)
Fixpoint expected_ids (sha1_hex : string -> string) (seen : list string)
    (paths : list (list string)) : list string :=
  match paths with
  | [] => []
  | p :: ps =>
      let b := DocumentParser.base_id sha1_hex p in
      match occurrences b seen with
      | O => b
      | S n => b +:+ "::" +:+ pretty (S n)
      end :: expected_ids sha1_hex (b :: seen) ps
  end.

(** The index records, for every base id, one less than the number of
    times it was met. *)
Definition tracks (index : gmap string (nat * string)) (seen : list string)
  : Prop :=
  forall b, fst <$> index !! b
            = match occurrences b seen with
              | O => None
              | S n => Some n
              end.

(** The triple that the commit-time parser stores. *)
Definition commit_triple (s : string) : EDTFParser.triple :=
  let info := MasterImport.parse_edtf_date s in
  (date_start info, date_end info, date_precision info).

(** The [REPLIES_TO] edges that leave node [r]. *)
Definition replies_from (r : nat) (g : Graph) : list Rel :=
  List.filter (fun e => Nat.eqb (rel_src e) r
                        && String.eqb (rel_type e) "REPLIES_TO") (rels g).

(** What the import leaves on a micro-action: a link type that is text
    or null, and a start date that is null or text that the backend
    reads as a date. *)
Definition readable (cypher_date : string -> option Z) (n : Node) : bool :=
  match Cypher.prop "link_type" n with
  | PStr _ | PNone => true
  | _ => false
  end
  && match Cypher.prop "date_start" n with
     | PNone => true
     | PStr s => bool_decide (is_Some (cypher_date s))
     | _ => false
     end.

Definition well_stored (cypher_date : string -> option Z) (g : Graph)
  : bool :=
  forallb (fun n => negb (RelationCalculator.is_micro n)
                    || readable cypher_date n) (nodes g).

(** The characters of a closed interval of date tokens. *)
Definition interval_char (c : ascii) : bool := date_char c || Ascii.eqb c "/".

(** The characters of the body [id/<type>/<36 characters>]. *)
Definition body_char (c : ascii) : bool := negb (mem c "[]|").

(** The first row is one with the greatest date. *)
Definition head_is_max (l : list (nat * Z)) : Prop :=
  match l with
  | [] => True
  | y :: _ => forall z, z ∈ l -> (z.2 <= y.2)%Z
  end.

End Spec.

(* ===================================================================== *)
(** * Sample inputs                                                       *)
(* ===================================================================== *)

(** An event dated by a closed interval of full dates. *)
Definition sample_event : EventRecord :=
  {| event_id := "/id/event/e1";
     event_properties :=
       {[ "event_id" := PStr "/id/event/e1";
          "date_edtf" := PStr "1942-03-29/1942-04-27" ]};
     event_assertion :=
       {| assertion_id := "/id/event/e1::assertion";
          doc_id := "/id/document/d1";
          assertion_properties := {[ "type" := PStr "EVENT_ASSERTION" ]} |};
     event_references := ∅ |}.

(** An organization note with a specific link and two links in its body. *)
Module Samples.






End Samples.

Module BrokenNote.

(** A note whose front matter opens a flow sequence and never closes
    it. *)
Definition text : string :=
  "---
id: [unclosed
---
Body of the note.
".

Definition block : string :=
  "
id: [unclosed
".

(** A loader that rejects this block, as the YAML parser does, and loads
    nothing else. *)
Definition loader (s : string) : result pyval :=
  if String.eqb s block then Raise YAMLError else Ok PNone.

Definition path : list string := ["vault"; "id"; "person"; "broken.md"].

End BrokenNote.

(** A note whose front matter holds a date that does not exist: the
    loader builds a [datetime.date] from the plain scalar, and the
    [ValueError] of the constructor leaves [yaml.safe_load]. *)
Module ImpossibleDate.

Definition text : string :=
  "---
date: 1942-02-30
---
Body of the note.
".

Definition block : string :=
  "
date: 1942-02-30
".

Definition loader (s : string) : result pyval :=
  if String.eqb s block
  then Raise (ValueError "day is out of range for month")
  else Ok PNone.

End ImpossibleDate.

(** A register of one person who holds one occupation. *)
Module Register.
Definition clerk : string := "/id/person/clerk".

Definition post : StructureItem :=
  {| rid := PStr "OCC-1"; target_id := None;
     item_properties := {[ "type_activity" := PStr "clerk" ]} |}.

Definition person : EntityRecord :=
  {| label := "Person"; entity_id := clerk;
     entity_properties := {[ "id" := PStr clerk ]};
     structures := [("occupations", [post])];
     specific_relations := [];
     generic_references := ∅ |}.

Definition batch : list EntityRecord := [person].

Definition once : Graph := MasterImport.import_entities batch Cypher.empty.
Definition twice : Graph := MasterImport.import_entities batch once.
End Register.

(** The exchange of the specification: A writes to B on 10 January, B
    answers on 20 January, and an older letter of 1 January; all three
    refer to one person. *)
Module Letters.
(** The backend's [date] on ISO dates, as a number that keeps their
    order. *)
Definition day (s : string) : option Z :=
  PyStr.int (PyStr.remove_char "-" s).

Definition micro (id actor recipient date : string) (link : pyval) : Node :=
  {| node_label := "MicroAction";
     node_props :=
       Cypher.set_all
         (<["micro_id" := PStr id]>
            (<["actor_id" := PStr actor]>
               (<["recipient_id" := PStr recipient]>
                  (<["date_start" := PStr date]>
                     {[ "link_type" := link ]})))) |}.

Definition X : string := "/id/person/x".
Definition Y : string := "/id/person/y".

Definition A : Node := micro "/id/microaction/a" X Y "2020-01-10" PNone.
Definition B : Node :=
  micro "/id/microaction/b" Y X "2020-01-20" (PStr "replies_to").
Definition C : Node := micro "/id/microaction/c" X Y "2020-01-01" PNone.
Definition P : Node :=
  {| node_label := "Person"; node_props := {[ "id" := PStr "/id/person/p" ]} |}.

Definition refers (src : nat) : Rel :=
  {| rel_src := src; rel_type := "REFERENCES"; rel_dst := 3;
     rel_props := ∅ |}.

Definition graph : Graph :=
  {| nodes := [A; B; C; P]; rels := [refers 0; refers 1; refers 2] |}.

(** The backend's epoch seconds on ISO dates of one month. *)
Definition epoch (s : string) : option Z :=
  (fun d => d * 86400)%Z <$> day s.

(** The person [P] is the victim of an event on the day of letter [A]. *)
Definition arrest : Node :=
  {| node_label := "Event";
     node_props :=
       <["event_id" := PStr "/id/event/arrest"]>
         (<["victim_id" := PStr "/id/person/p"]>
            {[ "date_start" := PStr "2020-01-10" ]}) |}.

Definition context : Graph :=
  {| nodes := [A; B; C; P; arrest];
     rels := [refers 0; refers 1; refers 2] |}.

(** A second exchange, between two other correspondents: a reply whose
    date expression was free text, which the import stores as it is. *)
Definition V : string := "/id/person/v".
Definition W : string := "/id/person/w".

Definition D : Node := micro "/id/microaction/d" V W "2020-01-05" PNone.
Definition E : Node :=
  micro "/id/microaction/e" W V "early 2020" (PStr "replies_to").

Definition stalled : Graph :=
  {| nodes := [A; B; C; P; D; E]; rels := [refers 0; refers 1; refers 2] |}.
End Letters.

(** A block with one entity line and a description that links to the
    same person and to another one; the matcher of the key-value lines
    reads the two entity lines of the samples. *)
Module Blocks.
Definition suspect : string :=
  "/id/person/0c000000-0000-4000-8000-000000000003".
Definition witness : string :=
  "/id/person/0d000000-0000-4000-8000-000000000004".

Definition KV_RE_match (line : string) : option (string * string) :=
  if String.eqb line ("- victim: [[" +:+ suspect +:+ "]]")
  then Some ("victim", "[[" +:+ suspect +:+ "]]")
  else if String.eqb line ("- actor: [[" +:+ suspect +:+ "]]")
  then Some ("actor", "[[" +:+ suspect +:+ "]]")
  else if String.eqb line ("- description: see [[" +:+ suspect +:+ "]] and [["
                           +:+ witness +:+ "]]")
  then Some ("description",
             "see [[" +:+ suspect +:+ "]] and [[" +:+ witness +:+ "]]")
  else None.

Definition DESC_PATTERN_match (line : string) : bool :=
  String.eqb line "**Description:**".

Definition event_content : string :=
  "- victim: [[" +:+ suspect +:+ "]]" +:+ PyStr.nl
  +:+ "**Description:**" +:+ PyStr.nl
  +:+ "Arrest of [[" +:+ suspect +:+ "]], seen by [[" +:+ witness +:+ "]].".

Definition micro_content : string :=
  "- actor: [[" +:+ suspect +:+ "]]" +:+ PyStr.nl
  +:+ "- description: see [[" +:+ suspect +:+ "]] and [[" +:+ witness
  +:+ "]]".
End Blocks.

(** An event whose block gives no date. *)
Definition undated_event : EventRecord :=
  {| event_id := "/id/event/e2";
     event_properties := {[ "event_id" := PStr "/id/event/e2" ]};
     event_assertion :=
       {| assertion_id := "/id/event/e2::assertion";
          doc_id := "/id/document/d1";
          assertion_properties := {[ "type" := PStr "EVENT_ASSERTION" ]} |};
     event_references := ∅ |}.

(** Three events of one victim, stored out of order, and one event of
    another victim. *)
Module Cases.
Definition event (id victim date : string) : Node :=
  {| node_label := "Event";
     node_props :=
       <["event_id" := PStr id]>
         (<["victim_id" := PStr victim]> {[ "date_start" := PStr date ]}) |}.

Definition arrest : Node := event "/id/event/arrest" Letters.X "1942-03-29".
Definition trial : Node := event "/id/event/trial" Letters.X "1942-06-02".
Definition transfer : Node :=
  event "/id/event/transfer" Letters.X "1942-04-27".
Definition other : Node := event "/id/event/other" Letters.Y "1942-05-01".

Definition graph : Graph :=
  {| nodes := [arrest; trial; transfer; other]; rels := [] |}.
End Cases.

(* ===================================================================== *)
(** * Proof automation                                                    *)
(* ===================================================================== *)

(** Every token of the date patterns is a digit or the dash. *)
Ltac date_tokens :=
  repeat first [ apply List.Forall_nil
               | apply List.Forall_cons;
                 [(left; reflexivity) || (right; reflexivity)|] ].

(* ===================================================================== *)
(** * Facts about the string operations                                   *)
(* ===================================================================== *)

Section StringFacts.
Import PyStr Spec.

Lemma ascii_eqb_false (a b : ascii) : a <> b -> Ascii.eqb a b = false.
Proof. intros H. destruct (Ascii.eqb_spec a b); congruence. Qed.

Lemma mem_false_of_all (q : ascii -> bool) (x : ascii) (s : string) :
  all_chars q s = true -> q x = false -> mem x s = false.
Proof.
  induction s as [|c s IH]; simpl; [done|].
  intros [Hc Hs]%andb_true_iff Hx. rewrite IH by done.
  destruct (Ascii.eqb_spec x c); [congruence | done].
Qed.

Lemma all_chars_app (q : ascii -> bool) (s t : string) :
  all_chars q (s +:+ t) = all_chars q s && all_chars q t.
Proof. induction s as [|c s IH]; simpl; [done|]. by rewrite IH, andb_assoc. Qed.

Lemma all_chars_weaken (p q : ascii -> bool) (s : string) :
  (forall c, p c = true -> q c = true) ->
  all_chars p s = true -> all_chars q s = true.
Proof.
  intros Hpq. induction s as [|c s IH]; simpl; [done|].
  intros [Hc Hs]%andb_true_iff. by rewrite Hpq, IH.
Qed.

Lemma lstrip_by_id (p : ascii -> bool) (s : string) :
  all_chars (fun c => negb (p c)) s = true -> lstrip_by p s = s.
Proof.
  destruct s as [|c s]; simpl; [done|].
  intros [Hc _]%andb_true_iff. by destruct (p c).
Qed.

Lemma rstrip_by_id (p : ascii -> bool) (s : string) :
  all_chars (fun c => negb (p c)) s = true -> rstrip_by p s = s.
Proof.
  induction s as [|c s IH]; simpl; [done|].
  intros [Hc Hs]%andb_true_iff. rewrite IH by done.
  destruct s; [|done]. by destruct (p c).
Qed.

Lemma strip_by_id (p : ascii -> bool) (s : string) :
  all_chars (fun c => negb (p c)) s = true -> strip_by p s = s.
Proof. intros H. unfold strip_by. by rewrite rstrip_by_id, lstrip_by_id. Qed.

Lemma mem_app (x : ascii) (s t : string) :
  mem x (s +:+ t) = mem x s || mem x t.
Proof. induction s as [|c s IH]; simpl; [done|]. by rewrite IH, orb_assoc. Qed.

Lemma startswith_mem (x : ascii) (p s : string) :
  startswith (String x p) s = true -> mem x s = true.
Proof.
  destruct s as [|c s]; simpl; [done|].
  intros [Hc _]%andb_true_iff. apply Ascii.eqb_eq in Hc as ->.
  by rewrite Ascii.eqb_refl.
Qed.

Lemma endswith_mem (x : ascii) (p s : string) :
  endswith p s = true -> mem x p = true -> mem x s = true.
Proof.
  induction s as [|c s IH]; simpl.
  - rewrite orb_false_r. intros ->%String.eqb_eq. done.
  - intros [->%String.eqb_eq | H]%orb_true_iff Hx; [done|].
    rewrite IH by done. apply orb_true_r.
Qed.

Lemma split_char_none (sep : ascii) (s : string) :
  mem sep s = false -> split_char sep s = [s].
Proof.
  induction s as [|c s IH]; simpl; [done|].
  intros [Hc Hs]%orb_false_iff. rewrite IH by done.
  rewrite Ascii.eqb_sym in Hc. by rewrite Hc.
Qed.

Lemma split_char_app (sep : ascii) (s t : string) :
  mem sep s = false ->
  split_char sep (s +:+ String sep t) = s :: split_char sep t.
Proof.
  induction s as [|c s IH]; simpl.
  - by rewrite Ascii.eqb_refl.
  - intros [Hc Hs]%orb_false_iff. rewrite IH by done.
    rewrite Ascii.eqb_sym in Hc. by rewrite Hc.
Qed.

Lemma remove_char_none (x : ascii) (s : string) :
  mem x s = false -> remove_char x s = s.
Proof.
  induction s as [|c s IH]; simpl; [done|].
  intros [Hc Hs]%orb_false_iff. rewrite IH by done.
  rewrite Ascii.eqb_sym in Hc. by rewrite Hc.
Qed.

Lemma eqb_false_of_mem (x : ascii) (s t : string) :
  mem x s = false -> mem x t = true -> String.eqb s t = false.
Proof.
  intros Hs Ht. destruct (String.eqb_spec s t); [congruence | done].
Qed.

Lemma append_cons (c : ascii) (s t : string) :
  String c s +:+ t = String c (s +:+ t).
Proof. reflexivity. Qed.

Lemma append_assoc (s t u : string) : (s +:+ t) +:+ u = s +:+ t +:+ u.
Proof.
  induction s as [|c s IH]; [done|]. rewrite !append_cons. by f_equal.
Qed.

Lemma string_length_app (s t : string) :
  String.length (s +:+ t) = (String.length s + String.length t)%nat.
Proof. induction s as [|c s IH]; simpl; [done|]. by rewrite IH. Qed.

Lemma string_take_app (s t : string) : take (String.length s) (s +:+ t) = s.
Proof. induction s as [|c s IH]; simpl; [by destruct t|]. by rewrite IH. Qed.

Lemma string_drop_app (s t : string) : drop (String.length s) (s +:+ t) = t.
Proof. induction s as [|c s IH]; simpl; [done|]. done. Qed.

End StringFacts.

(* ===================================================================== *)
(** * Facts about the anchored patterns                                   *)
(* ===================================================================== *)

Section RegexFacts.
Import PyStr Regex Spec.

Lemma match_toks_split (ts : list tok) (s r : string) :
  match_toks ts s = Some r ->
  exists pre, s = pre +:+ r /\ String.length pre = length ts
              /\ match_toks ts pre = Some EmptyString.
Proof.
  revert s. induction ts as [|t ts IH]; intros s; simpl.
  - intros [= ->]. by exists EmptyString.
  - destruct s as [|c s]; [done|].
    destruct (tok_ok t c) eqn:Hc; [|done].
    intros (pre & -> & Hlen & Hpre)%IH.
    exists (String c pre). simpl. by rewrite Hc, Hlen.
Qed.

Lemma match_toks_length (ts : list tok) (s r : string) :
  match_toks ts s = Some r ->
  String.length s = (length ts + String.length r)%nat.
Proof.
  intros (pre & -> & Hlen & _)%match_toks_split.
  by rewrite string_length_app, Hlen.
Qed.

Lemma match_toks_all (q : ascii -> bool) (ts : list tok) (s : string) :
  Forall (fun t => forall c, tok_ok t c = true -> q c = true) ts ->
  match_toks ts s = Some EmptyString -> all_chars q s = true.
Proof.
  intros Hts. revert s. induction Hts as [|t ts Ht _ IH]; intros s; simpl.
  - by intros [= ->].
  - destruct s as [|c s]; [done|].
    destruct (tok_ok t c) eqn:Hc; [|done].
    intros H. simpl. by rewrite (Ht c Hc), IH.
Qed.

Lemma match_toks_app (ts us : list tok) (s t : string) :
  match_toks ts s = Some EmptyString ->
  match_toks (ts ++ us) (s +:+ t) = match_toks us t.
Proof.
  revert s. induction ts as [|x ts IH]; intros s; simpl.
  - by intros [= ->].
  - destruct s as [|c s]; [done|]. simpl.
    destruct (tok_ok x c); [|done]. apply IH.
Qed.

(** A text of another length than the pattern (and the pattern plus a
    line feed) does not match. *)
Lemma re_anchored_length (ts : list tok) (s : string) :
  re_anchored ts s = true ->
  String.length s = length ts \/ String.length s = S (length ts).
Proof.
  unfold re_anchored, at_end.
  destruct (match_toks ts s) as [r|] eqn:H; [|done].
  apply match_toks_length in H. rewrite H.
  intros [->%String.eqb_eq | ->%String.eqb_eq]%orb_true_iff; simpl; lia.
Qed.

Lemma re_anchored_exactly (ts : list tok) (s : string) :
  exactly ts s -> re_anchored ts s = true.
Proof. unfold exactly, re_anchored. by intros ->. Qed.

Lemma date_char_space (c : ascii) : date_char c = true -> is_space c = false.
Proof. destruct c as [[] [] [] [] [] [] [] []]; by vm_compute. Qed.

Lemma date_char_not (c : ascii) :
  date_char c = true -> mem c "~?/." = false.
Proof. destruct c as [[] [] [] [] [] [] [] []]; by vm_compute. Qed.

Lemma digit_not_dash (c : ascii) : is_digit c = true -> Ascii.eqb c "-" = false.
Proof. destruct c as [[] [] [] [] [] [] [] []]; by vm_compute. Qed.

Lemma date_tokens_chars (ts : list tok) (s : string) :
  Forall (fun t => t = D \/ t = L "-"%char) ts ->
  exactly ts s -> all_chars date_char s = true.
Proof.
  intros Hts. apply match_toks_all.
  eapply Forall_impl; [exact Hts|]. intros t [-> | ->] c; simpl; unfold date_char.
  - by intros ->.
  - intros ->. apply orb_true_r.
Qed.

(** What the normalizer needs to know about a text made of date
    characters. *)
Lemma date_text_facts (s : string) :
  all_chars date_char s = true ->
  strip s = s /\ rstrip_chars "~?" s = s /\ mem "/" s = false
  /\ mem "~" s = false /\ mem "?" s = false /\ mem "." s = false.
Proof.
  intros H. repeat split.
  - apply strip_by_id. eapply all_chars_weaken; [|exact H].
    intros c Hc. by rewrite (date_char_space c Hc).
  - apply rstrip_by_id. eapply all_chars_weaken; [|exact H].
    intros c Hc. apply date_char_not in Hc. simpl in *.
    destruct (Ascii.eqb c "~"), (Ascii.eqb c "?"); done.
  - apply (mem_false_of_all _ _ _ H). done.
  - apply (mem_false_of_all _ _ _ H). done.
  - apply (mem_false_of_all _ _ _ H). done.
  - apply (mem_false_of_all _ _ _ H). done.
Qed.

End RegexFacts.

(* ===================================================================== *)
(** * Properties of the date normalizer                                   *)
(* ===================================================================== *)

Section EDTFFacts.
Import PyStr Regex EDTFParser Spec.

Lemma isleap_leap (y : Z) : Calendar.isleap y = leap y.
Proof.
  unfold Calendar.isleap, leap.
  destruct (Z.eqb_spec (y mod 4) 0), (Z.eqb_spec (y mod 100) 0),
    (Z.eqb_spec (y mod 400) 0); simpl; symmetry;
    first [apply bool_decide_eq_true; tauto
          | apply bool_decide_eq_false; tauto].
Qed.

Lemma monthrange_days_spec (y m : Z) :
  (1 <= m <= 12)%Z ->
  Calendar.monthrange_days y m = Ok (days_in_month y m).
Proof.
  intros Hm. unfold Calendar.monthrange_days, days_in_month.
  rewrite isleap_leap.
  assert (m = 1 \/ m = 2 \/ m = 3 \/ m = 4 \/ m = 5 \/ m = 6 \/ m = 7
          \/ m = 8 \/ m = 9 \/ m = 10 \/ m = 11 \/ m = 12)%Z
    as Hcases by lia.
  repeat destruct Hcases as [-> | Hcases]; try subst m; simpl;
    try reflexivity; by destruct (leap y).
Qed.

Lemma digits_value_some (s : string) (acc : Z) :
  all_chars is_digit s = true -> is_Some (digits_value acc s).
Proof.
  revert acc. induction s as [|c s IH]; intros acc; simpl; [by eexists|].
  intros [-> Hs]%andb_true_iff. by apply IH.
Qed.

Lemma digits_date_char (s : string) :
  all_chars is_digit s = true -> all_chars date_char s = true.
Proof.
  apply all_chars_weaken. intros c Hc. unfold date_char. by rewrite Hc.
Qed.

Lemma int_digits (s : string) :
  all_chars is_digit s = true -> s <> EmptyString ->
  int s = Some (value s).
Proof.
  intros Hs Hne. unfold int, value.
  destruct (date_text_facts s (digits_date_char s Hs)) as (-> & _).
  destruct (digits_value_some s 0 Hs) as [v Hv]. rewrite Hv.
  by destruct s.
Qed.

Lemma exactly_digits (n : nat) (s : string) :
  exactly (repeat D n) s -> all_chars is_digit s = true /\ String.length s = n.
Proof.
  intros H. split.
  - apply (match_toks_all is_digit (repeat D n)); [|done].
    clear H. induction n; simpl; constructor; auto.
  - apply match_toks_length in H. rewrite H, List.repeat_length. simpl. lia.
Qed.

Lemma nonempty_of_length (s : string) (n : nat) :
  String.length s = S n -> truthy s = true /\ s <> EmptyString.
Proof. by destruct s. Qed.

Lemma mem_dash_digits (s : string) :
  all_chars is_digit s = true -> mem "-" s = false.
Proof.
  intros H. apply (mem_false_of_all _ _ _ H). done.
Qed.

Lemma re_anchored_wrong_length (ts : list tok) (s : string) :
  String.length s <> length ts -> String.length s <> S (length ts) ->
  re_anchored ts s = false.
Proof.
  intros H1 H2. destruct (re_anchored ts s) eqn:H; [|done].
  apply re_anchored_length in H. lia.
Qed.

(** A bare year. *)
Lemma normalize_year (s : string) (start : bool) :
  exactly YEAR s ->
  _normalize_single_date s start
  = Ok (Some (if start then s +:+ "-01-01" else s +:+ "-12-31")).
Proof.
  intros H. pose proof (exactly_digits 4 s H) as [Hd Hlen].
  destruct (nonempty_of_length _ _ Hlen) as [Ht _].
  destruct (date_text_facts s (digits_date_char s Hd)) as (_ & Hr & _).
  unfold _normalize_single_date. rewrite Ht, Hr. simpl.
  unfold re_year. by rewrite (re_anchored_exactly _ _ H).
Qed.

(** A full date passes through. *)
Lemma normalize_full (s : string) (start : bool) :
  exactly FULL s -> _normalize_single_date s start = Ok (Some s).
Proof.
  intros H.
  assert (all_chars date_char s = true) as Hc.
  { apply (date_tokens_chars FULL); [|done].
    cbv [FULL YEAR_MONTH YEAR app]. date_tokens. }
  pose proof (match_toks_length _ _ _ H) as Hlen. simpl in Hlen.
  destruct (nonempty_of_length _ _ Hlen) as [Ht _].
  destruct (date_text_facts s Hc) as (_ & Hr & _).
  unfold _normalize_single_date. rewrite Ht, Hr. simpl.
  unfold re_year, re_year_month, re_full.
  rewrite !re_anchored_wrong_length by (rewrite Hlen; simpl; lia).
  by rewrite (re_anchored_exactly _ _ H).
Qed.

Lemma exactly_year_month (y mo : string) :
  exactly YEAR y -> exactly [D; D] mo ->
  exactly YEAR_MONTH (y +:+ "-" +:+ mo).
Proof.
  intros Hy Hm. unfold exactly, YEAR_MONTH.
  rewrite (match_toks_app _ _ _ _ Hy). simpl. exact Hm.
Qed.

(** A year-month: day 1 at the start, the length of the month at the
    end. *)
Lemma normalize_year_month (y mo : string) (start : bool) :
  exactly YEAR y -> exactly [D; D] mo ->
  (1 <= value mo <= 12)%Z ->
  _normalize_single_date (y +:+ "-" +:+ mo) start
  = Ok (Some (y +:+ "-" +:+ mo +:+ "-"
              +:+ (if start then "01"
                   else fmt02 (days_in_month (value y) (value mo))))).
Proof.
  intros Hy Hm Hrange. set (s := y +:+ "-" +:+ mo).
  pose proof (exactly_year_month y mo Hy Hm) as Hs. fold s in Hs.
  pose proof (exactly_digits 4 y Hy) as [Hyd Hylen].
  pose proof (exactly_digits 2 mo Hm) as [Hmd Hmlen].
  assert (all_chars date_char s = true) as Hc.
  { apply (date_tokens_chars YEAR_MONTH); [|done].
    cbv [YEAR_MONTH YEAR app]. date_tokens. }
  pose proof (match_toks_length _ _ _ Hs) as Hlen. simpl in Hlen.
  destruct (nonempty_of_length _ _ Hlen) as [Ht _].
  destruct (date_text_facts s Hc) as (_ & Hr & _).
  unfold _normalize_single_date. rewrite Ht, Hr. simpl.
  unfold re_year, re_year_month.
  rewrite re_anchored_wrong_length by (rewrite Hlen; simpl; lia).
  rewrite (re_anchored_exactly _ _ Hs).
  unfold s at 1. change ("-" +:+ mo) with (String "-"%char mo).
  rewrite split_char_app by by apply mem_dash_digits.
  rewrite split_char_none by by apply mem_dash_digits.
  destruct start.
  - unfold s. by rewrite append_assoc.
  - rewrite !int_digits; try done.
    + rewrite monthrange_days_spec by done. simpl.
      unfold s. by rewrite append_assoc.
    + by destruct mo.
    + by destruct y.
Qed.

(** On a text made of date characters [parse] falls through to its
    last case. *)
Lemma parse_plain (s : string) :
  all_chars date_char s = true -> s <> EmptyString ->
  parse s =
    (date_start ← _normalize_single_date s true;
     date_end ← _normalize_single_date s false;
     Ok (date_start, date_end,
         if re_full s then "day"
         else if re_year_month s then "month"
         else if re_year s then "year" else "unknown")).
Proof.
  intros Hc Hne.
  destruct (date_text_facts s Hc) as (Hstrip & _ & Hslash & Htilde & Hq & Hdot).
  assert (startswith "../" s = false) as H1.
  { destruct (startswith "../" s) eqn:H; [|done].
    apply startswith_mem in H. congruence. }
  assert (forall p, mem "/" p || mem "~" p || mem "?" p = true ->
                    endswith p s = false) as Hends.
  { intros p Hp. destruct (endswith p s) eqn:H; [|done].
    apply orb_true_iff in Hp as [[Hp|Hp]%orb_true_iff|Hp];
      apply (endswith_mem _ _ _ H) in Hp; congruence. }
  assert (negb (truthy s) || String.eqb s "../.." = false) as H0.
  { rewrite (eqb_false_of_mem "." s "../..") by done. by destruct s. }
  unfold parse. rewrite H0, Hstrip, H1, !Hends, Hslash by done. done.
Qed.

End EDTFFacts.

Section EDTFClaims.
Import PyStr Regex EDTFParser Spec.

Lemma precision_year (y : string) :
  exactly YEAR y ->
  re_full y = false /\ re_year_month y = false /\ re_year y = true.
Proof.
  intros H. pose proof (match_toks_length _ _ _ H) as Hlen. simpl in Hlen.
  unfold re_full, re_year_month, re_year.
  rewrite !re_anchored_wrong_length by (rewrite Hlen; simpl; lia).
  by rewrite (re_anchored_exactly _ _ H).
Qed.

Lemma precision_year_month (s : string) :
  exactly YEAR_MONTH s -> re_full s = false /\ re_year_month s = true.
Proof.
  intros H. pose proof (match_toks_length _ _ _ H) as Hlen. simpl in Hlen.
  unfold re_full, re_year_month.
  rewrite re_anchored_wrong_length by (rewrite Hlen; simpl; lia).
  by rewrite (re_anchored_exactly _ _ H).
Qed.

Lemma date_chars_of (ts : list tok) (s : string) :
  ts = YEAR \/ ts = YEAR_MONTH \/ ts = FULL ->
  exactly ts s -> all_chars date_char s = true /\ s <> EmptyString.
Proof.
  intros Hts H. split.
  - apply (date_tokens_chars ts); [|done].
    destruct Hts as [-> | [-> | ->]];
      cbv [FULL YEAR_MONTH YEAR app];
      repeat first [ apply List.Forall_nil
                   | apply List.Forall_cons;
                     [(left; reflexivity) || (right; reflexivity)|] ].
  - apply match_toks_length in H.
    destruct Hts as [-> | [-> | ->]]; by destruct s.
Qed.

Lemma parse_year (y : string) :
  exactly YEAR y ->
  parse y = Ok (Some (y +:+ "-01-01"), Some (y +:+ "-12-31"), "year").
Proof.
  intros H. destruct (date_chars_of YEAR y) as [Hc Hne]; [tauto | done |].
  rewrite parse_plain by done.
  rewrite !normalize_year by done.
  destruct (precision_year y H) as (-> & -> & ->). done.
Qed.

Lemma parse_year_month (y mo : string) :
  exactly YEAR y -> exactly [D; D] mo -> (1 <= value mo <= 12)%Z ->
  parse (y +:+ "-" +:+ mo)
  = Ok (Some (y +:+ "-" +:+ mo +:+ "-01"),
        Some (y +:+ "-" +:+ mo +:+ "-"
                +:+ fmt02 (days_in_month (value y) (value mo))),
        "month").
Proof.
  intros Hy Hm Hr. pose proof (exactly_year_month y mo Hy Hm) as Hs.
  destruct (date_chars_of YEAR_MONTH _ (or_intror (or_introl eq_refl)) Hs)
    as [Hc Hne].
  rewrite parse_plain by done.
  rewrite !normalize_year_month by done.
  destruct (precision_year_month _ Hs) as (-> & ->). done.
Qed.

Lemma parse_full (d : string) :
  exactly FULL d -> parse d = Ok (Some d, Some d, "day").
Proof.
  intros H. destruct (date_chars_of FULL d) as [Hc Hne]; [tauto | done |].
  rewrite parse_plain by done. rewrite !normalize_full by done.
  unfold re_full. by rewrite (re_anchored_exactly _ _ H).
Qed.

Lemma interval_char_facts (c : ascii) :
  interval_char c = true -> is_space c = false /\ mem c "~?." = false.
Proof. destruct c as [[] [] [] [] [] [] [] []]; by vm_compute. Qed.

Lemma interval_chars (a b : string) :
  all_chars date_char a = true -> all_chars date_char b = true ->
  all_chars interval_char (a +:+ "/" +:+ b) = true.
Proof.
  intros Ha Hb. rewrite !all_chars_app.
  rewrite (all_chars_weaken date_char interval_char a), 
    (all_chars_weaken date_char interval_char b); try done;
    intros c Hc; unfold interval_char; by rewrite Hc.
Qed.

Lemma interval_text_facts (a b : string) :
  all_chars date_char a = true -> all_chars date_char b = true ->
  let s := a +:+ "/" +:+ b in
  strip s = s /\ mem "." s = false /\ mem "/" s = true
  /\ split_char "/" s = [a; b].
Proof.
  intros Ha Hb s. pose proof (interval_chars a b Ha Hb) as Hs. fold s in Hs.
  destruct (date_text_facts a Ha) as (_ & _ & Ha' & _).
  destruct (date_text_facts b Hb) as (_ & _ & Hb' & _).
  repeat split.
  - apply strip_by_id. eapply all_chars_weaken; [|exact Hs].
    intros c Hc. by destruct (interval_char_facts c Hc) as [-> _].
  - apply (mem_false_of_all _ _ _ Hs). done.
  - unfold s. rewrite mem_app.
    change ("/" +:+ b) with (String "/"%char b). simpl.
    apply orb_true_r.
  - unfold s. change ("/" +:+ b) with (String "/"%char b).
    rewrite split_char_app by done. by rewrite split_char_none.
Qed.

(** What [parse] does with a closed interval of date tokens: both sides
    go through [_normalize_single_date] with [start] set. *)
Lemma parse_interval_tokens (a b : string) :
  all_chars date_char a = true -> all_chars date_char b = true ->
  parse (a +:+ "/" +:+ b)
  = (date_start ← _normalize_single_date a true;
     date_end ← _normalize_single_date b true;
     Ok (date_start, date_end, "interval")).
Proof.
  intros Ha Hb. set (s := a +:+ "/" +:+ b).
  destruct (interval_text_facts a b Ha Hb) as (Hstrip & Hdot & Hslash & Hsplit).
  fold s in Hstrip, Hdot, Hslash, Hsplit.
  assert (startswith "../" s = false) as H1.
  { destruct (startswith "../" s) eqn:H; [|done].
    apply startswith_mem in H. congruence. }
  assert (endswith "/.." s = false) as H2.
  { destruct (endswith "/.." s) eqn:H; [|done].
    apply (endswith_mem ".") in H; [congruence | done]. }
  assert (negb (truthy s) || String.eqb s "../.." = false) as H0.
  { rewrite (eqb_false_of_mem "." s "../..") by done.
    unfold s. by destruct a. }
  unfold parse. by rewrite H0, Hstrip, H1, H2, Hslash, Hsplit.
Qed.

Lemma commit_full (d : string) :
  exactly FULL d -> commit_triple d = (Some d, Some d, "exact").
Proof.
  intros H. destruct (date_chars_of FULL d) as [Hc Hne]; [tauto | done |].
  destruct (date_text_facts d Hc) as (Hstrip & _ & Hslash & Htilde & Hq & Hdot).
  assert (negb (truthy d) || String.eqb d EmptyString = false) as H0.
  { by destruct d. }
  unfold commit_triple, MasterImport.parse_edtf_date.
  rewrite Hstrip, H0, Hslash, Htilde, Hq.
  by rewrite (eqb_false_of_mem "." d "..").
Qed.

Lemma interval_side_token (a : string) :
  all_chars date_char a = true -> a <> EmptyString ->
  MasterImport.interval_side a = Some a.
Proof.
  intros Ha Hne.
  destruct (date_text_facts a Ha) as (Hstrip & _ & _ & Htilde & Hq & Hdot).
  unfold MasterImport.interval_side.
  rewrite !remove_char_none, Hstrip by (by rewrite ?remove_char_none).
  rewrite (eqb_false_of_mem "." a "..") by done.
  by destruct a.
Qed.

Lemma commit_interval (a b : string) :
  exactly FULL a -> exactly FULL b ->
  commit_triple (a +:+ "/" +:+ b) = (Some a, Some b, "interval").
Proof.
  intros Ha Hb.
  destruct (date_chars_of FULL a) as [Hca Hnea]; [tauto | done |].
  destruct (date_chars_of FULL b) as [Hcb Hneb]; [tauto | done |].
  set (s := a +:+ "/" +:+ b).
  destruct (interval_text_facts a b Hca Hcb) as (Hstrip & Hdot & Hslash & Hsplit).
  fold s in Hstrip, Hdot, Hslash, Hsplit.
  destruct (date_text_facts a Hca) as (Hsa & _).
  destruct (date_text_facts b Hcb) as (Hsb & _).
  assert (negb (truthy s) || String.eqb s EmptyString = false) as H0.
  { unfold s. by destruct a. }
  unfold commit_triple, MasterImport.parse_edtf_date.
  rewrite Hstrip, H0, Hslash, Hsplit.
  rewrite (eqb_false_of_mem "." s "..") by done.
  simpl. rewrite Hsa, Hsb, !interval_side_token by done. done.
Qed.

End EDTFClaims.

(** C8.  A bare year is normalized to January 1 and December 31 with
    precision [year]; the end of a year-month is the last calendar day of
    the month, leap years included; in particular the three values of the
    specification. *)
Theorem C8_year_and_month_end :
  (forall y, Spec.exactly EDTFParser.YEAR y ->
     EDTFParser.parse y
     = Ok (Some (y +:+ "-01-01"), Some (y +:+ "-12-31"), "year"))
  /\ (forall y mo,
        Spec.exactly EDTFParser.YEAR y ->
        Spec.exactly [Regex.D; Regex.D] mo ->
        (1 <= Spec.value mo <= 12)%Z ->
        EDTFParser.parse (y +:+ "-" +:+ mo)
        = Ok (Some (y +:+ "-" +:+ mo +:+ "-01"),
              Some (y +:+ "-" +:+ mo +:+ "-"
                      +:+ PyStr.fmt02
                            (Spec.days_in_month (Spec.value y) (Spec.value mo))),
              "month"))
  /\ EDTFParser.parse "1942"
     = Ok (Some "1942-01-01", Some "1942-12-31", "year")
  /\ EDTFParser.parse "1944-02"
     = Ok (Some "1944-02-01", Some "1944-02-29", "month")
  /\ EDTFParser.parse "1943-02"
     = Ok (Some "1943-02-01", Some "1943-02-28", "month").
Proof.
  split; [exact parse_year|]. split; [exact parse_year_month|].
  repeat split.
Qed.

Lemma C8_year_and_month_end_witness :
  EDTFParser.parse "1999"
  = Ok (Some "1999-01-01", Some "1999-12-31", "year")
  /\ EDTFParser.parse "2000-02"
     = Ok (Some "2000-02-01", Some "2000-02-29", "month").
Proof.
  destruct C8_year_and_month_end as (Hy & Hm & _). split.
  - apply (Hy "1999"). reflexivity.
  - apply (Hm "2000" "02"); [reflexivity | reflexivity | vm_compute; split; discriminate].
Defined.

(* ===================================================================== *)
(** * Facts about the graph clauses                                       *)
(* ===================================================================== *)

Section CypherFacts.
Import Cypher Spec.

Lemma elem_of_positions {A} (p : A -> bool) (k : nat) (l : list A) (i : nat) :
  i ∈ positions p k l <->
  exists x, k <= i /\ l !! (i - k) = Some x /\ p x = true.
Proof.
  revert k. induction l as [|y l IH]; intros k; simpl.
  - split; [by intros ?%elem_of_nil | by intros (x & _ & ? & _)].
  - assert (i ∈ positions p (S k) l <->
            exists x, k <= i /\ i <> k /\ l !! (i - S k) = Some x /\ p x = true)
      as Hrec.
    { rewrite IH. split.
      - intros (x & ? & ? & ?). exists x. repeat split; auto; lia.
      - intros (x & ? & ? & ? & ?). exists x. repeat split; auto; lia. }
    destruct (p y) eqn:Hy; rewrite ?elem_of_cons, Hrec; split.
    + intros [-> | (x & ? & ? & Hx & ?)].
      * exists y. rewrite Nat.sub_diag. auto.
      * exists x. repeat split; auto.
        replace (i - k) with (S (i - S k)) by lia. done.
    + intros (x & Hk & Hx & Hp).
      destruct (decide (i = k)) as [-> | Hne]; [by left|]. right.
      exists x. repeat split; auto.
      replace (i - k) with (S (i - S k)) in Hx by lia. done.
    + intros (x & ? & ? & Hx & ?). exists x. repeat split; auto.
      replace (i - k) with (S (i - S k)) by lia. done.
    + intros (x & Hk & Hx & Hp).
      destruct (decide (i = k)) as [-> | Hne].
      * rewrite Nat.sub_diag in Hx. simpl in Hx. congruence.
      * exists x. repeat split; auto.
        replace (i - k) with (S (i - S k)) in Hx by lia. done.
Qed.

Lemma elem_of_match_nodes lbl k v g i :
  i ∈ match_nodes lbl k v g <->
  exists n, nodes g !! i = Some n /\ node_matches lbl k v n = true.
Proof.
  unfold match_nodes. rewrite elem_of_positions, Nat.sub_0_r.
  split; [intros (x & _ & ? & ?) | intros (x & ? & ?)]; exists x; auto with lia.
Qed.

Lemma lookup_update_nodes ids f g i :
  nodes (update_nodes ids f g) !! i
  = (fun n => if bool_decide (i ∈ ids) then update_node f n else n)
      <$> nodes g !! i.
Proof. unfold update_nodes. simpl. apply list_lookup_imap. Qed.

Lemma lookup_set_plus (props old : gmap string pyval) (key : string) :
  set_plus props old !! key
  = match props !! key with
    | Some PNone => None
    | Some v => Some v
    | None => old !! key
    end.
Proof.
  unfold set_plus. rewrite lookup_merge.
  destruct (old !! key), (props !! key) as [[]|]; done.
Qed.

(** After [SET x += props] the node shows, for every key of [props],
    the value that was sent (null when the value was null). *)
Lemma prop_set_plus (props old : gmap string pyval) (lbl key : string) (v : pyval) :
  props !! key = Some v ->
  prop key {| node_label := lbl; node_props := set_plus props old |} = v.
Proof.
  intros H. unfold prop. simpl. rewrite lookup_set_plus, H. by destruct v.
Qed.

Lemma nodes_merge_rel ty g row : nodes (merge_rel ty g row) = nodes g.
Proof.
  unfold merge_rel. destruct row as [src dst].
  by destruct (existsb _ _).
Qed.

Lemma nodes_foldl_merge_rel ty rows g :
  nodes (foldl (merge_rel ty) g rows) = nodes g.
Proof.
  revert g. induction rows as [|r rows IH]; intros g; simpl; [done|].
  by rewrite IH, nodes_merge_rel.
Qed.

Lemma nodes_merge_rels ty srcs dsts g :
  nodes (merge_rels ty srcs dsts g) = nodes g.
Proof. apply nodes_foldl_merge_rel. Qed.

Lemma nodes_merge_rel_set ty props g row :
  nodes (merge_rel_set ty props g row) = nodes g.
Proof.
  unfold merge_rel_set. destruct row as [src dst]. simpl.
  apply (nodes_merge_rel ty g (src, dst)).
Qed.

(** [merge_node] returns exactly the nodes that match afterwards, and
    either adds nothing or one node with the label and the key. *)
Lemma merge_node_spec lbl k v g g' ids :
  merge_node lbl k v g = (g', ids) ->
  rels g' = rels g
  /\ (nodes g' = nodes g
      \/ nodes g' = (nodes g ++ [{| node_label := lbl;
                                    node_props := {[ k := PStr v ]} |}])%list)
  /\ (forall i, i ∈ ids <->
        exists n, nodes g' !! i = Some n
                  /\ node_matches (Some lbl) k (PStr v) n = true).
Proof.
  unfold merge_node.
  destruct (match_nodes (Some lbl) k (PStr v) g) as [|j js] eqn:Hm.
  - intros [= <- <-]. simpl. split; [done|]. split; [by right|].
    intros i. rewrite list_elem_of_singleton. split.
    + intros ->. eexists. split; [apply list_lookup_middle; done|].
      unfold node_matches, prop. simpl.
      rewrite lookup_singleton_eq. simpl.
      by rewrite !String.eqb_refl.
    + intros (n & Hn & Hmatch).
      destruct (decide (i < length (nodes g))) as [Hlt|Hge].
      * rewrite lookup_app_l in Hn by done.
        assert (i ∈ match_nodes (Some lbl) k (PStr v) g) as Hin.
        { apply elem_of_match_nodes. eauto. }
        rewrite Hm in Hin. by apply elem_of_nil in Hin.
      * apply lookup_lt_Some in Hn. rewrite length_app in Hn. simpl in Hn. lia.
  - intros [= <- <-]. split; [done|]. split; [by left|].
    intros i. rewrite <- Hm. apply elem_of_match_nodes.
Qed.

Lemma keeps_refl lbl g : keeps lbl g g.
Proof. by intros i n. Qed.

Lemma keeps_trans lbl g1 g2 g3 :
  keeps lbl g1 g2 -> keeps lbl g2 g3 -> keeps lbl g1 g3.
Proof. intros H12 H23 i n Hn Hl. apply H12; [|done]. by apply H23. Qed.

Lemma keeps_same_nodes lbl g g' : nodes g' = nodes g -> keeps lbl g g'.
Proof. intros H i n. by rewrite H. Qed.

Lemma keeps_foldl {A} lbl (f : Graph -> A -> Graph) xs g :
  (forall g x, keeps lbl g (f g x)) -> keeps lbl g (foldl f g xs).
Proof.
  intros Hf. revert g. induction xs as [|x xs IH]; intros g; simpl.
  - apply keeps_refl.
  - eapply keeps_trans; [apply Hf | apply IH].
Qed.

Lemma keeps_merge_node lbl lbl' k v g g' ids :
  lbl' <> lbl -> merge_node lbl' k v g = (g', ids) -> keeps lbl g g'.
Proof.
  intros Hne (_ & [Hn | Hn] & _)%merge_node_spec; intros i n; rewrite Hn.
  - done.
  - intros [[_ ?] | [_ <-]]%lookup_snoc_Some; [done|]. simpl. congruence.
Qed.

Lemma keeps_update_nodes lbl ids f g :
  (forall i n, i ∈ ids -> nodes g !! i = Some n -> node_label n <> lbl) ->
  keeps lbl g (update_nodes ids f g).
Proof.
  intros Hids i n. rewrite lookup_update_nodes.
  destruct (nodes g !! i) as [n0|] eqn:Hn0; [|done]. simpl.
  intros [= <-]. case_bool_decide; [|done].
  simpl. intros Hl. by destruct (Hids i n0).
Qed.

End CypherFacts.

(* ===================================================================== *)
(** * Facts about the projector                                           *)
(* ===================================================================== *)

Section ImportFacts.
Import Cypher MasterImport Spec.

Lemma node_matches_intro lbl k v n :
  node_label n = lbl -> prop k n = PStr v ->
  node_matches (Some lbl) k (PStr v) n = true.
Proof.
  intros <- Hk. unfold node_matches. rewrite Hk. simpl.
  by rewrite !String.eqb_refl.
Qed.

Lemma node_matches_label lbl k v n :
  node_matches (Some lbl) k v n = true -> node_label n = lbl.
Proof. unfold node_matches. by intros [?%String.eqb_eq _]%andb_true_iff. Qed.

(** Every node that matches the pattern after [MERGE ... SET x += props]
    went through the [SET]. *)
Lemma merge_set_matching lbl k v props g i n :
  nodes (merge_set lbl k v props g) !! i = Some n ->
  node_matches (Some lbl) k (PStr v) n = true ->
  exists n0, n = update_node (set_plus props) n0.
Proof.
  unfold merge_set.
  destruct (merge_node lbl k v g) as [g' ids] eqn:Hm.
  apply merge_node_spec in Hm as (_ & _ & Hids).
  rewrite lookup_update_nodes.
  destruct (nodes g' !! i) as [n0|] eqn:Hn0; [|done]. simpl.
  case_bool_decide as Hi; intros [= <-]; [by eexists|].
  intros Hmatch. destruct Hi. apply Hids. eauto.
Qed.

Lemma merge_set_prop lbl k v props g i n key x :
  nodes (merge_set lbl k v props g) !! i = Some n ->
  node_label n = lbl -> prop k n = PStr v ->
  props !! key = Some x -> prop key n = x.
Proof.
  intros Hn Hl Hk Hx.
  destruct (merge_set_matching lbl k v props g i n Hn) as [n0 ->].
  { by apply node_matches_intro. }
  by apply prop_set_plus.
Qed.

Lemma commit_assertion_keeps lbl claimed a g :
  lbl <> "Assertion" -> keeps lbl g (commit_assertion claimed a g).
Proof.
  intros Hne. unfold commit_assertion. apply keeps_foldl.
  clear g. intros g [x d].
  destruct (merge_node "Assertion" "assertion_id" (assertion_id a) g)
    as [g1 ids] eqn:Hm.
  eapply keeps_trans; [by eapply keeps_merge_node|].
  eapply keeps_trans.
  { apply (keeps_update_nodes lbl ids (set_plus (assertion_properties a))).
    intros i n Hi Hn.
    apply merge_node_spec in Hm as (_ & _ & Hids).
    apply Hids in Hi as (n' & Hn' & Hmatch).
    rewrite Hn in Hn'. injection Hn' as <-.
    apply node_matches_label in Hmatch. congruence. }
  eapply keeps_trans;
    [|apply keeps_foldl; intros g2 j; apply keeps_same_nodes, nodes_merge_rel].
  apply keeps_foldl. intros g2 j. apply keeps_same_nodes, nodes_merge_rel.
Qed.

Lemma nodes_participant props field self lbl ty rev g :
  nodes (participant props field self lbl ty rev g) = nodes g.
Proof.
  unfold participant. destruct (Py.truthy _); [|done].
  destruct rev; apply nodes_merge_rels.
Qed.

Lemma nodes_references srcs ids g :
  nodes (foldl (reference srcs) g ids) = nodes g.
Proof.
  revert g. induction ids as [|x ids IH]; intros g; simpl; [done|].
  rewrite IH. apply nodes_merge_rels.
Qed.

Lemma nodes_create_microaction_relations micro actor recipient g :
  nodes (create_microaction_relations micro actor recipient g) = nodes g.
Proof.
  unfold create_microaction_relations.
  repeat match goal with
         | |- context [if ?b then _ else _] => destruct b
         end; rewrite ?nodes_merge_rels; done.
Qed.

(** The date fields that [commit_dates] writes. *)
Lemma commit_dates_parsed (props : gmap string pyval) (s : string) :
  props !! "date_edtf" = Some (PStr s) -> s <> EmptyString ->
  exists props',
    commit_dates props = Ok props'
    /\ props' !! "date_start" = Some (Py.of_option (commit_triple s).1.1)
    /\ props' !! "date_end" = Some (Py.of_option (commit_triple s).1.2)
    /\ props' !! "date_precision" = Some (PStr (commit_triple s).2).
Proof.
  intros Hd Hne. unfold commit_dates. rewrite Hd. simpl.
  assert (PyStr.truthy s = true) as -> by by destruct s.
  eexists. split; [done|]. by simplify_map_eq.
Qed.

Lemma commit_dates_absent (props : gmap string pyval) :
  Py.truthy (default PNone (props !! "date_edtf")) = false ->
  exists props',
    commit_dates props = Ok props'
    /\ props' !! "date_start" = Some PNone
    /\ props' !! "date_end" = Some PNone
    /\ props' !! "date_precision" = Some (PStr "unknown").
Proof.
  intros Hd. unfold commit_dates. rewrite Hd.
  eexists. split; [done|]. by simplify_map_eq.
Qed.

(** The event import, given the properties that [commit_dates] made:
    every Event node with the id shows the properties that were sent. *)
Lemma import_event_stored g event props :
  commit_dates (event_properties event) = Ok props ->
  exists g',
    import_event g event = Ok g'
    /\ forall i n key x,
         nodes g' !! i = Some n -> node_label n = "Event" ->
         prop "event_id" n = PStr (event_id event) ->
         props !! key = Some x -> prop key n = x.
Proof.
  intros Hc. unfold import_event. rewrite Hc. simpl.
  eexists. split; [done|]. intros i n key x Hn Hl Hid Hx.
  rewrite nodes_references in Hn.
  rewrite nodes_participant in Hn.
  assert (forall g0,
            nodes (if Cypher.eq (default PNone (props !! "agent_id"))
                        (PStr "UNKNOWN_AUTHORITY")
                   then g0
                   else participant props "agent_id"
                          (match_nodes (Some "Event") "event_id"
                             (PStr (event_id event)))
                          None "ACTED_AS_AGENT" true g0) = nodes g0) as Hag.
  { intros g0. destruct (Cypher.eq _ _); [done|]. apply nodes_participant. }
  rewrite Hag, nodes_participant in Hn.
  apply (commit_assertion_keeps "Event" _ _ _ ltac:(done) i n) in Hn;
    [|exact Hl].
  by eapply merge_set_prop.
Qed.

Lemma import_microaction_stored g micro props :
  commit_dates (micro_properties micro) = Ok props ->
  exists g',
    import_microaction g micro = Ok g'
    /\ forall i n key x,
         nodes g' !! i = Some n -> node_label n = "MicroAction" ->
         prop "micro_id" n = PStr (micro_id micro) ->
         props !! key = Some x -> prop key n = x.
Proof.
  intros Hc. unfold import_microaction. rewrite Hc. simpl.
  eexists. split; [done|]. intros i n key x Hn Hl Hid Hx.
  rewrite nodes_references, nodes_participant,
    nodes_create_microaction_relations in Hn.
  apply (commit_assertion_keeps "MicroAction" _ _ _ ltac:(done) i n) in Hn;
    [|exact Hl].
  by eapply merge_set_prop.
Qed.

End ImportFacts.

Lemma parse_interval_full (a b : string) :
  Spec.exactly EDTFParser.FULL a -> Spec.exactly EDTFParser.FULL b ->
  EDTFParser.parse (a +:+ "/" +:+ b) = Ok (Some a, Some b, "interval").
Proof.
  intros Ha Hb.
  destruct (date_chars_of EDTFParser.FULL a) as [Hca _]; [tauto | done |].
  destruct (date_chars_of EDTFParser.FULL b) as [Hcb _]; [tauto | done |].
  rewrite parse_interval_tokens by done.
  by rewrite !normalize_full.
Qed.

(** C3.  The code at the inputs of the claim: the end of a closed
    interval and of an open-start expression goes through the normalizer
    with [start] set, so a bare year ends on January 1 and a year-month on
    day 1, whereas the normalizer asked for an end gives December 31. *)
Theorem C3_interval_end_normalized_as_start :
  EDTFParser.parse "1942/1945"
  = Ok (Some "1942-01-01", Some "1945-01-01", "interval")
  /\ EDTFParser.parse "../1945" = Ok (None, Some "1945-01-01", "before")
  /\ EDTFParser.parse "1942-03/1942-04"
     = Ok (Some "1942-03-01", Some "1942-04-01", "interval")
  /\ EDTFParser._normalize_single_date "1945" false = Ok (Some "1945-12-31")
  /\ EDTFParser._normalize_single_date "1942-04" false = Ok (Some "1942-04-30").
Proof. repeat split. Qed.

(** C2, as stated, fails on a bare year: the extractor's normalizer gives
    1942-01-01, 1942-12-31 and [year], the commit-time function stores
    1942, 1942 and [exact]. *)
Lemma C2_counterexample :
  EDTFParser.parse "1942" = Ok (Some "1942-01-01", Some "1942-12-31", "year")
  /\ Spec.commit_triple "1942" = (Some "1942", Some "1942", "exact")
  /\ EDTFParser.parse "1942" <> Ok (Spec.commit_triple "1942").
Proof. repeat split. vm_compute. discriminate. Qed.

(* ===================================================================== *)
(** * Properties of the reference extractor                               *)
(* ===================================================================== *)

Section WikilinkFacts.
Import PyStr Regex WikilinkExtractor Spec.

Lemma rstrip_by_app_all (p : ascii -> bool) (s t : string) :
  all_chars p t = true -> rstrip_by p (s +:+ t) = rstrip_by p s.
Proof.
  intros Ht. induction s as [|c s IH].
  - change (EmptyString +:+ t) with t.
    induction t as [|d t IHt]; simpl in *; [done|].
    apply andb_true_iff in Ht as [Hd Ht]. by rewrite IHt, Hd.
  - rewrite append_cons. simpl. by rewrite IH.
Qed.

Lemma rstrip_by_prefix (p : ascii -> bool) (pre s : string) :
  rstrip_by p s = s -> s <> EmptyString ->
  rstrip_by p (pre +:+ s) = pre +:+ s.
Proof.
  intros Hs Hne. induction pre as [|c pre IH]; [done|].
  rewrite append_cons. simpl. rewrite IH.
  destruct (pre +:+ s) eqn:E; [|done].
  destruct pre; [|done]. by destruct s.
Qed.

Lemma lits_exact (s : string) : exactly (lits s) s.
Proof.
  unfold exactly. induction s as [|c s IH]; simpl; [done|].
  by rewrite Ascii.eqb_refl.
Qed.

Lemma hex_dash_plain (c : ascii) :
  is_hex_dash c = true -> mem c "[]|/" = false.
Proof. destruct c as [[] [] [] [] [] [] [] []]; by vm_compute. Qed.

Lemma body_chars (ty u : string) :
  ty ∈ TYPES -> exactly HEX36 u ->
  all_chars body_char ("id/" +:+ ty +:+ "/" +:+ u) = true.
Proof.
  intros Hty Hu. rewrite !all_chars_app.
  assert (all_chars body_char u = true) as ->.
  { apply (match_toks_all body_char HEX36); [|done].
    unfold HEX36. generalize 36. intros n.
    induction n; simpl; constructor; auto.
    intros c Hc. apply hex_dash_plain in Hc. unfold body_char. simpl in *.
    destruct (Ascii.eqb c "["), (Ascii.eqb c "]"), (Ascii.eqb c "|"); done. }
  unfold TYPES in Hty.
  repeat (apply elem_of_cons in Hty as [-> | Hty]; [done|]).
  by apply elem_of_nil in Hty.
Qed.

Lemma id_pattern_body (ty u : string) :
  ty ∈ TYPES -> exactly HEX36 u ->
  ID_PATTERN_match ("/" +:+ "id/" +:+ ty +:+ "/" +:+ u) = true.
Proof.
  intros Hty Hu. unfold ID_PATTERN_match.
  apply existsb_exists. exists ty. split; [by apply list_elem_of_In|].
  apply re_anchored_exactly. unfold exactly, id_body.
  change (L "/"%char :: lits "id/" ++ lits ty ++ [L "/"%char] ++ HEX36)%list
    with (lits "/id/" ++ lits ty ++ lits "/" ++ HEX36)%list.
  change ("/" +:+ "id/" +:+ ty +:+ "/" +:+ u)
    with ("/id/" +:+ ty +:+ "/" +:+ u).
  rewrite (match_toks_app _ _ _ _ (lits_exact "/id/")).
  rewrite (match_toks_app _ _ _ _ (lits_exact ty)).
  rewrite (match_toks_app _ _ _ _ (lits_exact "/")).
  exact Hu.
Qed.

Lemma strip_brackets (body : string) :
  all_chars body_char body = true -> body <> EmptyString ->
  strip_chars "[]" ("[[" +:+ body +:+ "]]") = body.
Proof.
  intros Hb Hne. unfold strip_chars, strip_by.
  assert (all_chars (fun c => negb (mem c "[]")) body = true) as Hb'.
  { eapply all_chars_weaken; [|exact Hb]. intros c. unfold body_char. simpl.
    destruct (Ascii.eqb c "["), (Ascii.eqb c "]"); done. }
  change ("[[" +:+ body +:+ "]]") with ("[[" +:+ (body +:+ "]]")).
  rewrite <- append_assoc, rstrip_by_app_all by done.
  rewrite rstrip_by_prefix by (by rewrite ?rstrip_by_id).
  change ("[[" +:+ body) with (String "[" (String "[" body)).
  simpl. by apply lstrip_by_id.
Qed.

(** [clean_id] on a bracketed reference that lacks the leading slash. *)
Lemma clean_id_missing_slash (ty u : string) warnings file_path line_num :
  ty ∈ TYPES -> exactly HEX36 u ->
  let body := "id/" +:+ ty +:+ "/" +:+ u in
  let raw := "[[" +:+ body +:+ "]]" in
  clean_id raw warnings file_path line_num
  = (Ok ("/" +:+ body),
     log_if warnings file_path (fun w fp =>
       Warnings.log_slash_correction w fp (or_zero line_num) raw)).
Proof.
  intros Hty Hu body raw.
  pose proof (body_chars ty u Hty Hu) as Hb. fold body in Hb.
  assert (body <> EmptyString) as Hne by done.
  assert (strip_chars "[]" raw = body) as H1 by by apply strip_brackets.
  assert (mem "|" body = false) as H2.
  { apply (mem_false_of_all _ _ _ Hb). done. }
  assert (startswith "/" body = false) as H3 by done.
  assert (ID_PATTERN_match ("/" +:+ body) = true) as H4
    by by apply id_pattern_body.
  unfold clean_id. cbv zeta. rewrite H1, H2, H3. simpl negb. cbv iota.
  by rewrite H4.
Qed.

(** [clean_id] hands out nothing but ids of the strict grammar, and
    raises nothing but the [ValueError] about an id outside of it. *)
Lemma clean_id_post raw warnings file_path line_num :
  match (clean_id raw warnings file_path line_num).1 with
  | Ok x => ID_PATTERN_match x = true
  | Raise e =>
      exists c, e = ValueError ("Invalid ID format: " +:+ c)
                /\ ID_PATTERN_match c = false
  end.
Proof.
  unfold clean_id.
  repeat match goal with
         | |- context [let '(_, _) := ?p in _] => destruct p eqn:?
         | |- context [if ?b then _ else _] => destruct b eqn:?
         end; simpl in *; simplify_eq;
    repeat match goal with
           | H : negb _ = true |- _ => apply negb_true_iff in H
           | H : negb _ = false |- _ => apply negb_false_iff in H
           end; eauto.
Qed.

(** Every id in the set returned by [extract_all_wikilinks] is of the
    strict grammar. *)
Lemma extract_all_valid text warnings file_path x :
  x ∈ (extract_all_wikilinks text warnings file_path).1 ->
  ID_PATTERN_match x = true.
Proof.
  unfold extract_all_wikilinks.
  generalize (finditer 0 1 text). intros ms.
  assert (forall y, y ∈ (∅ : gset string) -> ID_PATTERN_match y = true) as Hinv
    by set_solver.
  revert Hinv. generalize (∅ : gset string) as ids. revert warnings x.
  induction ms as [|[raw_id ln] ms IH]; intros w x ids Hinv; simpl.
  - apply Hinv.
  - pose proof (clean_id_post raw_id w file_path (Some ln)) as Hpost.
    destruct (clean_id raw_id w file_path (Some ln)) as [[clean|e] w'];
      simpl in Hpost; apply IH; [|done].
    intros y [->%elem_of_singleton | Hy]%elem_of_union; auto.
Qed.

End WikilinkFacts.

(* ===================================================================== *)
(** * Properties of the entity extractor                                  *)
(* ===================================================================== *)

Section EntityFacts.
Import EntityParser Spec.


Lemma post_raise {A} (e : exn) (P : A -> Prop) : post (raise e) P.
Proof. by intros w b w'. Qed.

















Context (yaml_safe_load : string -> result pyval)
        (validate_frontmatter_syntax :
           string -> string -> option WikilinkWarnings ->
           option WikilinkWarnings)
        (parse_structures_from_markdown :
           string -> string -> list (string * list StructureItem))
        (base_properties :
           string -> list (string * pyval) -> string -> gmap string pyval).


End EntityFacts.

(* ===================================================================== *)
(** * Properties of the document ids                                      *)
(* ===================================================================== *)

Section DocumentIds.
Import DocumentParser Spec.
Context (sha1_hex : string -> string).

Lemma occurrences_cons b b' seen :
  occurrences b (b' :: seen)
  = if decide (b = b') then S (occurrences b seen) else occurrences b seen.
Proof.
  unfold occurrences. rewrite filter_cons. by destruct (decide (b = b')).
Qed.

Lemma tracks_empty : tracks ∅ [].
Proof. intros b. by rewrite lookup_empty. Qed.

(** One call: the id is the expected one and the index keeps tracking. *)
Lemma build_document_id_step file_path index warnings seen :
  tracks index seen ->
  let b := base_id sha1_hex file_path in
  exists index' warnings',
    _build_document_id sha1_hex file_path (index, warnings)
    = (match occurrences b seen with
       | O => b
       | S n => b +:+ "::" +:+ pretty (S n)
       end, (index', warnings'))
    /\ tracks index' (b :: seen).
Proof.
  intros Htr b. unfold _build_document_id. fold b.
  pose proof (Htr b) as Hb.
  destruct (index !! b) as [[count original]|] eqn:E; simpl in Hb.
  - destruct (occurrences b seen) as [|n] eqn:Hocc; [done|].
    injection Hb as ->. do 2 eexists. split; [done|].
    intros b'. rewrite occurrences_cons, lookup_insert.
    destruct (decide (b = b')) as [Heq|Hne], (decide (b' = b)) as [Heq'|Hne'];
      try congruence; [subst b'; simpl; by rewrite Hocc | apply Htr].
  - destruct (occurrences b seen) as [|n] eqn:Hocc; [|done].
    do 2 eexists. split; [done|].
    intros b'. rewrite occurrences_cons, lookup_insert.
    destruct (decide (b = b')) as [Heq|Hne], (decide (b' = b)) as [Heq'|Hne'];
      try congruence; [subst b'; simpl; by rewrite Hocc | apply Htr].
Qed.

Lemma build_document_ids_expected paths index warnings seen :
  tracks index seen ->
  (build_document_ids sha1_hex paths (index, warnings)).1
  = expected_ids sha1_hex seen paths.
Proof.
  revert index warnings seen.
  induction paths as [|p ps IH]; intros index warnings seen Htr; [done|].
  cbn [build_document_ids expected_ids].
  destruct (build_document_id_step p index warnings seen Htr)
    as (index' & warnings' & -> & Htr').
  specialize (IH index' warnings' _ Htr').
  destruct (build_document_ids sha1_hex ps (index', warnings')) as [ids st].
  simpl in *. by rewrite IH.
Qed.


Lemma suffix_differs (b : string) (n : nat) : b <> b +:+ "::" +:+ pretty n.
Proof.
  intros H. apply (f_equal String.length) in H.
  rewrite !string_length_app in H. simpl in H. lia.
Qed.

(** Two files of one name, met in this order by a fresh parser. *)
Lemma two_files_one_name p1 p2 warnings :
  Path.name p1 = Path.name p2 ->
  let base := "/id/document/" +:+ sha1_hex (Path.name p1) in
  exists index,
    DocumentParser.build_document_ids sha1_hex [p1; p2] (∅, warnings)
    = ([base; base +:+ "::1"],
       (index,
        Warnings.log_document_id_collision warnings (Path.name p2)
          (Path.to_str p1) (Path.to_str p2))).
Proof.
  intros Hn base. simpl.
  unfold DocumentParser._build_document_id at 1.
  unfold DocumentParser.base_id. rewrite lookup_empty.
  unfold DocumentParser._build_document_id, DocumentParser.base_id.
  rewrite <- Hn, lookup_insert_eq. eexists. reflexivity.
Qed.

End DocumentIds.



(* ===================================================================== *)
(** * The owning document of events and micro-actions                     *)
(* ===================================================================== *)

Section BlockDocuments.
Context (sha1_hex : string -> string)
        (BLOCK_RE_finditer : string -> list (string * string))
        (KV_RE_match : string -> option (string * string))
        (DESC_PATTERN_match OBS_PATTERN_match : string -> bool)
        (_extract_reply_date : string -> option string).

Lemma parse_event_block_doc raw_id content doc file_path w event w' :
  EventParser._parse_event_block sha1_hex KV_RE_match DESC_PATTERN_match
    OBS_PATTERN_match raw_id content doc file_path w = (Ok event, w') ->
  doc_id (event_assertion event) = doc.
Proof.
  unfold EventParser._parse_event_block. cbv zeta.
  destruct (EventParser.links_of_field _ "observation" _ _) as [all_links w1].
  destruct (EventParser.block_dates _) as [[[date_start date_end] precision]|e];
    intros H;
    exact (eq_sym (f_equal (fun p : result EventRecord * option WikilinkWarnings =>
                              match p.1 with
                              | Ok x => doc_id (event_assertion x)
                              | Raise _ => doc
                              end) H)).
Qed.

Lemma parse_micro_block_doc raw_id content doc file_path w micro w' :
  MicroActionParser._parse_micro_block sha1_hex KV_RE_match
    _extract_reply_date raw_id content doc file_path w = (Ok micro, w') ->
  doc_id (micro_assertion micro) = doc.
Proof.
  unfold MicroActionParser._parse_micro_block. cbv zeta.
  destruct (foldl _ (∅, _) _) as [all_links w1].
  destruct (EventParser.block_dates _) as [[[date_start date_end] precision]|e];
    [|by intros [= ]].
  destruct (MicroActionParser.reply_anchor _ _ _ _ _) as [anchor w2].
  intros H.
  exact (eq_sym (f_equal (fun p : result MicroActionRecord
                                  * option WikilinkWarnings =>
                            match p.1 with
                            | Ok x => doc_id (micro_assertion x)
                            | Raise _ => doc
                            end) H)).
Qed.

(** A loop that appends what each block yields keeps a property that
    every yielded record has. *)
Lemma blocks_forall {A} (P : A -> Prop)
    (step : string -> string -> option WikilinkWarnings ->
            result A * option WikilinkWarnings)
    (blocks : list (string * string)) acc w records w' :
  (forall g1 content w x w', step g1 content w = (Ok x, w') -> P x) ->
  Forall P acc ->
  foldl (fun '(acc, w) '(g1, content) =>
           match acc with
           | Raise e => (Raise e, w)
           | Ok xs =>
               match step g1 content w with
               | (Ok x, w') => (Ok (xs ++ [x])%list, w')
               | (Raise e, w') => (Raise e, w')
               end
           end) (Ok acc, w) blocks = (Ok records, w') ->
  Forall P records.
Proof.
  intros Hstep. revert acc w.
  induction blocks as [|[g1 content] blocks IH]; intros acc w Hacc; simpl.
  - by intros [= <- _].
  - destruct (step g1 content w) as [[x|e] w1] eqn:E.
    + apply IH. apply Forall_app. split; [done|].
      constructor; [|done]. by eapply Hstep.
    + clear. intros H. exfalso. revert H. generalize w1.
      induction blocks as [|[g c] blocks IH]; intros w2; simpl; [done|].
      apply IH.
Qed.

Lemma events_of_file_doc file_path text w events w' :
  EventParser._parse_events_from_file sha1_hex BLOCK_RE_finditer KV_RE_match
    DESC_PATTERN_match OBS_PATTERN_match file_path text w = (Ok events, w') ->
  Forall (fun event => doc_id (event_assertion event)
                       = DocumentParser.base_id sha1_hex file_path) events.
Proof.
  unfold EventParser._parse_events_from_file. intros H.
  eapply (blocks_forall _
            (fun g1 content w =>
               EventParser._parse_event_block sha1_hex KV_RE_match
                 DESC_PATTERN_match OBS_PATTERN_match (PyStr.strip g1) content
                 (EventParser._build_document_id_from_path sha1_hex file_path)
                 (Path.to_str file_path) w));
    [| |exact H]; [|done].
  intros g1 content w0 x w0' Hx. by apply parse_event_block_doc in Hx.
Qed.

Lemma micros_of_file_doc file_path text w micros w' :
  MicroActionParser._parse_microactions_from_file sha1_hex BLOCK_RE_finditer
    KV_RE_match _extract_reply_date file_path text w = (Ok micros, w') ->
  Forall (fun micro => doc_id (micro_assertion micro)
                       = DocumentParser.base_id sha1_hex file_path) micros.
Proof.
  unfold MicroActionParser._parse_microactions_from_file. intros H.
  eapply (blocks_forall _
            (fun g1 content w =>
               MicroActionParser._parse_micro_block sha1_hex KV_RE_match
                 _extract_reply_date (PyStr.strip g1) content
                 (MicroActionParser._build_document_id_from_path sha1_hex
                    file_path)
                 (Path.to_str file_path) w));
    [| |exact H]; [|done].
  intros g1 content w0 x w0' Hx. by apply parse_micro_block_doc in Hx.
Qed.

End BlockDocuments.

(** C10.  The event and micro-action extractors take as owning document
    the bare hash of the file name and keep no collision count.  So, of
    two files with one name that the document extractor meets in this
    order, the first gets the bare id and the second the id with suffix 1,
    while every assertion of an event or micro-action of the second file
    names the id of the first file and not the id of the second. *)
Theorem C10_assertions_attach_to_first_file :
  forall sha1_hex EVENT_BLOCK_RE_finditer MICRO_BLOCK_RE_finditer KV_RE_match
         DESC_PATTERN_match OBS_PATTERN_match _extract_reply_date
         p1 p2 warnings id1 st1 id2 st2,
    Path.name p1 = Path.name p2 ->
    DocumentParser._build_document_id sha1_hex p1 (∅, warnings) = (id1, st1) ->
    DocumentParser._build_document_id sha1_hex p2 st1 = (id2, st2) ->
    id1 = "/id/document/" +:+ sha1_hex (Path.name p2)
    /\ id2 = id1 +:+ "::1"
    /\ EventParser._build_document_id_from_path sha1_hex p2 = id1
    /\ MicroActionParser._build_document_id_from_path sha1_hex p2 = id1
    /\ (forall text w events w',
          EventParser._parse_events_from_file sha1_hex EVENT_BLOCK_RE_finditer
            KV_RE_match DESC_PATTERN_match OBS_PATTERN_match p2 text w
          = (Ok events, w') ->
          Forall (fun event => doc_id (event_assertion event) = id1
                               /\ doc_id (event_assertion event) <> id2) events)
    /\ (forall text w micros w',
          MicroActionParser._parse_microactions_from_file sha1_hex
            MICRO_BLOCK_RE_finditer KV_RE_match _extract_reply_date p2 text w
          = (Ok micros, w') ->
          Forall (fun micro => doc_id (micro_assertion micro) = id1
                               /\ doc_id (micro_assertion micro) <> id2) micros).
Proof.
  intros sha1_hex EF MF KV DESC OBS reply p1 p2 warnings id1 st1 id2 st2
    Hn H1 H2.
  destruct (two_files_one_name sha1_hex p1 p2 warnings Hn) as [index Hboth].
  cbn [DocumentParser.build_document_ids] in Hboth.
  rewrite H1, H2 in Hboth. injection Hboth as -> -> _.
  rewrite Hn.
  assert (forall d : string,
            d = "/id/document/" +:+ sha1_hex (Path.name p2) ->
            d <> ("/id/document/" +:+ sha1_hex (Path.name p2)) +:+ "::1")
    as Hne.
  { intros d ->. apply (suffix_differs _ 1). }
  repeat split; try done.
  - intros text w events w' H.
    eapply Forall_impl; [by eapply events_of_file_doc|].
    intros event He. split; [done|]. by apply Hne.
  - intros text w micros w' H.
    eapply Forall_impl; [by eapply micros_of_file_doc|].
    intros micro He. split; [done|]. by apply Hne.
Qed.

Lemma C10_assertions_attach_to_first_file_witness :
  match
    (EventParser._parse_events_from_file (fun name => name)
       (fun text => [("arrest-1942", "- date_edtf: 1942-03-29")])
       (fun line => Some ("date_edtf", "1942-03-29"))
       (fun _ => false) (fun _ => false)
       ["vault"; "b"; "letter.md"] "#event_id: arrest-1942" None).1
  with
  | Ok events =>
      Forall (fun event =>
                doc_id (event_assertion event) = "/id/document/letter.md"
                /\ doc_id (event_assertion event)
                   <> "/id/document/letter.md::1") events
  | Raise _ => False
  end.
Proof.
  destruct (EventParser._parse_events_from_file _ _ _ _ _ _ _ _)
    as [[events|e] w'] eqn:E; cbn [fst].
  - refine (proj1 (proj2 (proj2 (proj2 (proj2
             (C10_assertions_attach_to_first_file (fun name => name)
                _ (fun _ => []) _ _ _ (fun _ => None)
                ["vault"; "a"; "letter.md"] ["vault"; "b"; "letter.md"]
                Warnings.empty _ _ _ _ eq_refl eq_refl eq_refl)))))
            _ _ _ _ E).
  - vm_compute in E. discriminate E.
Defined.

(* ===================================================================== *)
(** * The front-matter split                                              *)
(* ===================================================================== *)

Section SplitFacts.
Import EntityParser.

(** An exception of the loader leaves [_parse_entity_file], whatever
    its class, and nothing is logged on the way. *)
Lemma parse_entity_file_load_error yaml_safe_load validate markdown base
    file_path text w e :
  PyStr.truthy (_split_frontmatter_raw text).1 = true ->
  yaml_safe_load (_split_frontmatter_raw text).1 = Raise e ->
  _parse_entity_file yaml_safe_load validate markdown base file_path text w
  = (Raise e, w).
Proof.
  unfold _parse_entity_file.
  destruct (_split_frontmatter_raw text) as [block body]. cbn [fst].
  intros -> Hl. unfold bindM at 1, lift. by rewrite Hl.
Qed.

End SplitFacts.

(** C6, as stated, fails in two ways.  The entity extractor hands the
    block to the YAML loader outside any handler, so the error of a block
    that does not parse leaves [_parse_entity_file], where the document
    extractor falls back on the same note.  And the handler of the
    document extractor catches the YAML errors only: the [ValueError]
    that the loader raises on a date that does not exist leaves its
    split. *)
Lemma C6_counterexample :
  EntityParser._parse_entity_file BrokenNote.loader (fun _ _ w => w)
    (fun _ _ => []) (fun _ _ _ => ∅) BrokenNote.path BrokenNote.text
    (Some Warnings.empty)
  = (Raise YAMLError, Some Warnings.empty)
  /\ DocumentParser._split_frontmatter BrokenNote.loader BrokenNote.text
     = Ok (PDict [], BrokenNote.text)
  /\ DocumentParser._split_frontmatter ImpossibleDate.loader
       ImpossibleDate.text
     = Raise (ValueError "day is out of range for month").
Proof. repeat split; vm_compute; reflexivity. Qed.

(** C6, amended.  The split of the document extractor falls back to the
    empty mapping and the whole text when there is no second delimiter
    and when the loader raises a YAML error on the block; when the block
    loads, it returns the loaded value (the empty mapping for a falsy
    one) and the rest without its leading line feeds; it raises exactly
    when the loader raises an exception of another class on the block,
    and then that exception; so it never raises with a loader that raises
    YAML errors only.  The raw split of the entity extractor loads
    nothing and never raises: it returns the block and the rest, or the
    empty block and the whole text; every exception of the loader on a
    block that is not empty then leaves [_parse_entity_file]. *)
Theorem C6_split_falls_back_on_yaml_errors :
  forall (yaml_safe_load : string -> result pyval) (text : string),
    (DocumentParser.split3 text = None ->
     DocumentParser._split_frontmatter yaml_safe_load text
     = Ok (PDict [], text)
     /\ EntityParser._split_frontmatter_raw text = (EmptyString, text))
    /\ (forall block rest,
          DocumentParser.split3 text = Some (block, rest) ->
          (yaml_safe_load block = Raise YAMLError ->
           DocumentParser._split_frontmatter yaml_safe_load text
           = Ok (PDict [], text))
          /\ (forall v,
                yaml_safe_load block = Ok v ->
                DocumentParser._split_frontmatter yaml_safe_load text
                = Ok (if Py.truthy v then v else PDict [],
                      PyStr.lstrip_chars PyStr.nl rest))
          /\ EntityParser._split_frontmatter_raw text
             = (block, PyStr.lstrip_chars PyStr.nl rest))
    /\ (forall e,
          DocumentParser._split_frontmatter yaml_safe_load text = Raise e <->
          e <> YAMLError
          /\ exists block rest,
               DocumentParser.split3 text = Some (block, rest)
               /\ yaml_safe_load block = Raise e)
    /\ ((forall s e, yaml_safe_load s = Raise e -> e = YAMLError) ->
        exists frontmatter body,
          DocumentParser._split_frontmatter yaml_safe_load text
          = Ok (frontmatter, body))
    /\ (forall validate markdown base file_path w e,
          PyStr.truthy (EntityParser._split_frontmatter_raw text).1 = true ->
          yaml_safe_load (EntityParser._split_frontmatter_raw text).1
          = Raise e ->
          EntityParser._parse_entity_file yaml_safe_load validate markdown
            base file_path text w
          = (Raise e, w)).
Proof.
  intros yaml text.
  unfold DocumentParser._split_frontmatter.
  split; [|split; [|split; [|split]]].
  - unfold EntityParser._split_frontmatter_raw. by intros ->.
  - unfold EntityParser._split_frontmatter_raw. intros block rest ->.
    split; [by intros ->|]. split; [by intros v ->|done].
  - intros e.
    destruct (DocumentParser.split3 text) as [[block rest]|] eqn:E.
    + destruct (yaml block) as [v|e0] eqn:Hy.
      * split; [discriminate|].
        intros (_ & b & r & Hb & He). injection Hb as <- <-. congruence.
      * split.
        -- destruct e0; intros [= <-]; (split; [done|]); by exists block, rest.
        -- intros (Hne & b & r & Hb & He). injection Hb as <- <-.
           rewrite Hy in He. injection He as ->. by destruct e.
    + split; [discriminate|]. by intros (_ & b & r & ? & _).
  - intros Honly.
    destruct (DocumentParser.split3 text) as [[block rest]|]; [|eauto].
    destruct (yaml block) as [v|e] eqn:Hy; [eauto|].
    rewrite (Honly _ _ Hy). eauto.
  - intros validate markdown base file_path w e.
    apply parse_entity_file_load_error.
Qed.

Lemma C6_split_falls_back_on_yaml_errors_witness :
  DocumentParser._split_frontmatter BrokenNote.loader BrokenNote.text
  = Ok (PDict [], BrokenNote.text)
  /\ (exists frontmatter body,
        DocumentParser._split_frontmatter BrokenNote.loader
          ImpossibleDate.text
        = Ok (frontmatter, body))
  /\ EntityParser._parse_entity_file ImpossibleDate.loader (fun _ _ w => w)
       (fun _ _ => []) (fun _ _ _ => ∅) BrokenNote.path ImpossibleDate.text
       (Some Warnings.empty)
     = (Raise (ValueError "day is out of range for month"),
        Some Warnings.empty).
Proof.
  split; [|split].
  - destruct (C6_split_falls_back_on_yaml_errors BrokenNote.loader
                BrokenNote.text) as (_ & Hsome & _).
    apply (Hsome BrokenNote.block "
Body of the note.
"); reflexivity.
  - destruct (C6_split_falls_back_on_yaml_errors BrokenNote.loader
                ImpossibleDate.text) as (_ & _ & _ & Htotal & _).
    apply Htotal. intros s e. unfold BrokenNote.loader.
    destruct (String.eqb s BrokenNote.block); [by intros [= <-] | done].
  - destruct (C6_split_falls_back_on_yaml_errors ImpossibleDate.loader
                ImpossibleDate.text) as (_ & _ & _ & _ & Hentity).
    apply Hentity; reflexivity.
Defined.

(* ===================================================================== *)
(** * Repeated commits                                                    *)
(* ===================================================================== *)

Section MergeFacts.
Import Cypher MasterImport Spec.

Lemma positions_ext {A} (p q : A -> bool) (l l' : list A) (k : nat) :
  length l = length l' ->
  (forall i x y, l !! i = Some x -> l' !! i = Some y -> p x = q y) ->
  positions p k l = positions q k l'.
Proof.
  revert l' k. induction l as [|x l IH]; intros [|y l'] k Hlen Hpq; try done.
  simpl. rewrite (Hpq 0 x y eq_refl eq_refl).
  rewrite (IH l' (S k)); [done | by injection Hlen |].
  intros i a b Ha Hb. by apply (Hpq (S i)).
Qed.

Lemma positions_app {A} (p : A -> bool) (l1 l2 : list A) (k : nat) :
  positions p k (l1 ++ l2)%list
  = (positions p k l1 ++ positions p (k + length l1) l2)%list.
Proof.
  revert k. induction l1 as [|x l1 IH]; intros k; simpl.
  - by rewrite Nat.add_0_r.
  - rewrite IH. replace (S k + length l1) with (k + S (length l1)) by lia.
    by destruct (p x).
Qed.

(** The list that [merge_node] returns is the list of the matches in
    the graph that it returns, and it is never empty. *)
Lemma merge_node_ids lbl k v g g' ids :
  merge_node lbl k v g = (g', ids) ->
  ids = match_nodes (Some lbl) k (PStr v) g' /\ ids <> [].
Proof.
  unfold merge_node.
  destruct (match_nodes (Some lbl) k (PStr v) g) as [|j js] eqn:Hm.
  - intros [= <- <-]. split; [|done].
    unfold match_nodes in *. simpl. rewrite positions_app, Hm. simpl.
    unfold node_matches, prop. simpl. rewrite lookup_singleton_eq. simpl.
    by rewrite !String.eqb_refl.
  - intros [= <- <-]. by rewrite Hm.
Qed.

Lemma set_plus_idemp (props old : gmap string pyval) :
  set_plus props (set_plus props old) = set_plus props old.
Proof.
  apply map_eq. intros key. rewrite !lookup_set_plus.
  by destruct (props !! key) as [[]|].
Qed.

(** A [SET x += props] that leaves the merge key alone, or writes the
    same id again, keeps a matching node matching. *)
Lemma node_matches_update lbl k v props n :
  props !! k = None \/ props !! k = Some (PStr v) ->
  node_matches (Some lbl) k (PStr v) n = true ->
  node_matches (Some lbl) k (PStr v) (update_node (set_plus props) n) = true.
Proof.
  unfold node_matches, prop. simpl. intros Hk Hn.
  rewrite lookup_set_plus. destruct Hk as [-> | ->]; [done|].
  apply andb_true_iff in Hn as [-> _]. simpl. by rewrite String.eqb_refl.
Qed.

Lemma match_nodes_update lbl k v props g :
  props !! k = None \/ props !! k = Some (PStr v) ->
  let ids := match_nodes (Some lbl) k (PStr v) g in
  match_nodes (Some lbl) k (PStr v) (update_nodes ids (set_plus props) g)
  = ids.
Proof.
  intros Hk ids. unfold match_nodes at 1.
  apply positions_ext.
  - unfold update_nodes. simpl. by rewrite length_imap.
  - intros i x y Hx Hy. rewrite lookup_update_nodes, Hy in Hx.
    simpl in Hx. injection Hx as <-.
    case_bool_decide as Hi; [|done].
    apply elem_of_match_nodes in Hi as (n & Hn & Hmatch).
    rewrite Hy in Hn. injection Hn as <-.
    by rewrite Hmatch, node_matches_update.
Qed.

Lemma update_nodes_idemp ids f g :
  (forall m, f (f m) = f m) ->
  update_nodes ids f (update_nodes ids f g) = update_nodes ids f g.
Proof.
  intros Hf. unfold update_nodes. simpl. f_equal.
  apply list_eq. intros i. rewrite !list_lookup_imap.
  destruct (nodes g !! i) as [n|]; [|done]. simpl.
  case_bool_decide; [|done]. unfold update_node. simpl. by rewrite Hf.
Qed.

(** A node write by merge: doing it again changes nothing. *)
Lemma merge_set_idemp lbl k v props g :
  props !! k = None \/ props !! k = Some (PStr v) ->
  merge_set lbl k v props (merge_set lbl k v props g)
  = merge_set lbl k v props g.
Proof.
  intros Hk.
  assert (exists g1 ids,
             merge_set lbl k v props g = update_nodes ids (set_plus props) g1
             /\ ids = match_nodes (Some lbl) k (PStr v) g1 /\ ids <> [])
    as (g1 & ids & -> & Hids & Hne).
  { unfold merge_set. destruct (merge_node lbl k v g) as [g1 ids] eqn:Hm.
    exists g1, ids. split; [done|]. by apply merge_node_ids in Hm. }
  unfold merge_set, merge_node.
  rewrite Hids at 1. rewrite (match_nodes_update lbl k v props g1 Hk).
  rewrite <- Hids. destruct ids as [|i ids]; [done|].
  apply update_nodes_idemp, set_plus_idemp.
Qed.

Lemma length_create_fold kind owns props persons g :
  length (nodes (foldl (fun g p =>
                          let '(g', o) := create_node kind props g in
                          merge_rel owns g' (p, o)) g persons))
  = length (nodes g) + length persons.
Proof.
  revert g. induction persons as [|p persons IH]; intros g;
    cbn [foldl length]; [lia|].
  rewrite IH. unfold create_node. rewrite nodes_merge_rel. simpl.
  rewrite length_app. simpl. lia.
Qed.

(** A structure node write is a creation: one more node for every
    person that owns the item, whatever the graph holds already. *)
Lemma structure_nodes_grow entity_id struct_type kind owns g item :
  structure_kind struct_type = Some (kind, owns) ->
  length (nodes (_create_reified_structure_nodes_only entity_id struct_type
                   g item))
  = length (nodes g)
    + length (match_nodes (Some "Person") "id" (PStr entity_id) g).
Proof.
  intros Hkind. unfold _create_reified_structure_nodes_only.
  rewrite Hkind. apply length_create_fold.
Qed.

End MergeFacts.

(** C1, as stated, fails below the clearing step: committing the entity
    batch of one person with one occupation a second time, on the graph
    that the first commit left, adds an Occupation node and an ownership
    edge, because the structure node is created, not merged by rid. *)
Lemma C1_counterexample :
  length (nodes Register.once) = 2
  /\ length (nodes Register.twice) = 3
  /\ length (rels Register.once) = 1
  /\ length (rels Register.twice) = 2
  /\ Register.twice <> Register.once.
Proof.
  assert (length (nodes Register.once) = 2) as H1 by (vm_compute; reflexivity).
  assert (length (nodes Register.twice) = 3) as H2 by (vm_compute; reflexivity).
  split; [exact H1|]. split; [exact H2|].
  split; [vm_compute; reflexivity|]. split; [vm_compute; reflexivity|].
  intros Heq. rewrite Heq, H1 in H2. discriminate.
Qed.

(** C1, amended. The pipeline clears the database before it commits, so
    its result does not depend on what the database held, and running it
    again on unchanged input, on the graph that the first run left, gives
    that same graph: no node and no edge is added. A node write by merge
    on the id (the properties leave the key alone or carry the same id) is
    idempotent. A reified-structure node write is a creation: it adds one
    node for every matched owner, whatever the graph already holds. *)
Theorem C1_rerun_after_clear :
  (forall cypher_date cypher_epoch relations report input g g',
      Main.run_import cypher_date cypher_epoch relations report input g
      = Main.run_import cypher_date cypher_epoch relations report input g')
  /\ (forall cypher_date cypher_epoch relations report input g g1,
         Main.run_import cypher_date cypher_epoch relations report input g
         = Ok g1 ->
         Main.run_import cypher_date cypher_epoch relations report input g1
         = Ok g1)
  /\ (forall lbl k v props g,
         props !! k = None \/ props !! k = Some (PStr v) ->
         Cypher.merge_set lbl k v props (Cypher.merge_set lbl k v props g)
         = Cypher.merge_set lbl k v props g)
  /\ (forall entity_id struct_type kind owns g item,
         MasterImport.structure_kind struct_type = Some (kind, owns) ->
         length (nodes (MasterImport._create_reified_structure_nodes_only
                          entity_id struct_type g item))
         = length (nodes g)
           + length (Cypher.match_nodes (Some "Person") "id"
                       (PStr entity_id) g)).
Proof.
  split; [reflexivity|].
  split; [intros ? ? ? ? ? g g1 <-; reflexivity|].
  split; [exact merge_set_idemp | exact structure_nodes_grow].
Qed.

Lemma C1_rerun_after_clear_witness :
  Main.run_import (fun _ => None) (fun _ => None) false false
    {| entities := Register.batch; documents := []; events := [];
       microactions := [] |} Register.once
  = Ok Register.once
  /\ Cypher.merge_set "Person" "id" Register.clerk
       {[ "id" := PStr Register.clerk ]}
       (Cypher.merge_set "Person" "id" Register.clerk
          {[ "id" := PStr Register.clerk ]} Cypher.empty)
     = Cypher.merge_set "Person" "id" Register.clerk
         {[ "id" := PStr Register.clerk ]} Cypher.empty
  /\ length (nodes (MasterImport._create_reified_structure_nodes_only
                      Register.clerk "occupations" Register.once
                      Register.post))
     = 2 + 1.
Proof.
  destruct C1_rerun_after_clear as (Hany & Hagain & Hmerge & Hgrow).
  split; [|split].
  - apply (Hagain _ _ _ _ _ Cypher.empty). reflexivity.
  - apply Hmerge. right. apply lookup_singleton_eq.
  - rewrite (Hgrow _ _ "Occupation" "HAS_OCCUPATION"); [|reflexivity].
    vm_compute. reflexivity.
Defined.

(* ===================================================================== *)
(** * The reply rule                                                      *)
(* ===================================================================== *)

Section ReplyFacts.
Import Cypher RelationCalculator Spec.
Variable cypher_date : string -> option Z.

Lemma select_elem {A B} (p : nat -> A -> result (option B)) l k rows :
  select p k l = Ok rows ->
  forall i b, (i, b) ∈ rows <->
    exists j x, i = k + j /\ l !! j = Some x /\ p i x = Ok (Some b).
Proof.
  revert k rows. induction l as [|a l IH]; intros k rows H i b.
  - simpl in H. injection H as <-. split.
    + intros Hin. by apply elem_of_nil in Hin.
    + by intros (j & x & _ & Hx & _).
  - simpl in H. destruct (p k a) as [o|e] eqn:Hp; [|done]. simpl in H.
    destruct (select p (S k) l) as [rest|] eqn:Hs; [|done]. simpl in H.
    injection H as <-. specialize (IH _ _ Hs i b).
    assert ((i, b) ∈ rest ->
            exists j x, i = k + j /\ (a :: l) !! j = Some x
                        /\ p i x = Ok (Some b)) as Hrest.
    { intros Hin. apply IH in Hin as (j & x & -> & Hx & Hpx).
      exists (S j), x. split; [lia|done]. }
    split.
    + intros Hin. destruct o as [b0|]; [|by apply Hrest].
      apply elem_of_cons in Hin as [[= -> ->] | Hin]; [|by apply Hrest].
      exists 0, a. by rewrite Nat.add_0_r.
    + intros (j & x & -> & Hx & Hpx). destruct j as [|j].
      * simpl in Hx. injection Hx as <-. rewrite Nat.add_0_r in Hpx.
        rewrite Hp in Hpx. injection Hpx as ->.
        rewrite Nat.add_0_r. left.
      * assert ((k + S j, b) ∈ rest) as Hin.
        { apply IH. exists j, x. split; [lia|]. split; [done|].
          by replace (S k + j) with (k + S j) by lia. }
        destruct o; [by right|done].
Qed.

Lemma select_indices {A B} (p : nat -> A -> result (option B)) l k rows :
  select p k l = Ok rows ->
  Forall (fun i => k <= i) rows.*1 /\ NoDup rows.*1.
Proof.
  revert k rows. induction l as [|a l IH]; intros k rows H.
  - simpl in H. injection H as <-. split; constructor.
  - simpl in H. destruct (p k a) as [o|e] eqn:Hp; [|done]. simpl in H.
    destruct (select p (S k) l) as [rest|] eqn:Hs; [|done]. simpl in H.
    injection H as <-. destruct (IH _ _ Hs) as [Hle Hnd].
    assert (Forall (fun i => k <= i) rest.*1) as Hle'.
    { eapply Forall_impl; [exact Hle|]. simpl. lia. }
    destruct o as [b|]; [|done]. simpl. split; [by constructor|].
    constructor; [|done]. intros Hin.
    rewrite Forall_forall in Hle. apply Hle in Hin. lia.
Qed.

Lemma select_total {A B} (p : nat -> A -> result (option B)) l k :
  (forall j x, l !! j = Some x -> exists o, p (k + j) x = Ok o) ->
  exists rows, select p k l = Ok rows.
Proof.
  revert k. induction l as [|a l IH]; intros k Hp; simpl; [by eexists|].
  destruct (Hp 0 a eq_refl) as [o Ho]. rewrite Nat.add_0_r in Ho.
  rewrite Ho. simpl.
  destruct (IH (S k)) as [rest ->].
  { intros j x Hx. replace (S k + j) with (k + S j) by lia. by apply Hp. }
  simpl. by eexists.
Qed.

Lemma date_of_readable n :
  readable cypher_date n = true ->
  not_null (prop "date_start" n) = true ->
  exists d, date_of cypher_date (prop "date_start" n) = Ok d.
Proof.
  unfold readable. intros [_ H]%andb_true_iff Hnn.
  destruct (prop "date_start" n) as [| | |s| |]; try done.
  apply bool_decide_eq_true in H as [d Hd]. exists d. simpl. by rewrite Hd.
Qed.

Lemma flagged_readable n :
  readable cypher_date n = true -> exists b, flagged_reply n = Ok b.
Proof.
  unfold readable, flagged_reply. intros [H _]%andb_true_iff.
  destruct (prop "link_type" n); try done; by eexists.
Qed.

Lemma well_stored_lookup g i n :
  well_stored cypher_date g = true -> nodes g !! i = Some n ->
  is_micro n = true -> readable cypher_date n = true.
Proof.
  unfold well_stored. intros H Hn Hm.
  rewrite forallb_forall in H.
  apply list_elem_of_lookup_2, list_elem_of_In, H in Hn.
  by rewrite Hm in Hn.
Qed.

Lemma reply_row_total g i n :
  (is_micro n = true -> readable cypher_date n = true) ->
  exists b, reply_row g i n = Ok b.
Proof.
  intros H. unfold reply_row. destruct (is_micro n); [|by eexists].
  destruct (flagged_readable n (H eq_refl)) as [b ->]. simpl. by eexists.
Qed.

(** What a true [reply_row] says about the node. *)
Lemma reply_row_true g i n :
  reply_row g i n = Ok true ->
  is_micro n = true
  /\ flagged_reply n = Ok true
  /\ not_null (prop "actor_id" n) = true
  /\ not_null (prop "recipient_id" n) = true
  /\ not_null (prop "date_start" n) = true
  /\ has_out "REPLIES_TO" i g = false.
Proof.
  unfold reply_row. destruct (is_micro n); [|done].
  destruct (flagged_reply n) as [b|]; [|done]. simpl. intros [= H].
  repeat (apply andb_true_iff in H as [H ?]). subst b.
  repeat split; try done. by apply negb_true_iff.
Qed.

Lemma original_row_total reply i n :
  is_micro reply = true -> readable cypher_date reply = true ->
  not_null (prop "date_start" reply) = true ->
  (is_micro n = true -> readable cypher_date n = true) ->
  exists o, original_row cypher_date reply i n = Ok o.
Proof.
  intros Hm Hr Hd Hn. unfold original_row.
  destruct (is_micro n) eqn:Hmn; [|by eexists]. simpl.
  destruct (_ && _) eqn:Hc; [|by eexists].
  apply andb_true_iff in Hc as [_ Hc].
  destruct (date_of_readable n (Hn eq_refl) Hc) as [d ->].
  destruct (date_of_readable reply Hr Hd) as [d' ->]. simpl. by eexists.
Qed.

(** The [WHERE] of the subquery, spelled out. *)
Lemma original_row_some reply i n d :
  original_row cypher_date reply i n = Ok (Some d) <->
  is_micro n = true
  /\ Cypher.eq (prop "actor_id" n) (prop "recipient_id" reply) = true
  /\ Cypher.eq (prop "recipient_id" n) (prop "actor_id" reply) = true
  /\ date_of cypher_date (prop "date_start" n) = Ok d
  /\ exists d_reply,
       date_of cypher_date (prop "date_start" reply) = Ok d_reply
       /\ (d < d_reply)%Z.
Proof.
  unfold original_row. split.
  - destruct (_ && _) eqn:Hc; [|done].
    repeat (apply andb_true_iff in Hc as [Hc ?]).
    destruct (date_of _ (prop "date_start" n)) as [dn|]; [|done]. simpl.
    destruct (date_of _ (prop "date_start" reply)) as [dr|]; [|done]. simpl.
    destruct (dn <? dr)%Z eqn:Hlt; [|done]. intros [= <-].
    repeat split; try done. exists dr. split; [done|]. lia.
  - intros (-> & -> & -> & Hd & dr & Hdr & Hlt). simpl.
    assert (not_null (prop "date_start" n) = true) as ->.
    { by destruct (prop "date_start" n). }
    rewrite Hd, Hdr. simpl.
    by destruct (Z.ltb_spec d dr); [|lia].
Qed.

Lemma candidates_total g reply :
  well_stored cypher_date g = true ->
  is_micro reply = true -> readable cypher_date reply = true ->
  not_null (prop "date_start" reply) = true ->
  exists cs, candidates cypher_date g reply = Ok cs.
Proof.
  intros Hg Hm Hr Hd. apply select_total. intros j x Hx.
  apply original_row_total; try done.
  by apply (well_stored_lookup g j).
Qed.

Lemma candidates_nodes g g' reply :
  nodes g' = nodes g ->
  candidates cypher_date g' reply = candidates cypher_date g reply.
Proof. unfold candidates. by intros ->. Qed.

Lemma elem_of_insert_desc x l z :
  z ∈ insert_desc x l <-> z = x \/ z ∈ l.
Proof.
  induction l as [|y l IH]; simpl.
  - rewrite list_elem_of_singleton. set_solver.
  - destruct (_ <=? _)%Z; set_solver.
Qed.

Lemma elem_of_foldl_insert l acc z :
  z ∈ foldl (fun acc x => insert_desc x acc) acc l <-> z ∈ acc \/ z ∈ l.
Proof.
  revert acc. induction l as [|x l IH]; intros acc; simpl.
  - set_solver.
  - rewrite IH, elem_of_insert_desc. set_solver.
Qed.

Lemma head_is_max_insert x l :
  head_is_max l -> head_is_max (insert_desc x l).
Proof.
  destruct l as [|y l]; simpl.
  - intros _ z Hz. apply list_elem_of_singleton in Hz as ->. lia.
  - intros Hmax. destruct (Z.leb_spec x.2 y.2).
    + intros z Hz. apply elem_of_cons in Hz as [-> | Hz]; [lia|].
      apply elem_of_insert_desc in Hz as [-> | Hz]; [done|].
      apply Hmax. by right.
    + intros z Hz. apply elem_of_cons in Hz as [-> | Hz]; [lia|].
      apply Hmax in Hz. lia.
Qed.

Lemma head_is_max_foldl l acc :
  head_is_max acc ->
  head_is_max (foldl (fun acc x => insert_desc x acc) acc l).
Proof.
  revert acc. induction l as [|x l IH]; intros acc Hacc; simpl; [done|].
  by apply IH, head_is_max_insert.
Qed.

Lemma head_order_desc cs :
  match head (order_desc cs) with
  | None => cs = []
  | Some (o, d) =>
      (o, d) ∈ cs /\ forall o' d', (o', d') ∈ cs -> (d' <= d)%Z
  end.
Proof.
  unfold order_desc.
  pose proof (head_is_max_foldl cs [] I) as Hmax.
  pose proof (elem_of_foldl_insert cs []) as Hel.
  destruct (foldl _ _ cs) as [|[o d] l]; simpl.
  - destruct cs as [|c cs]; [done|].
    exfalso. apply (elem_of_nil c), Hel. right. left.
  - split.
    + destruct (Hel (o, d)) as [[H|H] _]; [left| |done].
      by apply elem_of_nil in H.
    + intros o' d' Hin. apply (Hmax (o', d')), Hel. by right.
Qed.

Lemma replies_from_app r (g : Graph) l1 l2 :
  rels g = (l1 ++ l2)%list ->
  replies_from r g
  = (replies_from r {| nodes := nodes g; rels := l1 |}
     ++ replies_from r {| nodes := nodes g; rels := l2 |})%list.
Proof. unfold replies_from. intros ->. simpl. apply List.filter_app. Qed.

Lemma has_out_replies_from r g :
  has_out "REPLIES_TO" r g = false <-> replies_from r g = [].
Proof.
  unfold has_out, replies_from.
  induction (rels g) as [|e l IH]; simpl; [done|].
  destruct (_ && _); simpl; [|done]. split; done.
Qed.

(** [SET r += props] on the edges from [src] leaves the edges from
    another node as they are. *)
Lemma filter_set_other r src ty dst props (l : list Rel) :
  src <> r ->
  List.filter (fun e => Nat.eqb (rel_src e) r
                        && String.eqb (rel_type e) "REPLIES_TO")
    ((fun e => if rel_is src ty dst e
               then {| rel_src := rel_src e; rel_type := rel_type e;
                       rel_dst := rel_dst e;
                       rel_props := set_plus props (rel_props e) |}
               else e) <$> l)
  = List.filter (fun e => Nat.eqb (rel_src e) r
                          && String.eqb (rel_type e) "REPLIES_TO") l.
Proof.
  intros Hne. induction l as [|e l IH]; [done|]. cbn [fmap list_fmap List.filter].
  change (list_fmap _ _ ?f l) with (f <$> l). rewrite IH.
  destruct (rel_is src ty dst e) eqn:Hrel; [|done]. simpl.
  unfold rel_is in Hrel.
  apply andb_true_iff in Hrel as [[Hs%Nat.eqb_eq _]%andb_true_iff _].
  destruct (Nat.eqb_spec (rel_src e) r); [congruence|done].
Qed.

Lemma replies_from_merge_other r ty props g src dst :
  src <> r ->
  replies_from r (merge_rel_set ty props g (src, dst)) = replies_from r g.
Proof.
  intros Hne. unfold replies_from, merge_rel_set. simpl.
  rewrite filter_set_other by done.
  unfold merge_rel. destruct (existsb _ _); [done|]. simpl.
  rewrite List.filter_app. simpl.
  destruct (Nat.eqb_spec src r); [done|]. simpl. by rewrite app_nil_r.
Qed.

Lemma filter_set_none r o props (l : list Rel) :
  List.filter (fun e => Nat.eqb (rel_src e) r
                        && String.eqb (rel_type e) "REPLIES_TO") l = [] ->
  List.filter (fun e => Nat.eqb (rel_src e) r
                        && String.eqb (rel_type e) "REPLIES_TO")
    ((fun e => if rel_is r "REPLIES_TO" o e
               then {| rel_src := rel_src e; rel_type := rel_type e;
                       rel_dst := rel_dst e;
                       rel_props := set_plus props (rel_props e) |}
               else e) <$> l) = []
  /\ existsb (rel_is r "REPLIES_TO" o) l = false.
Proof.
  induction l as [|e l IH]; [done|]. intros Hl. cbn [List.filter] in Hl.
  destruct (Nat.eqb (rel_src e) r && String.eqb (rel_type e) "REPLIES_TO")
    eqn:He; [done|].
  assert (rel_is r "REPLIES_TO" o e = false) as Hrel.
  { unfold rel_is. by rewrite He. }
  cbn [fmap list_fmap List.filter existsb].
  change (list_fmap _ _ ?f l) with (f <$> l).
  rewrite Hrel, He. simpl. by apply IH.
Qed.

Lemma replies_from_merge_self r o props g :
  replies_from r g = [] ->
  replies_from r (merge_rel_set "REPLIES_TO" props g (r, o))
  = [ {| rel_src := r; rel_type := "REPLIES_TO"; rel_dst := o;
         rel_props := set_plus props ∅ |} ].
Proof.
  unfold replies_from, merge_rel_set, merge_rel. intros Hnone.
  destruct (filter_set_none r o props (rels g) Hnone) as [Hf ->].
  simpl. rewrite fmap_app, List.filter_app, Hf. simpl.
  unfold rel_is. simpl. by rewrite !Nat.eqb_refl.
Qed.

Lemma link_reply_step g g0 c0 i n cs :
  nodes g0 = nodes g ->
  candidates cypher_date g n = Ok cs ->
  link_reply cypher_date (Ok (g0, c0)) (i, n)
  = Ok match fst <$> head (order_desc cs) with
       | Some o => (merge_rel_set "REPLIES_TO" COMPUTED g0 (i, o), S c0)
       | None => (g0, c0)
       end.
Proof.
  intros Hn Hc. unfold link_reply, latest_original. simpl.
  by rewrite (candidates_nodes g g0 n Hn), Hc.
Qed.

(** The replies other than [r] leave the edges of [r] alone. *)
Lemma link_others g r replies g0 c0 :
  nodes g0 = nodes g ->
  r ∉ replies.*1 ->
  (forall i n, (i, n) ∈ replies ->
               exists cs, candidates cypher_date g n = Ok cs) ->
  exists g1 c1,
    foldl (link_reply cypher_date) (Ok (g0, c0)) replies = Ok (g1, c1)
    /\ nodes g1 = nodes g
    /\ replies_from r g1 = replies_from r g0.
Proof.
  revert g0 c0. induction replies as [|[i n] replies IH];
    intros g0 c0 Hn Hr Hcs; cbn [foldl].
  - by exists g0, c0.
  - apply not_elem_of_cons in Hr as [Hri Hr].
    destruct (Hcs i n) as [cs Hc]; [left|].
    rewrite (link_reply_step g g0 c0 i n cs Hn Hc).
    destruct (head (order_desc cs)) as [[o d]|];
      cbn [fmap option_fmap option_map fst].
    + destruct (IH (merge_rel_set "REPLIES_TO" COMPUTED g0 (i, o)) (S c0))
        as (g1 & c1 & -> & Hn1 & Hf1).
      * by rewrite nodes_merge_rel_set.
      * done.
      * intros i' n' Hin. apply (Hcs i' n'). by right.
      * exists g1, c1. split; [done|]. split; [done|].
        rewrite Hf1. apply replies_from_merge_other. simpl in Hri. congruence.
    + apply IH; try done. intros i' n' Hin. apply (Hcs i' n'). by right.
Qed.

End ReplyFacts.

Section ReplyRule.
Import Cypher RelationCalculator Spec.

Lemma set_plus_computed : set_plus COMPUTED ∅ = COMPUTED.
Proof.
  apply map_eq. intros key. rewrite lookup_set_plus. unfold COMPUTED.
  destruct (decide (key = "computed")) as [->|Hne].
  - by rewrite lookup_singleton_eq.
  - by rewrite lookup_singleton_ne.
Qed.

End ReplyRule.

(** C9, as stated, fails on a graph that holds a start date which the
    backend does not read as a date; the import stores a free-text date
    expression as it is.  The reply [B] is flagged and has actor,
    recipient and start date, its candidates are [A] and [C] and [A] is
    the later one; but the query reaches the reply [E] of another
    exchange, whose start date is free text, and fails as a whole: no
    edge is created. *)
Lemma C9_counterexample :
  nodes Letters.stalled !! 1 = Some Letters.B
  /\ RelationCalculator.reply_row Letters.stalled 1 Letters.B = Ok true
  /\ RelationCalculator.candidates Letters.day Letters.stalled Letters.B
     = Ok [(0, 20200110%Z); (2, 20200101%Z)]
  /\ RelationCalculator.calculate_replies_to Letters.day Letters.stalled
     = Raise CypherError
  /\ Spec.commit_triple "early 2020"
     = (Some "early 2020", Some "early 2020", "exact")
  /\ Letters.day "early 2020" = None.
Proof. repeat split; vm_compute; reflexivity. Qed.

(** C9, amended.  In a graph in which every micro-action has a link type
    that is text or null and a start date that is null or a text which
    the backend reads as a date, take a micro-action that the reply rule
    selects (flagged as a reply, with actor, recipient and start date, and
    without a reply edge yet): the rule runs to its end and leaves the
    nodes alone; the candidates are the micro-actions with actor and
    recipient swapped and a start date strictly before the reply's; when
    there is none, no reply edge leaves the reply; otherwise exactly one
    does, marked as computed, to a candidate whose date no other
    candidate exceeds. *)
Theorem C9_reply_links_latest_original :
  forall (cypher_date : string -> option Z) (g : Graph) (r : nat)
         (reply : Node),
    Spec.well_stored cypher_date g = true ->
    nodes g !! r = Some reply ->
    RelationCalculator.reply_row g r reply = Ok true ->
    exists g' created cs,
      RelationCalculator.calculate_replies_to cypher_date g = Ok (g', created)
      /\ nodes g' = nodes g
      /\ RelationCalculator.candidates cypher_date g reply = Ok cs
      /\ (forall o d,
            (o, d) ∈ cs <->
            exists n,
              nodes g !! o = Some n
              /\ RelationCalculator.is_micro n = true
              /\ Cypher.eq (Cypher.prop "actor_id" n)
                   (Cypher.prop "recipient_id" reply) = true
              /\ Cypher.eq (Cypher.prop "recipient_id" n)
                   (Cypher.prop "actor_id" reply) = true
              /\ RelationCalculator.date_of cypher_date
                   (Cypher.prop "date_start" n) = Ok d
              /\ exists d_reply,
                   RelationCalculator.date_of cypher_date
                     (Cypher.prop "date_start" reply) = Ok d_reply
                   /\ (d < d_reply)%Z)
      /\ match cs with
         | [] => Spec.replies_from r g' = []
         | _ :: _ =>
             exists o d,
               (o, d) ∈ cs
               /\ (forall o' d', (o', d') ∈ cs -> (d' <= d)%Z)
               /\ Spec.replies_from r g'
                  = [ {| rel_src := r; rel_type := "REPLIES_TO";
                         rel_dst := o;
                         rel_props := RelationCalculator.COMPUTED |} ]
         end.
Proof.
  intros cypher_date g r reply Hg Hr Hrow.
  destruct (reply_row_true _ _ _ Hrow) as (Hm & _ & _ & _ & Hd & Hout).
  apply has_out_replies_from in Hout.
  pose proof (well_stored_lookup cypher_date g r reply Hg Hr Hm) as Hread.
  destruct (candidates_total cypher_date g reply Hg Hm Hread Hd) as [cs Hcs].
  unfold RelationCalculator.calculate_replies_to.
  destruct (select_total
              (fun (i : nat) (n : Node) =>
                 b ← RelationCalculator.reply_row g i n;
                 Ok (if b : bool then Some n else None)) (nodes g) 0)
    as [replies Hsel].
  { intros j x Hx.
    destruct (reply_row_total cypher_date g j x) as [b Hb].
    { intros Hmx. by eapply well_stored_lookup. }
    simpl. rewrite Hb. simpl. by eexists. }
  rewrite Hsel. simpl.
  pose proof (select_elem _ _ _ _ Hsel) as Hel.
  destruct (select_indices _ _ _ _ Hsel) as [_ Hnd].
  assert ((r, reply) ∈ replies) as Hin.
  { apply Hel. exists r, reply. split; [done|]. split; [done|].
    by rewrite Hrow. }
  assert (forall i n, (i, n) ∈ replies ->
            exists cs, RelationCalculator.candidates cypher_date g n = Ok cs)
    as Hall.
  { intros i n Hi. apply Hel in Hi as (j & x & -> & Hx & Hp).
    destruct (RelationCalculator.reply_row g (0 + j) x) as [b|] eqn:Hb;
      [|done].
    simpl in Hp. destruct b; [|done]. injection Hp as ->.
    destruct (reply_row_true _ _ _ Hb) as (Hm' & _ & _ & _ & Hd' & _).
    apply candidates_total; try done. by eapply well_stored_lookup. }
  apply list_elem_of_split in Hin as (l1 & l2 & ->).
  rewrite fmap_app, fmap_cons in Hnd.
  apply NoDup_app in Hnd as (_ & Hnot & Hnd2).
  apply NoDup_cons in Hnd2 as [Hr2 _].
  assert (r ∉ l1.*1) as Hr1.
  { intros H. apply (Hnot r H). left. }
  rewrite foldl_app. cbn [foldl].
  destruct (link_others cypher_date g r l1 g 0 eq_refl Hr1)
    as (g1 & c1 & -> & Hn1 & Hf1).
  { intros i n Hi. apply (Hall i n). apply elem_of_app. by left. }
  rewrite (link_reply_step cypher_date g g1 c1 r reply cs Hn1 Hcs).
  assert (forall o d,
            (o, d) ∈ cs <->
            exists n,
              nodes g !! o = Some n
              /\ RelationCalculator.is_micro n = true
              /\ Cypher.eq (Cypher.prop "actor_id" n)
                   (Cypher.prop "recipient_id" reply) = true
              /\ Cypher.eq (Cypher.prop "recipient_id" n)
                   (Cypher.prop "actor_id" reply) = true
              /\ RelationCalculator.date_of cypher_date
                   (Cypher.prop "date_start" n) = Ok d
              /\ exists d_reply,
                   RelationCalculator.date_of cypher_date
                     (Cypher.prop "date_start" reply) = Ok d_reply
                   /\ (d < d_reply)%Z) as Hchar.
  { intros o d. rewrite (select_elem _ _ _ _ Hcs). split.
    - intros (j & x & -> & Hx & Hp). exists x. split; [done|].
      by apply (original_row_some cypher_date reply (0 + j)).
    - intros (n & Hn & H). exists o, n. split; [done|]. split; [done|].
      by apply original_row_some. }
  assert (forall g2 c2,
            nodes g2 = nodes g ->
            exists g' created,
              foldl (RelationCalculator.link_reply cypher_date)
                (Ok (g2, c2)) l2 = Ok (g', created)
              /\ nodes g' = nodes g
              /\ Spec.replies_from r g' = Spec.replies_from r g2) as Hrest.
  { intros g2 c2 Hn2. apply link_others; try done.
    intros i n Hi. apply (Hall i n). apply elem_of_app. right. by right. }
  pose proof (head_order_desc cs) as Hhead.
  destruct (head (RelationCalculator.order_desc cs)) as [[o d]|];
    cbn [fmap option_fmap option_map fst].
  - destruct Hhead as [Ho Hmax].
    destruct (Hrest (Cypher.merge_rel_set "REPLIES_TO"
                       RelationCalculator.COMPUTED g1 (r, o)) (S c1))
      as (g' & created & -> & Hn' & Hf').
    { by rewrite nodes_merge_rel_set. }
    exists g', created, cs. repeat (split; [done|]).
    destruct cs as [|c cs]; [by apply elem_of_nil in Ho|].
    exists o, d. split; [done|]. split; [done|].
    rewrite Hf', replies_from_merge_self, set_plus_computed; [done|].
    by rewrite Hf1.
  - subst cs.
    destruct (Hrest g1 c1 Hn1) as (g' & created & -> & Hn' & Hf').
    exists g', created, []. repeat (split; [done|]).
    by rewrite Hf', Hf1.
Qed.

Lemma C9_reply_links_latest_original_witness :
  exists g' created,
    RelationCalculator.calculate_replies_to Letters.day Letters.graph
    = Ok (g', created)
    /\ Spec.replies_from 1 g'
       = [ {| rel_src := 1; rel_type := "REPLIES_TO"; rel_dst := 0;
              rel_props := RelationCalculator.COMPUTED |} ].
Proof.
  destruct (C9_reply_links_latest_original Letters.day Letters.graph 1
              Letters.B)
    as (g' & created & cs & Hrun & _ & Hcs & _ & Hlink).
  - vm_compute. reflexivity.
  - reflexivity.
  - vm_compute. reflexivity.
  - exists g', created. split; [exact Hrun|].
    assert (cs = [(0, 20200110%Z); (2, 20200101%Z)]) as ->.
    { vm_compute in Hcs. by injection Hcs as <-. }
    destruct Hlink as (o & d & Ho & Hmax & Hedge).
    assert (o = 0) as ->; [|exact Hedge].
    pose proof (Hmax 0 20200110%Z ltac:(left)) as Hle.
    apply elem_of_cons in Ho as [[= -> ->] | Ho]; [done|].
    apply list_elem_of_singleton in Ho as [= -> ->]. lia.
Defined.

(* ===================================================================== *)
(** * The date parser: errors, modifiers and the shape of the results     *)
(* ===================================================================== *)

Section EDTFEdges.
Import PyStr Regex EDTFParser Spec.

Lemma split_char_nonempty (sep : ascii) (s : string) : split_char sep s <> [].
Proof.
  destruct s as [|c s]; simpl; [done|].
  destruct (Ascii.eqb c sep); [done|]. by destruct (split_char sep s).
Qed.

(** A text that holds the separator splits into two pieces at least. *)
Lemma split_char_two (sep : ascii) (s : string) :
  mem sep s = true -> exists a b rest, split_char sep s = a :: b :: rest.
Proof.
  induction s as [|c s IH]; simpl; [done|].
  rewrite Ascii.eqb_sym. destruct (Ascii.eqb c sep); simpl.
  - intros _. pose proof (split_char_nonempty sep s).
    destruct (split_char sep s) as [|b rest]; [done|]. by eexists _, _, _.
  - intros H. destruct (IH H) as (a & b & rest & ->). by eexists _, _, _.
Qed.

Lemma at_end_cases (r : string) :
  at_end r = true -> r = EmptyString \/ r = nl.
Proof.
  unfold at_end. intros [H|H]%orb_true_iff; apply String.eqb_eq in H; auto.
Qed.

(** What [^\d{4}-\d{2}$] accepts: the token, and a final line feed
    perhaps. *)
Lemma re_year_month_shape (s : string) :
  re_year_month s = true ->
  exists y mo tail,
    s = y +:+ "-" +:+ mo +:+ tail
    /\ exactly YEAR y /\ exactly [D; D] mo
    /\ (tail = EmptyString \/ tail = nl).
Proof.
  unfold re_year_month, re_anchored.
  destruct (match_toks YEAR_MONTH s) as [r|] eqn:Hm; [|done].
  intros Hr%at_end_cases.
  destruct s as [|c1 [|c2 [|c3 [|c4 [|c5 [|c6 [|c7 r']]]]]]];
    cbn in Hm; try done;
    destruct (is_digit c1) eqn:E1; try done;
    destruct (is_digit c2) eqn:E2; try done;
    destruct (is_digit c3) eqn:E3; try done;
    destruct (is_digit c4) eqn:E4; try done;
    destruct (Ascii.eqb c5 "-") eqn:E5; try done;
    destruct (is_digit c6) eqn:E6; try done;
    destruct (is_digit c7) eqn:E7; try done.
  injection Hm as ->. apply Ascii.eqb_eq in E5 as ->.
  exists (String c1 (String c2 (String c3 (String c4 EmptyString)))),
    (String c6 (String c7 EmptyString)), r.
  split; [done|]. split; [|split; [|done]].
  - unfold exactly, YEAR. cbn. by rewrite E1, E2, E3, E4.
  - unfold exactly. cbn. by rewrite E6, E7.
Qed.

Lemma strip_digits_tail (mo tail : string) :
  all_chars is_digit mo = true -> tail = EmptyString \/ tail = nl ->
  strip (mo +:+ tail) = mo.
Proof.
  intros Hd Ht.
  assert (all_chars (fun c => negb (is_space c)) mo = true) as Hns.
  { eapply all_chars_weaken; [|exact Hd]. intros c Hc. simpl.
    apply negb_true_iff, date_char_space. unfold date_char. by rewrite Hc. }
  unfold strip, strip_by.
  rewrite rstrip_by_app_all by (by destruct Ht as [-> | ->]).
  by rewrite rstrip_by_id, lstrip_by_id.
Qed.

Lemma split_year_month (y mo tail : string) :
  exactly YEAR y -> exactly [D; D] mo ->
  tail = EmptyString \/ tail = nl ->
  split_char "-" (y +:+ "-" +:+ mo +:+ tail) = [y; mo +:+ tail]
  /\ int y = Some (value y) /\ int (mo +:+ tail) = Some (value mo).
Proof.
  intros Hy Hmo Ht.
  destruct (exactly_digits 4 y Hy) as [Hyd Hyl].
  destruct (exactly_digits 2 mo Hmo) as [Hmd Hml].
  destruct (nonempty_of_length y 3 Hyl) as [_ Hyne].
  destruct (nonempty_of_length mo 1 Hml) as [_ Hmne].
  split; [|split].
  - change ("-" +:+ mo +:+ tail) with (String "-"%char (mo +:+ tail)).
    rewrite split_char_app by (by apply mem_dash_digits).
    rewrite split_char_none; [done|].
    rewrite mem_app, (mem_dash_digits mo Hmd).
    by destruct Ht as [-> | ->].
  - by apply int_digits.
  - pose proof (int_digits mo Hmd Hmne) as Hi. unfold int in *.
    rewrite (strip_digits_tail mo tail Hmd Ht).
    destruct (date_text_facts mo (digits_date_char mo Hmd)) as [Hs _].
    by rewrite Hs in Hi.
Qed.

(** The normalizer raises in one place only: the end of a year-month
    whose month the calendar refuses. *)
Lemma normalize_raises (s : string) (start : bool) (e : exn) :
  _normalize_single_date s start = Raise e ->
  start = false
  /\ exists m, e = IllegalMonthError m /\ (m < 1 \/ 12 < m)%Z.
Proof.
  unfold _normalize_single_date.
  destruct (negb (truthy s)); [done|]. cbv zeta.
  remember (rstrip_chars "~?" s) as ds eqn:Hds. clear Hds.
  destruct (re_year ds); [done|].
  destruct (re_year_month ds) eqn:Hym; [|by destruct (re_full ds)].
  destruct (re_year_month_shape ds Hym) as (y & mo & tail & -> & Hy & Hmo & Ht).
  destruct (split_year_month y mo tail Hy Hmo Ht) as (-> & -> & ->).
  destruct start; [done|].
  unfold Calendar.monthrange_days.
  destruct (_ && _)%Z eqn:Hm; [done|]. cbn [mbind result_bind].
  intros [= <-]. split; [done|]. exists (value mo). split; [done|]. lia.
Qed.

Lemma normalize_start_ok (s : string) :
  exists d, _normalize_single_date s true = Ok d.
Proof.
  destruct (_normalize_single_date s true) as [d|e] eqn:E; [by eexists|].
  by apply normalize_raises in E as [? _].
Qed.

End EDTFEdges.

(** X1.  Whatever the text, [EDTFParser.parse] raises no error but the
    calendar's one for an illegal month, and that one only with a month
    number outside 1..12. *)
Theorem edtf_parse_raises_only_illegal_month :
  forall (s : string) (e : exn),
    EDTFParser.parse s = Raise e ->
    exists m, e = IllegalMonthError m /\ (m < 1 \/ 12 < m)%Z.
Proof.
  intros s e. unfold EDTFParser.parse.
  destruct (_ || _); [done|]. cbv zeta.
  remember (PyStr.strip s) as edtf eqn:Hedtf. clear Hedtf.
  destruct (PyStr.startswith "../" edtf).
  { destruct (normalize_start_ok (PyStr.drop 3 edtf)) as [d ->]. done. }
  destruct (PyStr.endswith "/.." edtf).
  { destruct (normalize_start_ok (PyStr.drop_last 3 edtf)) as [d ->]. done. }
  destruct (PyStr.mem "/" edtf) eqn:Hm.
  { destruct (split_char_two _ _ Hm) as (a & b & rest & ->).
    destruct (normalize_start_ok a) as [d ->].
    destruct (normalize_start_ok b) as [d' ->]. done. }
  assert (forall (base precision : string),
            (date_start ← EDTFParser._normalize_single_date base true;
             date_end ← EDTFParser._normalize_single_date base false;
             Ok (date_start, date_end, precision) : result EDTFParser.triple)
            = Raise e ->
            exists m, e = IllegalMonthError m /\ (m < 1 \/ 12 < m)%Z) as Hboth.
  { intros base precision.
    destruct (normalize_start_ok base) as [d ->]. cbn [mbind result_bind].
    destruct (EDTFParser._normalize_single_date base false) as [d'|e'] eqn:E;
      cbn [mbind result_bind]; [done|].
    intros [= <-]. by apply normalize_raises in E as [_ ?]. }
  destruct (PyStr.endswith "~" edtf); [by apply Hboth|].
  destruct (PyStr.endswith "?" edtf); [by apply Hboth|].
  by apply Hboth.
Qed.

Lemma edtf_parse_raises_only_illegal_month_witness :
  exists m, IllegalMonthError 13 = IllegalMonthError m /\ (m < 1 \/ 12 < m)%Z.
Proof.
  apply (edtf_parse_raises_only_illegal_month "1942-13").
  vm_compute. reflexivity.
Defined.

Section EDTFSuffixes.
Import PyStr Regex EDTFParser Spec.

Lemma append_empty (s : string) : s +:+ EmptyString = s.
Proof.
  induction s as [|c s IH]; [done|]. by rewrite append_cons, IH.
Qed.

Lemma endswith_app (p t : string) : endswith p (t +:+ p) = true.
Proof.
  induction t as [|c t IH].
  - destruct p; simpl; [done|]. by rewrite Ascii.eqb_refl, String.eqb_refl.
  - rewrite append_cons. simpl. by rewrite IH, orb_true_r.
Qed.

Lemma drop_last_app (t p : string) :
  drop_last (String.length p) (t +:+ p) = t.
Proof.
  unfold drop_last. rewrite string_length_app.
  replace (String.length t + String.length p - String.length p)%nat
    with (String.length t) by lia.
  apply string_take_app.
Qed.

Lemma date_char_first (c : ascii) :
  date_char c = true -> Ascii.eqb "." c = false /\ Ascii.eqb c "." = false.
Proof. destruct c as [[] [] [] [] [] [] [] []]; by vm_compute. Qed.

(** What the first tests of [parse] see in a date token followed by a
    suffix without white space. *)
Lemma suffixed_facts (t u : string) :
  all_chars date_char t = true -> t <> EmptyString ->
  all_chars (fun c => negb (is_space c)) u = true ->
  let s := t +:+ u in
  negb (truthy s) || String.eqb s "../.." = false
  /\ strip s = s
  /\ startswith "../" s = false
  /\ (forall x, mem x t = false -> mem x s = mem x u)
  /\ endswith u s = true
  /\ drop_last (String.length u) s = t.
Proof.
  intros Hc Hne Hu s.
  assert (exists c t', t = String c t' /\ date_char c = true)
    as (c & t' & Ht & Hcc).
  { destruct t as [|c t']; [done|]. exists c, t'. split; [done|].
    simpl in Hc. by apply andb_true_iff in Hc as [? _]. }
  split; [|split; [|split; [|split; [|split]]]].
  - unfold s. rewrite Ht, append_cons. simpl.
    destruct (date_char_first c Hcc) as [_ H2]. by rewrite H2.
  - unfold strip. apply strip_by_id. unfold s. rewrite all_chars_app.
    apply andb_true_iff. split; [|done].
    eapply all_chars_weaken; [|exact Hc]. intros a Ha. simpl.
    by rewrite (date_char_space a Ha).
  - unfold s. rewrite Ht, append_cons. cbn [startswith].
    destruct (date_char_first c Hcc) as [H1 _]. by rewrite H1.
  - intros x Hx. unfold s. by rewrite mem_app, Hx.
  - apply endswith_app.
  - apply drop_last_app.
Qed.

Lemma endswith_absent (x : ascii) (p s : string) :
  mem x p = true -> mem x s = false -> endswith p s = false.
Proof.
  intros Hp Hs. destruct (endswith p s) eqn:H; [|done].
  apply (endswith_mem x) in H; [congruence | done].
Qed.

(** A date token followed by [~] or [?]: both sides are normalized as
    for the bare token. *)
Lemma parse_modified (t : string) (u : ascii) :
  all_chars date_char t = true -> t <> EmptyString ->
  u = "~"%char \/ u = "?"%char ->
  parse (t +:+ String u EmptyString)
  = (date_start ← _normalize_single_date t true;
     date_end ← _normalize_single_date t false;
     Ok (date_start, date_end,
         if Ascii.eqb u "~" then "circa" else "uncertain")).
Proof.
  intros Hc Hne Hu.
  destruct (date_text_facts t Hc) as (_ & _ & Hslash & Htilde & Hq & Hdot).
  destruct (suffixed_facts t (String u EmptyString) Hc Hne)
    as (H0 & Hstrip & H1 & Hmem & Hend & Hdrop).
  { by destruct Hu as [-> | ->]. }
  cbv zeta in *. simpl String.length in Hdrop.
  assert (mem "/" (t +:+ String u EmptyString) = false) as Hs.
  { rewrite (Hmem "/"%char Hslash). by destruct Hu as [-> | ->]. }
  unfold parse. rewrite H0, Hstrip, H1. cbv zeta.
  rewrite (endswith_absent "/" "/.." _ eq_refl Hs), Hs.
  destruct Hu as [-> | ->].
  - by rewrite Hend, Hdrop.
  - rewrite (endswith_absent "~" "~" (t +:+ "?") eq_refl)
      by (by rewrite (Hmem "~"%char Htilde)).
    by rewrite Hend, Hdrop.
Qed.

(** A date token followed by [/..]. *)
Lemma parse_open_end (t : string) :
  all_chars date_char t = true -> t <> EmptyString ->
  parse (t +:+ "/..")
  = (date_start ← _normalize_single_date t true;
     Ok (date_start, None, "after")).
Proof.
  intros Hc Hne.
  destruct (suffixed_facts t "/.." Hc Hne eq_refl)
    as (H0 & Hstrip & H1 & _ & Hend & Hdrop).
  cbv zeta in *. simpl String.length in Hdrop.
  unfold parse. by rewrite H0, Hstrip, H1, Hend, Hdrop.
Qed.

(** The start side of a year-month is not checked against the
    calendar. *)
Lemma normalize_year_month_start (y mo : string) :
  exactly YEAR y -> exactly [D; D] mo ->
  _normalize_single_date (y +:+ "-" +:+ mo) true
  = Ok (Some (y +:+ "-" +:+ mo +:+ "-01")).
Proof.
  intros Hy Hm. set (s := y +:+ "-" +:+ mo).
  pose proof (exactly_year_month y mo Hy Hm) as Hs. fold s in Hs.
  assert (all_chars date_char s = true /\ s <> EmptyString) as [Hc Hne].
  { apply (date_chars_of YEAR_MONTH); [tauto | done]. }
  destruct (precision_year_month s Hs) as [_ Hym].
  destruct (date_text_facts s Hc) as (_ & Hr & _).
  destruct (split_year_month y mo EmptyString Hy Hm (or_introl eq_refl))
    as (Hsplit & _ & _).
  pose proof (append_empty mo) as Hmo.
  rewrite Hmo in Hsplit. fold s in Hsplit.
  pose proof (match_toks_length _ _ _ Hs) as Hlen. simpl in Hlen.
  unfold _normalize_single_date.
  assert (negb (truthy s) = false) as -> by (by destruct s).
  cbv zeta. rewrite Hr.
  unfold re_year. rewrite re_anchored_wrong_length by (rewrite Hlen; simpl; lia).
  rewrite Hym, Hsplit. unfold s. by rewrite !append_assoc.
Qed.

Lemma normalize_year_month_illegal (y mo : string) :
  exactly YEAR y -> exactly [D; D] mo ->
  ~ (1 <= value mo <= 12)%Z ->
  _normalize_single_date (y +:+ "-" +:+ mo) false
  = Raise (IllegalMonthError (value mo)).
Proof.
  intros Hy Hm Hbad. set (s := y +:+ "-" +:+ mo).
  pose proof (exactly_year_month y mo Hy Hm) as Hs. fold s in Hs.
  assert (all_chars date_char s = true /\ s <> EmptyString) as [Hc Hne].
  { apply (date_chars_of YEAR_MONTH); [tauto | done]. }
  destruct (precision_year_month s Hs) as [_ Hym].
  destruct (date_text_facts s Hc) as (_ & Hr & _).
  destruct (split_year_month y mo EmptyString Hy Hm (or_introl eq_refl))
    as (Hsplit & Hiy & Him).
  pose proof (append_empty mo) as Hmo.
  rewrite Hmo in Hsplit, Him. fold s in Hsplit.
  pose proof (match_toks_length _ _ _ Hs) as Hlen. simpl in Hlen.
  unfold _normalize_single_date.
  assert (negb (truthy s) = false) as -> by (by destruct s).
  cbv zeta. rewrite Hr.
  unfold re_year. rewrite re_anchored_wrong_length by (rewrite Hlen; simpl; lia).
  rewrite Hym, Hsplit, Hiy, Him.
  unfold Calendar.monthrange_days.
  destruct (_ && _)%Z eqn:Hrange; [lia|]. done.
Qed.

Lemma mem_rstrip_by (x : ascii) (p : ascii -> bool) (s : string) :
  mem x s = false -> mem x (rstrip_by p s) = false.
Proof.
  induction s as [|c s IH]; [done|]. simpl.
  intros [Hc Hs]%orb_false_iff. specialize (IH Hs).
  destruct (rstrip_by p s) as [|c' r].
  - destruct (p c); [done|]. simpl. by rewrite Hc.
  - simpl in *. by rewrite Hc, IH.
Qed.

Lemma rstrip_by_all (p : ascii -> bool) (s : string) :
  all_chars p s = true -> rstrip_by p s = EmptyString.
Proof.
  induction s as [|c s IH]; [done|]. simpl.
  intros [Hc Hs]%andb_true_iff. by rewrite (IH Hs), Hc.
Qed.

(** Without a line feed in the text, an anchored pattern accepts the
    token only. *)
Lemma re_anchored_single_line (ts : list tok) (s : string) :
  mem LF s = false -> re_anchored ts s = true -> exactly ts s.
Proof.
  unfold re_anchored, exactly. intros Hnl.
  destruct (match_toks ts s) as [r|] eqn:Hm; [|done].
  intros [-> | ->]%at_end_cases; [done|]. exfalso.
  apply match_toks_split in Hm as (pre & -> & _).
  rewrite mem_app in Hnl. apply orb_false_iff in Hnl as [_ Hnl].
  by vm_compute in Hnl.
Qed.

Lemma two_digits_of_last_day (y m ld : Z) :
  Calendar.monthrange_days y m = Ok ld ->
  exactly [L "-"%char; D; D] ("-" +:+ fmt02 ld).
Proof.
  unfold Calendar.monthrange_days.
  destruct (_ && _)%Z eqn:Hm; [|done]. intros [= <-].
  assert (m = 1 \/ m = 2 \/ m = 3 \/ m = 4 \/ m = 5 \/ m = 6 \/ m = 7
          \/ m = 8 \/ m = 9 \/ m = 10 \/ m = 11 \/ m = 12)%Z as Hcases by lia.
  destruct (Calendar.isleap y);
    repeat (destruct Hcases as [-> | Hcases]); try subst m;
    by vm_compute.
Qed.

(** Every date that the normalizer returns for a text of one line has
    the shape of a full date. *)
Lemma normalize_shape (s : string) (start : bool) (d : string) :
  mem LF s = false ->
  _normalize_single_date s start = Ok (Some d) -> exactly FULL d.
Proof.
  intros Hnl. unfold _normalize_single_date.
  destruct (negb (truthy s)); [done|]. cbv zeta.
  pose proof (mem_rstrip_by LF (fun c => mem c "~?") s Hnl) as Hds.
  fold (rstrip_chars "~?" s) in Hds.
  remember (rstrip_chars "~?" s) as ds eqn:E. clear E.
  destruct (re_year ds) eqn:Hy.
  { apply (re_anchored_single_line _ _ Hds) in Hy.
    intros [= <-]. unfold exactly.
    destruct start;
      exact (eq_trans
               (match_toks_app YEAR [L "-"%char; D; D; L "-"%char; D; D]
                  ds _ Hy) eq_refl). }
  destruct (re_year_month ds) eqn:Hym.
  { pose proof (re_anchored_single_line _ _ Hds Hym) as Hex.
    destruct (re_year_month_shape ds Hym) as (y & mo & tail & Heq & Hyy & Hmo & Ht).
    destruct (split_year_month y mo tail Hyy Hmo Ht) as (Hsp & Hiy & Him).
    rewrite <- Heq in Hsp. rewrite Hsp, Hiy, Him.
    unfold exactly, FULL.
    destruct start.
    - intros [= <-]. by rewrite (match_toks_app _ _ _ _ Hex).
    - destruct (Calendar.monthrange_days _ _) as [ld|] eqn:Hld; [|done].
      cbn [mbind result_bind]. intros [= <-].
      rewrite (match_toks_app _ _ _ _ Hex).
      by apply (two_digits_of_last_day (value y) (value mo)). }
  destruct (re_full ds) eqn:Hfull; [|done].
  intros [= <-]. by apply re_anchored_single_line.
Qed.

End EDTFSuffixes.

(** X2.  The modifiers [~] and [?] after a date token change the
    precision only: the dates, or the error, are those of the bare
    token. *)
Theorem edtf_modifier_changes_precision_only :
  forall t : string,
    Spec.all_chars Spec.date_char t = true -> t <> EmptyString ->
    EDTFParser.parse (t +:+ "~")
    = (x ← EDTFParser.parse t; Ok (x.1.1, x.1.2, "circa"))
    /\ EDTFParser.parse (t +:+ "?")
       = (x ← EDTFParser.parse t; Ok (x.1.1, x.1.2, "uncertain")).
Proof.
  intros t Hc Hne.
  rewrite (parse_modified t "~" Hc Hne (or_introl eq_refl)).
  rewrite (parse_modified t "?" Hc Hne (or_intror eq_refl)).
  rewrite (parse_plain t Hc Hne).
  destruct (EDTFParser._normalize_single_date t true) as [ds|e];
    cbn [mbind result_bind]; [|done].
  by destruct (EDTFParser._normalize_single_date t false) as [de|e].
Qed.

Lemma edtf_modifier_changes_precision_only_witness :
  EDTFParser.parse "1942-03~"
  = Ok (Some "1942-03-01", Some "1942-03-31", "circa")
  /\ EDTFParser.parse "1942-03?"
     = Ok (Some "1942-03-01", Some "1942-03-31", "uncertain").
Proof.
  exact (edtf_modifier_changes_precision_only "1942-03" eq_refl
           ltac:(discriminate)).
Defined.

(** X3.  An open-ended expression [X/..] keeps the start of [X] and has
    no end, with precision [after]: a year starts on January 1, a
    year-month on day 01, whatever the two digits of the month are, and a
    full date on itself. *)
Theorem edtf_open_end_keeps_start :
  (forall y, Spec.exactly EDTFParser.YEAR y ->
             EDTFParser.parse (y +:+ "/..")
             = Ok (Some (y +:+ "-01-01"), None, "after"))
  /\ (forall y mo,
        Spec.exactly EDTFParser.YEAR y ->
        Spec.exactly [Regex.D; Regex.D] mo ->
        EDTFParser.parse ((y +:+ "-" +:+ mo) +:+ "/..")
        = Ok (Some (y +:+ "-" +:+ mo +:+ "-01"), None, "after"))
  /\ (forall d, Spec.exactly EDTFParser.FULL d ->
                EDTFParser.parse (d +:+ "/..") = Ok (Some d, None, "after")).
Proof.
  split; [|split].
  - intros y Hy.
    destruct (date_chars_of EDTFParser.YEAR y) as [Hc Hne]; [tauto | done |].
    by rewrite parse_open_end, normalize_year.
  - intros y mo Hy Hmo.
    pose proof (exactly_year_month y mo Hy Hmo) as Hs.
    destruct (date_chars_of EDTFParser.YEAR_MONTH _ ltac:(tauto) Hs)
      as [Hc Hne].
    by rewrite parse_open_end, normalize_year_month_start.
  - intros d Hd.
    destruct (date_chars_of EDTFParser.FULL d) as [Hc Hne]; [tauto | done |].
    by rewrite parse_open_end, normalize_full.
Qed.

Lemma edtf_open_end_keeps_start_witness :
  EDTFParser.parse "1942/.." = Ok (Some "1942-01-01", None, "after")
  /\ EDTFParser.parse "1942-13/.." = Ok (Some "1942-13-01", None, "after")
  /\ EDTFParser.parse "1942-03-29/.." = Ok (Some "1942-03-29", None, "after").
Proof.
  destruct edtf_open_end_keeps_start as (Hy & Hym & Hd).
  split; [|split].
  - apply (Hy "1942"). reflexivity.
  - apply (Hym "1942" "13"); reflexivity.
  - apply (Hd "1942-03-29"). reflexivity.
Defined.

(** X4.  A year-month whose month number lies outside 1..12 makes
    [parse] raise the calendar's error with that number, bare or followed
    by [~] or [?]. *)
Theorem edtf_illegal_month_raises :
  forall y mo : string,
    Spec.exactly EDTFParser.YEAR y ->
    Spec.exactly [Regex.D; Regex.D] mo ->
    ~ (1 <= Spec.value mo <= 12)%Z ->
    EDTFParser.parse (y +:+ "-" +:+ mo)
    = Raise (IllegalMonthError (Spec.value mo))
    /\ EDTFParser.parse ((y +:+ "-" +:+ mo) +:+ "~")
       = Raise (IllegalMonthError (Spec.value mo))
    /\ EDTFParser.parse ((y +:+ "-" +:+ mo) +:+ "?")
       = Raise (IllegalMonthError (Spec.value mo)).
Proof.
  intros y mo Hy Hmo Hbad.
  pose proof (exactly_year_month y mo Hy Hmo) as Hs.
  destruct (date_chars_of EDTFParser.YEAR_MONTH _ ltac:(tauto) Hs) as [Hc Hne].
  rewrite (parse_modified _ "~" Hc Hne (or_introl eq_refl)).
  rewrite (parse_modified _ "?" Hc Hne (or_intror eq_refl)).
  rewrite (parse_plain _ Hc Hne).
  by rewrite normalize_year_month_start, normalize_year_month_illegal.
Qed.

Lemma edtf_illegal_month_raises_witness :
  EDTFParser.parse "1942-00" = Raise (IllegalMonthError 0)
  /\ EDTFParser.parse "1942-00~" = Raise (IllegalMonthError 0)
  /\ EDTFParser.parse "1942-00?" = Raise (IllegalMonthError 0).
Proof.
  apply (edtf_illegal_month_raises "1942" "00"); [reflexivity..|].
  vm_compute. intros [H _]. by apply H.
Defined.

(** X5.  Whenever the normalizer returns a date for a text of one line,
    the date has the shape YYYY-MM-DD, and [parse] maps it to itself
    with precision [day]. *)
Theorem edtf_normalized_date_is_full :
  forall (s : string) (start : bool) (d : string),
    PyStr.mem PyStr.LF s = false ->
    EDTFParser._normalize_single_date s start = Ok (Some d) ->
    Spec.exactly EDTFParser.FULL d
    /\ EDTFParser.parse d = Ok (Some d, Some d, "day").
Proof.
  intros s start d Hnl H.
  pose proof (normalize_shape s start d Hnl H) as Hd.
  split; [done|]. by apply parse_full.
Qed.

Lemma edtf_normalized_date_is_full_witness :
  Spec.exactly EDTFParser.FULL "1944-02-29"
  /\ EDTFParser.parse "1944-02-29"
     = Ok (Some "1944-02-29", Some "1944-02-29", "day").
Proof.
  apply (edtf_normalized_date_is_full "1944-02~" false); reflexivity.
Defined.

(** X6.  A text of white space only, the empty text included, has no
    dates and precision [unknown]. *)
Theorem edtf_blank_is_unknown :
  forall s : string,
    Spec.all_chars PyStr.is_space s = true ->
    EDTFParser.parse s = Ok (None, None, "unknown").
Proof.
  intros s Hs. unfold EDTFParser.parse.
  destruct (_ || _); [done|]. cbv zeta.
  unfold PyStr.strip, PyStr.strip_by. by rewrite (rstrip_by_all _ _ Hs).
Qed.

Lemma edtf_blank_is_unknown_witness :
  EDTFParser.parse "   " = Ok (None, None, "unknown").
Proof. apply edtf_blank_is_unknown. reflexivity. Defined.

(* ===================================================================== *)
(** * Wikilinks: cleaned ids, aliases, matches and the blacklist          *)
(* ===================================================================== *)

Section WikilinkShapes.
Import PyStr Regex WikilinkExtractor Spec.

Lemma match_lits (a : string) (ts : list tok) (s r : string) :
  match_toks (lits a ++ ts) s = Some r ->
  exists s', s = a +:+ s' /\ match_toks ts s' = Some r.
Proof.
  revert s. induction a as [|c a IH]; intros s; simpl.
  - intros H. by exists s.
  - destruct s as [|d s]; [done|].
    destruct (Ascii.eqb_spec d c) as [-> | Hne]; [|done].
    intros H. destruct (IH s H) as (s' & -> & Hs'). by exists s'.
Qed.

(** What the body of the two patterns accepts. *)
Lemma id_body_shape (ty s r : string) :
  match_toks (id_body ty) s = Some r ->
  exists u, exactly HEX36 u /\ s = ("id/" +:+ ty +:+ "/" +:+ u) +:+ r.
Proof.
  unfold id_body. intros H.
  apply match_lits in H as (s1 & -> & H).
  apply match_lits in H as (s2 & -> & H).
  apply (match_lits "/" HEX36) in H as (s3 & -> & H).
  apply match_toks_split in H as (u & -> & _ & Hu).
  exists u. split; [done|]. by rewrite !append_assoc.
Qed.

(** What [ID_PATTERN] accepts: a slash, the body, and a final line feed
    perhaps. *)
Lemma id_pattern_shape (c : string) :
  ID_PATTERN_match c = true ->
  exists ty u r,
    ty ∈ TYPES /\ exactly HEX36 u
    /\ (r = EmptyString \/ r = nl)
    /\ c = "/" +:+ ("id/" +:+ ty +:+ "/" +:+ u) +:+ r.
Proof.
  unfold ID_PATTERN_match. intros (ty & Hty & H)%existsb_exists.
  apply list_elem_of_In in Hty. unfold re_anchored in H.
  destruct (match_toks _ c) as [r|] eqn:Hm; [|done].
  apply at_end_cases in H.
  destruct c as [|d c]; [done|]. cbn [match_toks tok_ok] in Hm.
  destruct (Ascii.eqb_spec d "/") as [-> | Hne]; [|done].
  apply id_body_shape in Hm as (u & Hu & ->).
  by exists ty, u, r.
Qed.

Lemma valid_id_facts (c : string) :
  ID_PATTERN_match c = true ->
  all_chars body_char c = true
  /\ strip_chars "[]" c = c
  /\ mem "|" c = false
  /\ startswith "/" c = true
  /\ c <> EmptyString.
Proof.
  intros (ty & u & r & Hty & Hu & Hr & ->)%id_pattern_shape.
  assert (all_chars body_char
            ("/" +:+ ("id/" +:+ ty +:+ "/" +:+ u) +:+ r) = true) as Hb.
  { change ("/" +:+ ?x) with (String "/"%char x). cbn [all_chars].
    rewrite all_chars_app, (body_chars ty u Hty Hu).
    by destruct Hr as [-> | ->]. }
  split; [done|]. split; [|split; [|done]].
  - unfold strip_chars. apply strip_by_id.
    eapply all_chars_weaken; [|exact Hb]. intros a. unfold body_char. simpl.
    destruct (Ascii.eqb a "["), (Ascii.eqb a "]"); done.
  - by apply (mem_false_of_all _ _ _ Hb).
Qed.

(** [clean_id] on an id of the strict grammar: the id, and no log
    entry. *)
Lemma clean_id_valid (c : string) warnings file_path line_num :
  ID_PATTERN_match c = true ->
  clean_id c warnings file_path line_num = (Ok c, warnings).
Proof.
  intros Hc. destruct (valid_id_facts c Hc) as (_ & H1 & H2 & H3 & _).
  unfold clean_id. cbv zeta. rewrite H1, H2, H3. simpl negb. cbv iota.
  by rewrite Hc.
Qed.

Lemma rstrip_by_keep (p : ascii -> bool) (pre : string) (c : ascii)
    (t : string) :
  p c = false ->
  rstrip_by p (pre +:+ String c t) = pre +:+ String c (rstrip_by p t).
Proof.
  intros Hc. induction pre as [|a pre IH].
  - simpl. destruct (rstrip_by p t); [by rewrite Hc | done].
  - rewrite !append_cons. simpl. rewrite IH.
    by destruct pre.
Qed.

(** The brackets and the alias go. *)
Lemma clean_id_alias (c alias : string) warnings file_path line_num :
  ID_PATTERN_match c = true ->
  clean_id ("[[" +:+ c +:+ "|" +:+ alias +:+ "]]") warnings file_path
    line_num = (Ok c, warnings).
Proof.
  intros Hc. destruct (valid_id_facts c Hc) as (_ & _ & H2 & H3 & Hne).
  set (x := rstrip_by (fun a => mem a "[]") (alias +:+ "]]")).
  assert (strip_chars "[]" ("[[" +:+ c +:+ "|" +:+ alias +:+ "]]")
          = c +:+ String "|" x) as H1.
  { unfold strip_chars, strip_by.
    change ("[[" +:+ c +:+ "|" +:+ alias +:+ "]]")
      with ("[[" +:+ (c +:+ String "|"%char (alias +:+ "]]"))).
    rewrite <- append_assoc. rewrite rstrip_by_keep by reflexivity. fold x.
    rewrite append_assoc.
    destruct c as [|a c]; [done|]. cbn [startswith] in H3.
    apply andb_true_iff in H3 as [<-%Ascii.eqb_eq _].
    reflexivity. }
  unfold clean_id. cbv zeta. rewrite H1.
  assert (mem "|" (c +:+ String "|" x) = true) as ->.
  { rewrite mem_app. simpl. apply orb_true_r. }
  rewrite split_char_app by done. cbn [hd].
  rewrite H3. simpl negb. cbv iota. by rewrite Hc.
Qed.

End WikilinkShapes.

(** X7.  An id that [clean_id] has returned is a fixed point: cleaning it
    again returns it unchanged and leaves the collector as it is. *)
Theorem clean_id_fixed_point :
  forall raw warnings file_path line_num c warnings',
    WikilinkExtractor.clean_id raw warnings file_path line_num
    = (Ok c, warnings') ->
    forall w fp ln, WikilinkExtractor.clean_id c w fp ln = (Ok c, w).
Proof.
  intros raw warnings file_path line_num c warnings' H w fp ln.
  apply clean_id_valid.
  pose proof (clean_id_post raw warnings file_path line_num) as Hpost.
  by rewrite H in Hpost.
Qed.

Lemma clean_id_fixed_point_witness :
  WikilinkExtractor.clean_id "/id/org/0a000000-0000-4000-8000-000000000001"
    (Some Warnings.empty) (Some "note.md") (Some 3)
  = (Ok "/id/org/0a000000-0000-4000-8000-000000000001", Some Warnings.empty).
Proof.
  apply (clean_id_fixed_point
           "[[id/org/0a000000-0000-4000-8000-000000000001|Legation]]"
           None None None _ None).
  vm_compute. reflexivity.
Defined.

(** X8.  A bracketed reference to an id of the strict grammar is cleaned
    to that id, with or without an alias and whatever the alias holds;
    nothing is logged. *)
Theorem clean_id_drops_brackets_and_alias :
  forall c alias warnings file_path line_num,
    WikilinkExtractor.ID_PATTERN_match c = true ->
    WikilinkExtractor.clean_id ("[[" +:+ c +:+ "]]") warnings file_path
      line_num = (Ok c, warnings)
    /\ WikilinkExtractor.clean_id ("[[" +:+ c +:+ "|" +:+ alias +:+ "]]")
         warnings file_path line_num = (Ok c, warnings).
Proof.
  intros c alias warnings file_path line_num Hc.
  split; [|by apply clean_id_alias].
  destruct (valid_id_facts c Hc) as (Hb & _ & H2 & H3 & Hne).
  unfold WikilinkExtractor.clean_id. cbv zeta.
  rewrite (strip_brackets c Hb Hne), H2, H3. simpl negb. cbv iota.
  by rewrite Hc.
Qed.

Lemma clean_id_drops_brackets_and_alias_witness :
  WikilinkExtractor.clean_id
    "[[/id/gpe/0b000000-0000-4000-8000-000000000002]]"
    (Some Warnings.empty) (Some "note.md") None
  = (Ok "/id/gpe/0b000000-0000-4000-8000-000000000002", Some Warnings.empty)
  /\ WikilinkExtractor.clean_id
       "[[/id/gpe/0b000000-0000-4000-8000-000000000002|Bern [BE]]]"
       (Some Warnings.empty) (Some "note.md") None
     = (Ok "/id/gpe/0b000000-0000-4000-8000-000000000002",
        Some Warnings.empty).
Proof.
  apply (clean_id_drops_brackets_and_alias
           "/id/gpe/0b000000-0000-4000-8000-000000000002" "Bern [BE]").
  reflexivity.
Defined.

Section WikilinkMatches.
Import PyStr Regex WikilinkExtractor Spec.

(** Group 1 of a match of [WIKILINK_PATTERN] is the body, without the
    slash. *)
Lemma match_wikilink_group (s g1 rest : string) :
  match_wikilink s = Some (g1, rest) ->
  exists ty u, ty ∈ TYPES /\ exactly HEX36 u
               /\ g1 = "id/" +:+ ty +:+ "/" +:+ u.
Proof.
  unfold match_wikilink.
  destruct (match_toks (lits "[[") s) as [r0|]; [|done].
  cbn [mbind option_bind]. cbv zeta.
  remember (match r0 with String "/" r => r | _ => r0 end) as r1 eqn:E.
  clear E.
  destruct (list_find _ _) as [[i o]|] eqn:Hfind; [|done].
  cbn [mbind option_bind snd]. intros ->.
  apply list_find_Some in Hfind as (Hi & _ & _).
  apply list_lookup_fmap_Some in Hi as (ty & Htry & Hty).
  apply list_elem_of_lookup_2 in Hty. symmetry in Htry.
  exists ty.
  destruct (match_toks (id_body ty) r1) as [r2|] eqn:Hm; [|done].
  cbn [mbind option_bind] in Htry.
  destruct (match_tail r2) as [r3|]; [|done].
  cbn [mbind option_bind] in Htry. injection Htry as <- <-.
  apply id_body_shape in Hm as (u & Hu & ->).
  exists u. split; [done|]. split; [done|].
  rewrite string_length_app.
  replace (String.length ("id/" +:+ ty +:+ "/" +:+ u) + String.length r2
           - String.length r2)%nat
    with (String.length ("id/" +:+ ty +:+ "/" +:+ u)) by lia.
  apply string_take_app.
Qed.

Lemma finditer_groups (s : string) (skip line : nat) :
  Forall (fun m => exists ty u, ty ∈ TYPES /\ exactly HEX36 u
                                /\ m.1 = "id/" +:+ ty +:+ "/" +:+ u)
    (finditer skip line s).
Proof.
  revert skip line. induction s as [|c s IH]; intros skip line; [constructor|].
  cbn [finditer]. destruct skip as [|k]; [|apply IH].
  destruct (match_wikilink (String c s)) as [[g1 rest]|] eqn:Hm; [|apply IH].
  constructor; [|apply IH]. by apply match_wikilink_group in Hm.
Qed.

(** [clean_id] on group 1 of a match. *)
Lemma clean_id_group (ty u : string) warnings file_path line_num :
  ty ∈ TYPES -> exactly HEX36 u ->
  let body := "id/" +:+ ty +:+ "/" +:+ u in
  clean_id body warnings file_path line_num
  = (Ok ("/" +:+ body),
     log_if warnings file_path (fun w fp =>
       Warnings.log_slash_correction w fp (or_zero line_num) body)).
Proof.
  intros Hty Hu body.
  pose proof (body_chars ty u Hty Hu) as Hb. fold body in Hb.
  assert (strip_chars "[]" body = body) as H1.
  { unfold strip_chars. apply strip_by_id.
    eapply all_chars_weaken; [|exact Hb]. intros a. unfold body_char. simpl.
    destruct (Ascii.eqb a "["), (Ascii.eqb a "]"); done. }
  assert (mem "|" body = false) as H2.
  { apply (mem_false_of_all _ _ _ Hb). done. }
  assert (startswith "/" body = false) as H3 by done.
  assert (ID_PATTERN_match ("/" +:+ body) = true) as H4
    by by apply id_pattern_body.
  unfold clean_id. cbv zeta. rewrite H1, H2, H3. simpl negb. cbv iota.
  by rewrite H4.
Qed.

Lemma extract_all_fold (f : string) (ms : list (string * nat))
    (ids : gset string) (w : WikilinkWarnings) :
  truthy f = true ->
  Forall (fun m => exists ty u, ty ∈ TYPES /\ exactly HEX36 u
                                /\ m.1 = "id/" +:+ ty +:+ "/" +:+ u) ms ->
  foldl (fun '(ids, w) '(raw_id, line_num) =>
           match clean_id raw_id w (Some f) (Some line_num) with
           | (Ok clean, w') => ({[clean]} ∪ ids, w')
           | (Raise _, w') => (ids, w')
           end)
        (ids, Some w) ms
  = (list_to_set ((fun m => "/" +:+ m.1) <$> ms) ∪ ids,
     Some (foldl (fun w m => Warnings.log_slash_correction w f m.2 m.1)
             w ms)).
Proof.
  intros Hf Hms. revert ids w.
  induction Hms as [|[g1 line] ms (ty & u & Hty & Hu & Hg) _ IH];
    intros ids w; cbn [foldl fmap list_fmap list_to_set].
  - f_equal. set_solver.
  - simpl in Hg. subst g1.
    rewrite (clean_id_group ty u (Some w) (Some f) (Some line) Hty Hu).
    cbn [log_if]. rewrite Hf. cbn [or_zero default].
    rewrite IH. f_equal. set_solver.
Qed.

(** A top-level entry of the mapping whose key is on the blacklist
    adds nothing. *)
Lemma scan_value_skips (bl : list string) fp (k : string) (v : pyval)
    (m1 m2 : list (string * pyval)) acc :
  k <> EmptyString -> k ∈ bl ->
  scan_value bl fp (PDict (m1 ++ (k, v) :: m2)) None acc
  = scan_value bl fp (PDict (m1 ++ m2)) None acc.
Proof.
  intros Hne Hk.
  assert (forall w a, scan_value bl fp w (Some k) a = a) as Hskip.
  { intros w a.
    assert (blacklisted bl (Some k) = true) as Hb.
    { unfold blacklisted. apply andb_true_iff. split; [by destruct k|].
      apply orb_true_iff. left. apply existsb_exists. exists k.
      split; [by apply list_elem_of_In | apply String.eqb_refl]. }
    destruct w; cbn [scan_value]; by rewrite Hb. }
  revert acc. induction m1 as [|[k1 v1] m1 IH]; intros acc.
  - cbn [app scan_value blacklisted child_key]. by rewrite Hskip.
  - change (scan_value bl fp (PDict (((k1, v1) :: m1) ++ (k, v) :: m2))
              None acc)
      with (scan_value bl fp (PDict (m1 ++ (k, v) :: m2)) None
              (scan_value bl fp v1 (Some (child_key None k1)) acc)).
    rewrite IH. reflexivity.
Qed.

End WikilinkMatches.

(** X9.  With a collector and a file name, [extract_all_wikilinks]
    returns every match of the pattern with the slash prepended and
    drops none; the collector's list of invalid links stays as it was,
    and its list of slash corrections grows by one entry per match, in
    the order of the matches, whether the link was written with its slash
    or not: the file, the line of the match and the matched id without
    the slash. *)
Theorem extract_all_logs_a_slash_correction_per_match :
  forall (text f : string) (w : WikilinkWarnings),
    f <> EmptyString ->
    let ms := WikilinkExtractor.finditer 0 1 text in
    exists w',
      WikilinkExtractor.extract_all_wikilinks text (Some w) (Some f)
      = (list_to_set ((fun m => "/" +:+ m.1) <$> ms), Some w')
      /\ auto_corrected_slashes w'
         = (auto_corrected_slashes w
            ++ ((fun m => (f, m.2, m.1)) <$> ms))%list
      /\ invalid_wikilinks w' = invalid_wikilinks w.
Proof.
  intros text f w Hf ms. unfold WikilinkExtractor.extract_all_wikilinks.
  fold ms. rewrite extract_all_fold;
    [|by destruct f | apply finditer_groups].
  exists (foldl (fun w m => Warnings.log_slash_correction w f m.2 m.1) w ms).
  split; [f_equal; set_solver|].
  clear Hf. generalize ms. clear ms. intros ms. revert w.
  induction ms as [|m ms IH]; intros w; cbn [foldl fmap list_fmap].
  - by rewrite app_nil_r.
  - destruct (IH (Warnings.log_slash_correction w f m.2 m.1)) as [-> ->].
    cbn [auto_corrected_slashes invalid_wikilinks
         Warnings.log_slash_correction].
    by rewrite <- app_assoc.
Qed.

Lemma extract_all_logs_a_slash_correction_per_match_witness :
  exists w',
    WikilinkExtractor.extract_all_wikilinks
      "Head: [[/id/person/0c000000-0000-4000-8000-000000000003]]."
      (Some Warnings.empty) (Some "note.md")
    = ({[ "/id/person/0c000000-0000-4000-8000-000000000003" ]}, Some w')
    /\ auto_corrected_slashes w'
       = [("note.md", 1, "id/person/0c000000-0000-4000-8000-000000000003")]
    /\ invalid_wikilinks w' = [].
Proof.
  destruct (extract_all_logs_a_slash_correction_per_match
              "Head: [[/id/person/0c000000-0000-4000-8000-000000000003]]."
              "note.md" Warnings.empty ltac:(discriminate))
    as (w' & H & Hs & Hi).
  exists w'. split; [|split; [exact Hs | exact Hi]].
  rewrite H. reflexivity.
Defined.

(** X10.  An entry of the front matter whose key is on the blacklist
    contributes no link and no log entry, whatever its value holds and
    wherever it stands in the mapping. *)
Theorem extract_from_dict_skips_blacklisted :
  forall (bl : list string) (k : string) (v : pyval)
         (m1 m2 : list (string * pyval)) warnings file_path,
    k <> EmptyString -> k ∈ bl ->
    WikilinkExtractor.extract_from_dict (PDict (m1 ++ (k, v) :: m2)) bl
      warnings file_path
    = WikilinkExtractor.extract_from_dict (PDict (m1 ++ m2)) bl warnings
        file_path.
Proof.
  intros bl k v m1 m2 warnings file_path Hne Hk.
  unfold WikilinkExtractor.extract_from_dict. by apply scan_value_skips.
Qed.

Lemma extract_from_dict_skips_blacklisted_witness :
  WikilinkExtractor.extract_from_dict
    (PDict [("id", PStr "[[/id/org/0a000000-0000-4000-8000-000000000001]]");
            ("note",
              PList [PStr "[[/id/person/0c000000-0000-4000-8000-000000000003]]"])])
    WikilinkExtractor.FRONTMATTER_BLACKLIST None None
  = WikilinkExtractor.extract_from_dict
      (PDict [("id", PStr "[[/id/org/0a000000-0000-4000-8000-000000000001]]")])
      WikilinkExtractor.FRONTMATTER_BLACKLIST None None.
Proof.
  apply (extract_from_dict_skips_blacklisted
           WikilinkExtractor.FRONTMATTER_BLACKLIST "note" _
           [("id", PStr "[[/id/org/0a000000-0000-4000-8000-000000000001]]")]
           []).
  - discriminate.
  - unfold WikilinkExtractor.FRONTMATTER_BLACKLIST. set_solver.
Defined.

(* ===================================================================== *)
(** * Document ids of one run are distinct                                *)
(* ===================================================================== *)

Section DistinctIds.
Import PyStr DocumentParser Spec.
Context (sha1_hex : string -> string).
Hypothesis hex_no_colon : forall name, mem ":" (sha1_hex name) = false.

Lemma base_id_no_colon p : mem ":" (base_id sha1_hex p) = false.
Proof. unfold base_id. rewrite mem_app, hex_no_colon. done. Qed.

(** Two texts that agree after the first occurrence of a separator
    which neither prefix holds. *)
Lemma app_sep_inj (c : ascii) (b b' x y : string) :
  mem c b = false -> mem c b' = false ->
  b +:+ String c x = b' +:+ String c y -> b = b' /\ x = y.
Proof.
  revert b'. induction b as [|a b IH]; intros [|a' b']; simpl.
  - intros _ _ [= ->]. done.
  - intros _ [Ha _]%orb_false_iff [= <- _]. by rewrite Ascii.eqb_refl in Ha.
  - intros [Ha _]%orb_false_iff _ [= -> _]. by rewrite Ascii.eqb_refl in Ha.
  - intros [_ Hb]%orb_false_iff [_ Hb']%orb_false_iff [= -> H].
    destruct (IH b' Hb Hb' H) as [-> ->]. done.
Qed.

Lemma numbered_id_inj (b b' : string) (k k' : nat) :
  mem ":" b = false -> mem ":" b' = false ->
  match k with O => b | S n => b +:+ "::" +:+ pretty (S n) end
  = match k' with O => b' | S n => b' +:+ "::" +:+ pretty (S n) end ->
  b = b' /\ k = k'.
Proof.
  intros Hb Hb'. destruct k as [|n], k' as [|n'].
  - done.
  - intros ->. rewrite mem_app in Hb.
    apply orb_false_iff in Hb as [_ Hb]. done.
  - intros <-. rewrite mem_app in Hb'.
    apply orb_false_iff in Hb' as [_ Hb']. done.
  - intros H.
    apply (app_sep_inj ":" b b' (":" +:+ pretty (S n)) (":" +:+ pretty (S n')))
      in H as [-> H]; [|done..].
    injection H as H. by apply pretty_nat_inj in H as ->.
Qed.

Lemma occurrences_mono b b' seen :
  occurrences b seen <= occurrences b (b' :: seen).
Proof. rewrite occurrences_cons. destruct (decide _); lia. Qed.

(** Every id handed out carries a count that is not below the number
    of earlier occurrences of its base. *)
Lemma expected_ids_elem seen ps x :
  x ∈ expected_ids sha1_hex seen ps ->
  exists p k,
    p ∈ ps /\ occurrences (base_id sha1_hex p) seen <= k
    /\ x = match k with
           | O => base_id sha1_hex p
           | S n => base_id sha1_hex p +:+ "::" +:+ pretty (S n)
           end.
Proof.
  revert seen. induction ps as [|p ps IH]; intros seen; cbn [expected_ids].
  - by intros ?%elem_of_nil.
  - intros [-> | Hx]%elem_of_cons.
    + exists p, (occurrences (base_id sha1_hex p) seen).
      split; [left|]. split; [lia|]. done.
    + apply IH in Hx as (q & k & Hq & Hk & ->).
      exists q, k. split; [by right|]. split; [|done].
      pose proof (occurrences_mono (base_id sha1_hex q) (base_id sha1_hex p)
                    seen). lia.
Qed.

Lemma expected_ids_NoDup seen ps : NoDup (expected_ids sha1_hex seen ps).
Proof.
  revert seen. induction ps as [|p ps IH]; intros seen; cbn [expected_ids].
  - constructor.
  - constructor; [|apply IH].
    intros (q & k & _ & Hk & Heq)%expected_ids_elem.
    apply (numbered_id_inj _ _ (occurrences (base_id sha1_hex p) seen) k)
      in Heq as [Hb <-]; [|apply base_id_no_colon..].
    rewrite <- Hb, occurrences_cons in Hk.
    destruct (decide _); [lia|done].
Qed.

End DistinctIds.

(** X11.  When the digest holds no colon, as a hexadecimal digest does,
    the ids that one run of the document extractor hands out are pairwise
    distinct, however many files share a name. *)
Theorem document_ids_are_distinct :
  forall (sha1_hex : string -> string) paths warnings,
    (forall name, PyStr.mem ":" (sha1_hex name) = false) ->
    NoDup (DocumentParser.build_document_ids sha1_hex paths (∅, warnings)).1.
Proof.
  intros sha1_hex paths warnings Hhex.
  rewrite (build_document_ids_expected sha1_hex paths ∅ warnings [])
    by apply tracks_empty.
  by apply expected_ids_NoDup.
Qed.

Lemma document_ids_are_distinct_witness :
  NoDup (DocumentParser.build_document_ids (fun name => "0a")
           [["a"; "letter.md"]; ["b"; "letter.md"]; ["c"; "letter.md"]]
           (∅, Warnings.empty)).1.
Proof.
  apply document_ids_are_distinct. reflexivity.
Defined.

(* ===================================================================== *)
(** * Event and micro-action blocks                                       *)
(* ===================================================================== *)

Section BlockFacts.
Import PyStr.

Lemma startswith_app (p s : string) : startswith p (p +:+ s) = true.
Proof.
  induction p as [|c p IH]; [done|]. rewrite append_cons. simpl.
  by rewrite Ascii.eqb_refl, IH.
Qed.

(** The result of [clean_id] does not depend on the collector. *)
Lemma clean_id_result raw w w' file_path line_num :
  (WikilinkExtractor.clean_id raw w file_path line_num).1
  = (WikilinkExtractor.clean_id raw w' file_path line_num).1.
Proof.
  unfold WikilinkExtractor.clean_id. cbv zeta.
  destruct (mem "|" _); destruct (negb (startswith "/" _));
    destruct (negb (WikilinkExtractor.ID_PATTERN_match _)); reflexivity.
Qed.

End BlockFacts.

(** X12.  The canonical id of an event or of a micro-action starts with
    the prefix of its kind, and canonicalizing it again changes nothing:
    an id that is canonical already is kept, not hashed a second time. *)
Theorem canonical_ids_are_stable :
  forall (sha1_hex : string -> string) (raw_id : string),
    let e := EventParser._canonicalize_event_id sha1_hex raw_id in
    let m := MicroActionParser._canonicalize_micro_id sha1_hex raw_id in
    PyStr.startswith "/id/event/" e = true
    /\ EventParser._canonicalize_event_id sha1_hex e = e
    /\ PyStr.startswith "/id/microaction/" m = true
    /\ MicroActionParser._canonicalize_micro_id sha1_hex m = m.
Proof.
  intros sha1_hex raw_id e m.
  assert (PyStr.startswith "/id/event/" e = true) as He.
  { unfold e, EventParser._canonicalize_event_id.
    destruct (PyStr.startswith "/id/event/" raw_id) eqn:H; [done|].
    apply startswith_app. }
  assert (PyStr.startswith "/id/microaction/" m = true) as Hm.
  { unfold m, MicroActionParser._canonicalize_micro_id.
    destruct (PyStr.startswith "/id/microaction/" raw_id) eqn:H; [done|].
    apply startswith_app. }
  repeat split; try done.
  - unfold EventParser._canonicalize_event_id at 1. by rewrite He.
  - unfold MicroActionParser._canonicalize_micro_id at 1. by rewrite Hm.
Qed.

Section EventBlocks.
Import PyStr.
Context (sha1_hex : string -> string)
        (KV_RE_match : string -> option (string * string))
        (DESC_PATTERN_match OBS_PATTERN_match : string -> bool).

(** The properties of the record that [_parse_event_block] returns, as
    far as the agent goes. *)
Lemma parse_event_block_agent raw_id content doc file_path w event w' :
  EventParser._parse_event_block sha1_hex KV_RE_match DESC_PATTERN_match
    OBS_PATTERN_match raw_id content doc file_path w = (Ok event, w') ->
  exists st : BlockState,
    event_properties event !! "agent_id"
    = Some (PStr (if Block.has "agent_id" st
                  then Block.get_str "agent_id" st
                  else "UNKNOWN_AUTHORITY"))
    /\ event_properties event !! "unknown_agent"
       = Some (PBool match Block.get "agent_id" st with
                     | None => true
                     | Some a => String.eqb a "UNKNOWN_AUTHORITY"
                     end).
Proof.
  unfold EventParser._parse_event_block. cbv zeta.
  match goal with
  | |- context [EventParser.links_of_field _ "observation" ?s _] =>
      generalize s
  end.
  intros st.
  destruct (EventParser.links_of_field _ "observation" _ _) as [all_links w1].
  destruct (EventParser.block_dates _) as [[[ds de] precision]|e];
    [|discriminate].
  intros H. exists st.
  pose proof (f_equal (fun p : result EventRecord * option WikilinkWarnings =>
                         match p.1 with
                         | Ok x => event_properties x
                         | Raise _ => ∅
                         end) H) as Hp.
  cbv beta iota delta [fst] in Hp. rewrite <- Hp.
  split; reflexivity.
Qed.

Lemma event_entity_result x w w' file_path n :
  (EventParser._extract_entity_id x w file_path n).1
  = (EventParser._extract_entity_id x w' file_path n).1.
Proof.
  unfold EventParser._extract_entity_id.
  destruct (String.eqb x "UNKNOWN_AUTHORITY"); [done|].
  pose proof (clean_id_result x w w' (Some file_path) (Some n)) as H.
  destruct (WikilinkExtractor.clean_id x w _ _) as [[id|err] w1],
    (WikilinkExtractor.clean_id x w' _ _) as [[id'|err'] w2];
    simpl in *; congruence.
Qed.

(** A line never removes a named entity. *)
Lemma event_line_mono file_path st line :
  specific_entities st
  ⊆ specific_entities
      (EventParser.block_line KV_RE_match DESC_PATTERN_match
         OBS_PATTERN_match file_path st line).
Proof.
  unfold EventParser.block_line. cbv zeta.
  repeat case_match; simpl; set_solver.
Qed.

Lemma event_lines_mono file_path lines st :
  specific_entities st
  ⊆ specific_entities
      (foldl (EventParser.block_line KV_RE_match DESC_PATTERN_match
                OBS_PATTERN_match file_path) st lines).
Proof.
  revert st. induction lines as [|l lines IH]; intros st; simpl; [done|].
  etrans; [apply (event_line_mono file_path st l)|apply IH].
Qed.

(** A line [- victim: ...], [- agent: ...] or [- place: ...] whose value
    yields an entity adds it to the named entities. *)
Lemma event_line_names file_path st line key val e :
  DESC_PATTERN_match (strip line) = false ->
  OBS_PATTERN_match (strip line) = false ->
  truthy (strip line) = true ->
  startswith "**" (strip line) = false ->
  KV_RE_match line = Some (key, val) ->
  key ∈ ["victim"; "agent"; "place"] ->
  (EventParser._extract_entity_id (strip val) None file_path 0).1 = Some e ->
  e <> EmptyString ->
  e ∈ specific_entities
        (EventParser.block_line KV_RE_match DESC_PATTERN_match
           OBS_PATTERN_match file_path st line).
Proof.
  intros Hd Ho Ht Hs Hkv Hkey He Hne.
  unfold EventParser.block_line. cbv zeta.
  rewrite Hd, Ho, Ht, Hs, Hkv. simpl negb. cbv iota. rewrite orb_false_l.
  assert (existsb (String.eqb key) ["victim"; "agent"; "place"] = true) as ->.
  { apply existsb_exists. exists key.
    split; [by apply list_elem_of_In | apply String.eqb_refl]. }
  match goal with
  | |- context [EventParser._extract_entity_id _ ?w _ _] =>
      pose proof (event_entity_result (strip val) w None file_path 0) as Hr;
      destruct (EventParser._extract_entity_id (strip val) w file_path 0)
        as [entity w1]
  end.
  simpl in Hr. rewrite He in Hr. subst entity.
  assert (truthy e = true) as -> by (by destruct e).
  simpl. set_solver.
Qed.

(** The references of an event record leave out every entity that one
    of its lines names. *)
Lemma event_references_exclude raw_id content doc file_path w event w'
    (i : nat) line key val e :
  splitlines content !! i = Some line ->
  DESC_PATTERN_match (strip line) = false ->
  OBS_PATTERN_match (strip line) = false ->
  truthy (strip line) = true ->
  startswith "**" (strip line) = false ->
  KV_RE_match line = Some (key, val) ->
  key ∈ ["victim"; "agent"; "place"] ->
  (EventParser._extract_entity_id (strip val) None file_path 0).1 = Some e ->
  e <> EmptyString ->
  EventParser._parse_event_block sha1_hex KV_RE_match DESC_PATTERN_match
    OBS_PATTERN_match raw_id content doc file_path w = (Ok event, w') ->
  e ∉ event_references event.
Proof.
  intros Hi Hd Ho Ht Hs Hkv Hkey He Hne.
  apply list_elem_of_lookup_2, list_elem_of_split in Hi as (l1 & l2 & Hl).
  unfold EventParser._parse_event_block. cbv zeta. rewrite Hl, foldl_app.
  cbn [foldl].
  set (st1 := foldl _ (Block.init raw_id w) l1).
  pose proof (event_line_names file_path st1 line key val e Hd Ho Ht Hs Hkv
                Hkey He Hne) as H1.
  pose proof (event_lines_mono file_path l2
                (EventParser.block_line KV_RE_match DESC_PATTERN_match
                   OBS_PATTERN_match file_path st1 line)) as H2.
  set (st2 := foldl _ (EventParser.block_line _ _ _ _ st1 line) l2) in *.
  assert (e ∈ specific_entities st2) as Hst2 by set_solver.
  clearbody st2. clear H1 H2.
  match goal with
  | |- context [EventParser.links_of_field _ "observation" ?s _] =>
      assert (specific_entities s = specific_entities st2) as Hsame
        by (by repeat case_match);
      generalize dependent s
  end.
  intros st Hsame.
  destruct (EventParser.links_of_field _ "observation" _ _) as [all_links w1].
  destruct (EventParser.block_dates _) as [[[ds de] precision]|err];
    [|discriminate].
  intros H.
  pose proof (f_equal (fun p : result EventRecord * option WikilinkWarnings =>
                         match p.1 with
                         | Ok x => event_references x
                         | Raise _ => ∅
                         end) H) as Hp.
  cbv beta iota delta [fst] in Hp. rewrite <- Hp. simpl.
  rewrite Hsame. intros [_ Hn]%elem_of_difference. by apply Hn.
Qed.

End EventBlocks.

(** X13.  In every event record the agent is a text that is not empty,
    [UNKNOWN_AUTHORITY] when the block names none, and it is
    [UNKNOWN_AUTHORITY] whenever the flag [unknown_agent] is set. *)
Theorem event_agent_is_never_empty :
  forall sha1_hex KV_RE_match DESC_PATTERN_match OBS_PATTERN_match
         raw_id content doc file_path w event w',
    EventParser._parse_event_block sha1_hex KV_RE_match DESC_PATTERN_match
      OBS_PATTERN_match raw_id content doc file_path w = (Ok event, w') ->
    exists a,
      event_properties event !! "agent_id" = Some (PStr a)
      /\ a <> EmptyString
      /\ (event_properties event !! "unknown_agent" = Some (PBool true) ->
          a = "UNKNOWN_AUTHORITY").
Proof.
  intros sha1_hex KV DESC OBS raw_id content doc file_path w event w' H.
  apply parse_event_block_agent in H as (st & -> & ->).
  unfold Block.has, Block.get_str, Block.get.
  destruct (data st !! "agent_id") as [v|]; cbn [default].
  - destruct (PyStr.truthy v) eqn:Hv.
    + exists v. split; [done|]. split; [by intros ->|].
      intros [= H]. by apply String.eqb_eq in H.
    + exists "UNKNOWN_AUTHORITY". by repeat split.
  - exists "UNKNOWN_AUTHORITY". by repeat split.
Qed.

Lemma event_agent_is_never_empty_witness :
  exists a,
    a <> EmptyString
    /\ match (EventParser._parse_event_block (fun x => x) (fun _ => None)
                (fun _ => false) (fun _ => false) "arrest-1942"
                "- date_edtf: 1942-03-29" "/id/document/d1" "letter.md"
                None).1 with
       | Ok event => event_properties event !! "agent_id" = Some (PStr a)
       | Raise _ => False
       end.
Proof.
  destruct (EventParser._parse_event_block _ _ _ _ _ _ _ _ _)
    as [[event|e] w'] eqn:E; cbn [fst].
  - destruct (event_agent_is_never_empty _ _ _ _ _ _ _ _ _ _ _ E)
      as (a & Ha & Hne & _).
    by exists a.
  - vm_compute in E. discriminate E.
Defined.

(** X14.  An entity that a line [- victim:], [- agent:] or [- place:] of
    an event block names is never among the references of the event
    record, even if the description links to it as well. *)
Theorem event_references_exclude_named_entities :
  forall sha1_hex KV_RE_match DESC_PATTERN_match OBS_PATTERN_match
         raw_id content doc file_path w event w' (i : nat) line key val e,
    PyStr.splitlines content !! i = Some line ->
    DESC_PATTERN_match (PyStr.strip line) = false ->
    OBS_PATTERN_match (PyStr.strip line) = false ->
    PyStr.truthy (PyStr.strip line) = true ->
    PyStr.startswith "**" (PyStr.strip line) = false ->
    KV_RE_match line = Some (key, val) ->
    key ∈ ["victim"; "agent"; "place"] ->
    (EventParser._extract_entity_id (PyStr.strip val) None file_path 0).1
    = Some e ->
    e <> EmptyString ->
    EventParser._parse_event_block sha1_hex KV_RE_match DESC_PATTERN_match
      OBS_PATTERN_match raw_id content doc file_path w = (Ok event, w') ->
    e ∉ event_references event.
Proof.
  intros sha1_hex KV DESC OBS raw_id content doc file_path w event w' i line
    key val e. apply event_references_exclude.
Qed.

Lemma event_references_exclude_named_entities_witness :
  match (EventParser._parse_event_block (fun x => x) Blocks.KV_RE_match
           Blocks.DESC_PATTERN_match (fun _ => false) "arrest-1942"
           Blocks.event_content "/id/document/d1" "letter.md" None).1 with
  | Ok event =>
      Blocks.suspect ∉ event_references event
  | Raise _ => False
  end.
Proof.
  destruct (EventParser._parse_event_block _ _ _ _ _ _ _ _ _)
    as [[event|e] w'] eqn:E; cbn [fst].
  - eapply (event_references_exclude_named_entities _ _ _ _ _ _ _ _ _ _ _
              0 ("- victim: [[" +:+ Blocks.suspect +:+ "]]") "victim"
              ("[[" +:+ Blocks.suspect +:+ "]]") Blocks.suspect);
      [.. | exact E];
      [vm_compute; reflexivity.. | apply list_elem_of_here | vm_compute; reflexivity
      | vm_compute; discriminate].
  - vm_compute in E. discriminate E.
Defined.

Section MicroBlocks.
Import PyStr.
Context (sha1_hex : string -> string)
        (KV_RE_match : string -> option (string * string))
        (_extract_reply_date : string -> option string).

Lemma micro_entity_result x w w' file_path n :
  (MicroActionParser._extract_entity_id x w file_path n).1
  = (MicroActionParser._extract_entity_id x w' file_path n).1.
Proof.
  unfold MicroActionParser._extract_entity_id.
  destruct (negb (startswith "[[" x)); [done|].
  pose proof (clean_id_result x w w' (Some file_path) (Some n)) as H.
  destruct (WikilinkExtractor.clean_id x w _ _) as [[id|err] w1],
    (WikilinkExtractor.clean_id x w' _ _) as [[id'|err'] w2];
    simpl in *; congruence.
Qed.

Lemma micro_line_mono file_path st line :
  specific_entities st
  ⊆ specific_entities
      (MicroActionParser.block_line KV_RE_match file_path st line).
Proof.
  unfold MicroActionParser.block_line. cbv zeta.
  repeat case_match; simpl; set_solver.
Qed.

Lemma micro_lines_mono file_path lines st :
  specific_entities st
  ⊆ specific_entities
      (foldl (MicroActionParser.block_line KV_RE_match file_path) st lines).
Proof.
  revert st. induction lines as [|l lines IH]; intros st; simpl; [done|].
  etrans; [apply (micro_line_mono file_path st l)|apply IH].
Qed.

Lemma micro_line_names file_path st line key val e :
  truthy (strip line) = true ->
  startswith "**" (strip line) = false ->
  KV_RE_match (strip line) = Some (key, val) ->
  key ∈ ["actor"; "recipient"; "about"] ->
  (MicroActionParser._extract_entity_id (strip val) None file_path 0).1
  = Some e ->
  e <> EmptyString ->
  e ∈ specific_entities
        (MicroActionParser.block_line KV_RE_match file_path st line).
Proof.
  intros Ht Hs Hkv Hkey He Hne.
  unfold MicroActionParser.block_line. cbv zeta.
  rewrite Ht, Hs, Hkv. simpl negb. cbv iota. rewrite orb_false_l.
  assert (existsb (String.eqb key) ["actor"; "recipient"; "about"] = true)
    as ->.
  { apply existsb_exists. exists key.
    split; [by apply list_elem_of_In | apply String.eqb_refl]. }
  pose proof (micro_entity_result (strip val) (block_warnings st) None
                file_path 0) as Hr.
  destruct (MicroActionParser._extract_entity_id (strip val)
              (block_warnings st) file_path 0) as [entity w1].
  simpl in Hr. rewrite He in Hr. subst entity.
  assert (truthy e = true) as -> by (by destruct e).
  simpl. set_solver.
Qed.

Lemma micro_references_exclude raw_id content doc file_path w micro w'
    (i : nat) line key val e :
  splitlines content !! i = Some line ->
  truthy (strip line) = true ->
  startswith "**" (strip line) = false ->
  KV_RE_match (strip line) = Some (key, val) ->
  key ∈ ["actor"; "recipient"; "about"] ->
  (MicroActionParser._extract_entity_id (strip val) None file_path 0).1
  = Some e ->
  e <> EmptyString ->
  MicroActionParser._parse_micro_block sha1_hex KV_RE_match
    _extract_reply_date raw_id content doc file_path w = (Ok micro, w') ->
  e ∉ micro_references micro.
Proof.
  intros Hi Ht Hs Hkv Hkey He Hne.
  apply list_elem_of_lookup_2, list_elem_of_split in Hi as (l1 & l2 & Hl).
  unfold MicroActionParser._parse_micro_block. cbv zeta.
  rewrite Hl, foldl_app. cbn [foldl].
  set (st1 := foldl _ (Block.init raw_id w) l1).
  pose proof (micro_line_names file_path st1 line key val e Ht Hs Hkv
                Hkey He Hne) as H1.
  pose proof (micro_lines_mono file_path l2
                (MicroActionParser.block_line KV_RE_match file_path st1
                   line)) as H2.
  set (st2 := foldl _ (MicroActionParser.block_line _ _ st1 line) l2) in *.
  assert (e ∈ specific_entities st2) as Hst2 by set_solver.
  clearbody st2. clear H1 H2.
  destruct (EventParser.links_of_field _ "observations" _ _)
    as [all_links w1].
  destruct (EventParser.block_dates _) as [[[ds de] precision]|err];
    [|discriminate].
  destruct (MicroActionParser.reply_anchor _ _ _ _ _) as [anchor w2].
  intros H.
  pose proof (f_equal (fun p : result MicroActionRecord
                               * option WikilinkWarnings =>
                         match p.1 with
                         | Ok x => micro_references x
                         | Raise _ => ∅
                         end) H) as Hp.
  cbv beta iota delta [fst] in Hp. rewrite <- Hp. simpl.
  intros [_ Hn]%elem_of_difference. by apply Hn.
Qed.

End MicroBlocks.

(** X15.  An entity that a line [- actor:], [- recipient:] or [- about:]
    of a micro-action block names is never among the references of the
    micro-action record, even if a text field links to it as well. *)
Theorem micro_references_exclude_named_entities :
  forall sha1_hex KV_RE_match _extract_reply_date
         raw_id content doc file_path w micro w' (i : nat) line key val e,
    PyStr.splitlines content !! i = Some line ->
    PyStr.truthy (PyStr.strip line) = true ->
    PyStr.startswith "**" (PyStr.strip line) = false ->
    KV_RE_match (PyStr.strip line) = Some (key, val) ->
    key ∈ ["actor"; "recipient"; "about"] ->
    (MicroActionParser._extract_entity_id (PyStr.strip val) None file_path 0).1
    = Some e ->
    e <> EmptyString ->
    MicroActionParser._parse_micro_block sha1_hex KV_RE_match
      _extract_reply_date raw_id content doc file_path w = (Ok micro, w') ->
    e ∉ micro_references micro.
Proof.
  intros sha1_hex KV reply raw_id content doc file_path w micro w' i line
    key val e. apply micro_references_exclude.
Qed.

Lemma micro_references_exclude_named_entities_witness :
  match (MicroActionParser._parse_micro_block (fun x => x)
           Blocks.KV_RE_match (fun _ => None) "letter-7"
           Blocks.micro_content "/id/document/d1" "letter.md" None).1 with
  | Ok micro =>
      Blocks.suspect ∉ micro_references micro
  | Raise _ => False
  end.
Proof.
  destruct (MicroActionParser._parse_micro_block _ _ _ _ _ _ _ _)
    as [[micro|e] w'] eqn:E; cbn [fst].
  - eapply (micro_references_exclude_named_entities _ _ _ _ _ _ _ _ _ _
              0 ("- actor: [[" +:+ Blocks.suspect +:+ "]]") "actor"
              ("[[" +:+ Blocks.suspect +:+ "]]") Blocks.suspect);
      [.. | exact E];
      [vm_compute; reflexivity.. | apply list_elem_of_here | vm_compute; reflexivity
      | vm_compute; discriminate].
  - vm_compute in E. discriminate E.
Defined.

(* ===================================================================== *)
(** * The projector: stored dates, missing targets, repeated edges        *)
(* ===================================================================== *)

Section CommitFacts.
Import PyStr Cypher MasterImport Spec.

Lemma parse_edtf_date_precision (s : string) :
  date_precision (parse_edtf_date s)
  ∈ ["unknown"; "open_start"; "open_end"; "interval"; "approximate";
     "uncertain"; "exact"].
Proof.
  unfold parse_edtf_date. cbv zeta.
  repeat case_match; cbn [date_precision];
    repeat first [apply list_elem_of_here | apply list_elem_of_further].
Qed.

Lemma commit_dates_precision (props props' : gmap string pyval) :
  commit_dates props = Ok props' ->
  exists p,
    props' !! "date_precision" = Some (PStr p)
    /\ p ∈ ["unknown"; "open_start"; "open_end"; "interval"; "approximate";
            "uncertain"; "exact"].
Proof.
  unfold commit_dates. cbv zeta.
  destruct (Py.truthy _).
  - destruct (default PNone (props !! "date_edtf")); try done.
    intros [= <-]. eexists. split; [by simplify_map_eq|].
    apply parse_edtf_date_precision.
  - intros [= <-]. eexists. split; [by simplify_map_eq|].
    apply list_elem_of_here.
Qed.

(** The commit-time parser on the two open forms of a full date. *)
Lemma commit_open (d : string) :
  exactly EDTFParser.FULL d ->
  commit_triple (d +:+ "/..") = (Some d, None, "open_end")
  /\ commit_triple ("../" +:+ d) = (None, Some d, "open_start").
Proof.
  intros Hd.
  destruct (date_chars_of EDTFParser.FULL d) as [Hc Hne]; [tauto | done |].
  destruct (date_text_facts d Hc) as (Hsd & _ & Hslash & _ & _ & Hdot).
  assert (all_chars (fun c => negb (is_space c)) d = true) as Hns.
  { eapply all_chars_weaken; [|exact Hc]. intros a Ha. simpl.
    by rewrite (date_char_space a Ha). }
  assert (exists c d', d = String c d' /\ date_char c = true)
    as (c & d' & Hdc & Hcc).
  { destruct d as [|c d']; [done|]. exists c, d'. split; [done|].
    simpl in Hc. by apply andb_true_iff in Hc as [? _]. }
  destruct (date_char_first c Hcc) as [Hc1 Hc2].
  split.
  - set (s := d +:+ "/..").
    assert (strip s = s) as Hstrip.
    { unfold strip. apply strip_by_id. unfold s.
      by rewrite all_chars_app, Hns. }
    assert (negb (truthy s) || String.eqb s EmptyString = false) as H0.
    { unfold s. by rewrite Hdc. }
    assert (String.eqb s ".." = false) as H1.
    { unfold s. rewrite Hdc, append_cons. simpl. by rewrite Hc2. }
    assert (mem "/" s = true) as H2.
    { unfold s. rewrite mem_app. apply orb_true_r. }
    assert (split_char "/" s = [d; ".."]) as H3.
    { unfold s. change "/.." with (String "/"%char "..").
      by rewrite split_char_app. }
    unfold commit_triple, parse_edtf_date.
    rewrite Hstrip, H0, H1, H2, H3. cbn [hd]. rewrite Hsd.
    rewrite (interval_side_token d) by done. reflexivity.
  - set (s := "../" +:+ d).
    assert (strip s = s) as Hstrip.
    { unfold strip. apply strip_by_id. unfold s.
      by rewrite all_chars_app, Hns. }
    assert (String.eqb ".." s = false) as H1.
    { apply (eqb_false_of_mem "/" ".." s); [done|]. unfold s.
      rewrite mem_app. reflexivity. }
    rewrite String.eqb_sym in H1.
    assert (mem "/" s = true) as H2.
    { unfold s. rewrite mem_app. reflexivity. }
    assert (split_char "/" s = [".."; d]) as H3.
    { unfold s. change ("../" +:+ d) with (".." +:+ String "/"%char d).
      rewrite split_char_app by done. by rewrite split_char_none. }
    unfold commit_triple, parse_edtf_date.
    rewrite Hstrip. cbn [negb truthy]. rewrite H1, H2, H3.
    assert ((negb (truthy s) || String.eqb s EmptyString) = false) as ->
      by done.
    cbn [hd]. rewrite Hsd.
    rewrite (interval_side_token d) by done. reflexivity.
Qed.

Lemma merge_rels_nil_r ty srcs g : merge_rels ty srcs [] g = g.
Proof.
  unfold merge_rels.
  assert ((src ← srcs; dst ← []; [(src, dst)]) = @nil (nat * nat)) as ->.
  { apply elem_of_nil_inv. intros [s d].
    intros (src & (dst & _ & Hdst)%list_elem_of_bind & _)%list_elem_of_bind.
    by apply elem_of_nil in Hdst. }
  done.
Qed.

Lemma positions_nil_impl {A} (p q : A -> bool) (k : nat) (l : list A) :
  (forall x, q x = true -> p x = true) ->
  positions p k l = [] -> positions q k l = [].
Proof.
  intros Hpq. revert k. induction l as [|x l IH]; intros k; simpl; [done|].
  destruct (p x) eqn:Hp; [done|].
  destruct (q x) eqn:Hq; [|apply IH].
  apply Hpq in Hq. congruence.
Qed.

(** No node of any label when there is none without a label. *)
Lemma match_nodes_none lbl k v g :
  match_nodes None k v g = [] -> match_nodes (Some lbl) k v g = [].
Proof.
  unfold match_nodes. apply positions_nil_impl.
  intros n. unfold node_matches. by intros [_ ->]%andb_true_iff.
Qed.

(** An edge that is there stays there, and the one that is merged is
    there afterwards. *)
Lemma merge_rel_present ty g s d :
  existsb (rel_is s ty d) (rels g) = true -> merge_rel ty g (s, d) = g.
Proof. unfold merge_rel. by intros ->. Qed.

Lemma merge_rel_keeps ty ty' g row s d :
  existsb (rel_is s ty d) (rels g) = true ->
  existsb (rel_is s ty d) (rels (merge_rel ty' g row)) = true.
Proof.
  intros H. unfold merge_rel. destruct row as [s' d'].
  destruct (existsb (rel_is s' ty' d') (rels g)); [done|]. simpl.
  rewrite existsb_app, H. done.
Qed.

Lemma merge_rel_makes ty g s d :
  existsb (rel_is s ty d) (rels (merge_rel ty g (s, d))) = true.
Proof.
  unfold merge_rel. destruct (existsb (rel_is s ty d) (rels g)) eqn:H;
    [done|]. simpl.
  rewrite existsb_app. simpl. unfold rel_is at 2. simpl.
  rewrite !Nat.eqb_refl, String.eqb_refl. simpl. apply orb_true_r.
Qed.

Lemma merge_rows_keep ty g rows s d :
  existsb (rel_is s ty d) (rels g) = true ->
  existsb (rel_is s ty d) (rels (foldl (merge_rel ty) g rows)) = true.
Proof.
  revert g. induction rows as [|row rows IH]; intros g H; cbn [foldl];
    [done|].
  by apply IH, merge_rel_keeps.
Qed.

Lemma merge_rows_all ty rows g s d :
  (s, d) ∈ rows ->
  existsb (rel_is s ty d) (rels (foldl (merge_rel ty) g rows)) = true.
Proof.
  revert g. induction rows as [|row rows IH]; intros g; cbn [foldl].
  - by intros ?%elem_of_nil.
  - intros [<- | Hin]%elem_of_cons.
    + apply merge_rows_keep, merge_rel_makes.
    + by apply IH.
Qed.

Lemma merge_rows_noop ty rows g :
  (forall s d, (s, d) ∈ rows ->
               existsb (rel_is s ty d) (rels g) = true) ->
  foldl (merge_rel ty) g rows = g.
Proof.
  induction rows as [|[s d] rows IH]; intros H; cbn [foldl]; [done|].
  rewrite merge_rel_present by (apply H; left).
  apply IH. intros s' d' Hin. apply H. by right.
Qed.

End CommitFacts.

(** X16.  The precision stored with an event or a micro-action is one of
    [unknown], [open_start], [open_end], [interval], [approximate],
    [uncertain] and [exact]: the values [day], [month], [year], [circa],
    [before] and [after] of the extractor never reach the graph. *)
Theorem stored_precision_vocabulary :
  let vocabulary :=
    ["unknown"; "open_start"; "open_end"; "interval"; "approximate";
     "uncertain"; "exact"] in
  (forall g event g',
     MasterImport.import_event g event = Ok g' ->
     forall i n,
       nodes g' !! i = Some n -> node_label n = "Event" ->
       Cypher.prop "event_id" n = PStr (event_id event) ->
       exists p, Cypher.prop "date_precision" n = PStr p /\ p ∈ vocabulary)
  /\ (forall g micro g',
        MasterImport.import_microaction g micro = Ok g' ->
        forall i n,
          nodes g' !! i = Some n -> node_label n = "MicroAction" ->
          Cypher.prop "micro_id" n = PStr (micro_id micro) ->
          exists p, Cypher.prop "date_precision" n = PStr p /\ p ∈ vocabulary).
Proof.
  intros vocabulary. split.
  - intros g event g' H i n Hn Hl Hid.
    destruct (MasterImport.commit_dates (event_properties event))
      as [props|e] eqn:Hc.
    + destruct (commit_dates_precision _ _ Hc) as (p & Hp & Hin).
      destruct (import_event_stored g event props Hc) as (g0 & Hg & Hstored).
      rewrite H in Hg. injection Hg as <-.
      exists p. split; [|done]. by eapply Hstored.
    + unfold MasterImport.import_event in H. by rewrite Hc in H.
  - intros g micro g' H i n Hn Hl Hid.
    destruct (MasterImport.commit_dates (micro_properties micro))
      as [props|e] eqn:Hc.
    + destruct (commit_dates_precision _ _ Hc) as (p & Hp & Hin).
      destruct (import_microaction_stored g micro props Hc)
        as (g0 & Hg & Hstored).
      rewrite H in Hg. injection Hg as <-.
      exists p. split; [|done]. by eapply Hstored.
    + unfold MasterImport.import_microaction in H. by rewrite Hc in H.
Qed.

Lemma stored_precision_vocabulary_witness :
  exists g' n p,
    MasterImport.import_event Cypher.empty sample_event = Ok g'
    /\ nodes g' !! 0 = Some n
    /\ Cypher.prop "date_precision" n = PStr p
    /\ p ∈ ["unknown"; "open_start"; "open_end"; "interval"; "approximate";
            "uncertain"; "exact"].
Proof.
  destruct (MasterImport.import_event Cypher.empty sample_event)
    as [g'|e] eqn:E; [|vm_compute in E; discriminate].
  destruct (nodes g' !! 0) as [n|] eqn:En;
    [|vm_compute in E; injection E as <-; vm_compute in En; discriminate].
  destruct (proj1 stored_precision_vocabulary Cypher.empty sample_event g' E
              0 n En) as (p & Hp & Hin).
  - vm_compute in E. injection E as <-. vm_compute in En.
    injection En as <-. reflexivity.
  - vm_compute in E. injection E as <-. vm_compute in En.
    injection En as <-. vm_compute. reflexivity.
  - by exists g', n, p.
Defined.

(** X17.  At commit time the open forms of a full date keep the known
    side only: [D/..] is stored with start [D], no end and precision
    [open_end]; [../D] with no start, end [D] and precision
    [open_start]. *)
Theorem commit_open_dates :
  forall d : string,
    Spec.exactly EDTFParser.FULL d ->
    Spec.commit_triple (d +:+ "/..") = (Some d, None, "open_end")
    /\ Spec.commit_triple ("../" +:+ d) = (None, Some d, "open_start").
Proof. exact commit_open. Qed.

Lemma commit_open_dates_witness :
  Spec.commit_triple "1942-03-29/.." = (Some "1942-03-29", None, "open_end")
  /\ Spec.commit_triple "../1942-05-05"
     = (None, Some "1942-05-05", "open_start").
Proof.
  split.
  - apply (proj1 (commit_open_dates "1942-03-29" eq_refl)).
  - apply (proj2 (commit_open_dates "1942-05-05" eq_refl)).
Defined.

(** X18.  A link to an id that no node of the graph carries is dropped:
    the generic reference and the three specific relations leave the
    graph as it is, and no placeholder node is created. *)
Theorem links_to_missing_targets_are_dropped :
  forall (g : Graph) (target : string),
    Cypher.match_nodes None "id" (PStr target) g = [] ->
    (forall srcs, MasterImport.reference srcs g target = g)
    /\ (forall entity_id rel_type,
          MasterImport.specific_relation entity_id rel_type g target = g).
Proof.
  intros g target Hnone. split.
  - intros srcs. unfold MasterImport.reference.
    rewrite Hnone. apply merge_rels_nil_r.
  - intros entity_id rel_type. unfold MasterImport.specific_relation.
    rewrite !(match_nodes_none _ _ _ _ Hnone).
    repeat case_match; try done; apply merge_rels_nil_r.
Qed.

Lemma links_to_missing_targets_are_dropped_witness :
  MasterImport.reference
    (Cypher.match_nodes None "id" (PStr Register.clerk)) Register.once
    "/id/org/0a000000-0000-4000-8000-000000000001" = Register.once
  /\ MasterImport.specific_relation Register.clerk "WORKED_FOR" Register.once
       "/id/org/0a000000-0000-4000-8000-000000000001" = Register.once.
Proof.
  destruct (links_to_missing_targets_are_dropped Register.once
              "/id/org/0a000000-0000-4000-8000-000000000001") as [Hr Hs].
  - vm_compute. reflexivity.
  - split; [apply Hr | apply Hs].
Defined.

(** X19.  The link writes of the import are merges: writing a specific
    relation or a generic reference a second time adds no edge and leaves
    the graph as the first write left it. *)
Theorem link_writes_are_idempotent :
  forall (g : Graph) (target : string),
    (forall entity_id rel_type,
       MasterImport.specific_relation entity_id rel_type
         (MasterImport.specific_relation entity_id rel_type g target) target
       = MasterImport.specific_relation entity_id rel_type g target)
    /\ (forall lbl key v,
          let self := Cypher.match_nodes lbl key v in
          MasterImport.reference self (MasterImport.reference self g target)
            target
          = MasterImport.reference self g target).
Proof.
  intros g target.
  assert (forall ty srcs dsts g0,
            Cypher.merge_rels ty srcs dsts (Cypher.merge_rels ty srcs dsts g0)
            = Cypher.merge_rels ty srcs dsts g0) as Hidem.
  { intros ty srcs dsts g0. unfold Cypher.merge_rels.
    apply merge_rows_noop. intros s d Hin. by apply merge_rows_all. }
  assert (forall lbl key v ty srcs dsts g0,
            Cypher.match_nodes lbl key v (Cypher.merge_rels ty srcs dsts g0)
            = Cypher.match_nodes lbl key v g0) as Hsame.
  { intros. unfold Cypher.match_nodes. by rewrite nodes_merge_rels. }
  split.
  - intros entity_id rel_type. unfold MasterImport.specific_relation.
    repeat case_match; try done; by rewrite !Hsame, Hidem.
  - intros lbl key v self. unfold MasterImport.reference, self.
    by rewrite !Hsame, Hidem.
Qed.

(** X20.  An event whose properties hold no date expression, or an empty
    one, is stored without start and end date, with precision [unknown]
    and with the gap flag set. *)
Theorem event_without_date_is_stored_unknown :
  forall g event,
    Py.truthy (default PNone (event_properties event !! "date_edtf")) = false ->
    exists g',
      MasterImport.import_event g event = Ok g'
      /\ forall i n,
           nodes g' !! i = Some n -> node_label n = "Event" ->
           Cypher.prop "event_id" n = PStr (event_id event) ->
           Cypher.prop "date_start" n = PNone
           /\ Cypher.prop "date_end" n = PNone
           /\ Cypher.prop "date_precision" n = PStr "unknown"
           /\ Cypher.prop "gap_flag" n = PBool true.
Proof.
  intros g event Hd.
  assert (exists props,
            MasterImport.commit_dates (event_properties event) = Ok props
            /\ props !! "date_start" = Some PNone
            /\ props !! "date_end" = Some PNone
            /\ props !! "date_precision" = Some (PStr "unknown")
            /\ props !! "gap_flag" = Some (PBool true))
    as (props & Hc & H1 & H2 & H3 & H4).
  { unfold MasterImport.commit_dates. rewrite Hd.
    eexists. split; [done|]. by simplify_map_eq. }
  destruct (import_event_stored g event props Hc) as (g' & Hg & Hstored).
  exists g'. split; [done|]. intros i n Hn Hl Hid.
  repeat split; by eapply Hstored.
Qed.

Lemma event_without_date_is_stored_unknown_witness :
  exists g',
    MasterImport.import_event Cypher.empty undated_event = Ok g'
    /\ forall i n,
         nodes g' !! i = Some n -> node_label n = "Event" ->
         Cypher.prop "event_id" n = PStr (event_id undated_event) ->
         Cypher.prop "date_start" n = PNone
         /\ Cypher.prop "date_end" n = PNone
         /\ Cypher.prop "date_precision" n = PStr "unknown"
         /\ Cypher.prop "gap_flag" n = PBool true.
Proof.
  apply (event_without_date_is_stored_unknown Cypher.empty undated_event).
  vm_compute. reflexivity.
Defined.

(* ===================================================================== *)
(** * The derived relations: nodes, a second run, the case timeline       *)
(* ===================================================================== *)

Section RuleFacts.
Import Cypher RelationCalculator Spec.
Variable cypher_date : string -> option Z.

Lemma link_raise e l :
  foldl (link_reply cypher_date) (Raise e) l = Raise e.
Proof. induction l as [|row l IH]; [done|]. cbn [foldl]. exact IH. Qed.

Lemma link_nodes l g0 c0 g1 c1 :
  foldl (link_reply cypher_date) (Ok (g0, c0)) l = Ok (g1, c1) ->
  nodes g1 = nodes g0.
Proof.
  revert g0 c0. induction l as [|row l IH]; intros g0 c0; cbn [foldl].
  - by intros [= <- _].
  - unfold link_reply at 2. cbn [mbind result_bind].
    destruct (latest_original cypher_date g0 row.2) as [o|e];
      cbn [mbind result_bind]; [|by rewrite link_raise].
    destruct o as [o|]; intros H; apply IH in H; [|done].
    by rewrite H, nodes_merge_rel_set.
Qed.

Lemma existsb_fmap_same {A} (q : A -> bool) (f : A -> A) (l : list A) :
  (forall x, q (f x) = q x) -> existsb q (f <$> l) = existsb q l.
Proof.
  intros Hq. induction l as [|x l IH]; [done|].
  cbn [fmap list_fmap existsb]. change (list_fmap _ _ f l) with (f <$> l).
  by rewrite Hq, IH.
Qed.

Lemma has_out_merge_rel_set ty s g ty' props row :
  has_out ty s g = true ->
  has_out ty s (merge_rel_set ty' props g row) = true.
Proof.
  unfold has_out, merge_rel_set. destruct row as [a b]. cbn [rels].
  intros H. rewrite existsb_fmap_same.
  - unfold merge_rel. destruct (existsb (rel_is a ty' b) (rels g)); [done|].
    cbn [rels]. by rewrite existsb_app, H.
  - intros x. by destruct (rel_is a ty' b x).
Qed.

Lemma has_out_link ty s l g0 c0 g1 c1 :
  foldl (link_reply cypher_date) (Ok (g0, c0)) l = Ok (g1, c1) ->
  has_out ty s g0 = true -> has_out ty s g1 = true.
Proof.
  revert g0 c0. induction l as [|row l IH]; intros g0 c0; cbn [foldl].
  - by intros [= <- _].
  - unfold link_reply at 2. cbn [mbind result_bind].
    destruct (latest_original cypher_date g0 row.2) as [o|e];
      cbn [mbind result_bind]; [|by rewrite link_raise].
    destruct o as [o|]; intros H Hout; eapply IH; try exact H; [|done].
    by apply has_out_merge_rel_set.
Qed.

Lemma link_noop l g c :
  (forall i n, (i, n) ∈ l -> latest_original cypher_date g n = Ok None) ->
  foldl (link_reply cypher_date) (Ok (g, c)) l = Ok (g, c).
Proof.
  induction l as [|[i n] l IH]; intros H; cbn [foldl]; [done|].
  unfold link_reply at 2. cbn [mbind result_bind snd].
  rewrite (H i n) by left. cbn [mbind result_bind].
  apply IH. intros i' n' Hin. apply (H i' n'). by right.
Qed.

(** A selected reply that has a candidate leaves the rule with a reply
    edge. *)
Lemma reply_gets_edge g replies g' created r reply c cs :
  NoDup replies.*1 ->
  (forall i m, (i, m) ∈ replies ->
               exists cs, candidates cypher_date g m = Ok cs) ->
  (r, reply) ∈ replies ->
  candidates cypher_date g reply = Ok (c :: cs) ->
  replies_from r g = [] ->
  foldl (link_reply cypher_date) (Ok (g, 0)) replies = Ok (g', created) ->
  replies_from r g' <> [].
Proof.
  intros Hnd Hall Hin Hcs Hnone.
  apply list_elem_of_split in Hin as (l1 & l2 & ->).
  rewrite fmap_app, fmap_cons in Hnd.
  apply NoDup_app in Hnd as (_ & Hnot & Hnd2).
  apply NoDup_cons in Hnd2 as [Hr2 _].
  assert (r ∉ l1.*1) as Hr1.
  { intros H. apply (Hnot r H). left. }
  rewrite foldl_app. cbn [foldl].
  destruct (link_others cypher_date g r l1 g 0 eq_refl Hr1)
    as (g1 & c1 & -> & Hn1 & Hf1).
  { intros i n Hi. apply (Hall i n). apply elem_of_app. by left. }
  rewrite (link_reply_step cypher_date g g1 c1 r reply _ Hn1 Hcs).
  pose proof (head_order_desc (c :: cs)) as Hhead.
  destruct (head (order_desc (c :: cs))) as [[o d]|]; [|done].
  cbn [fmap option_fmap option_map fst].
  destruct (link_others cypher_date g r l2
              (merge_rel_set "REPLIES_TO" COMPUTED g1 (r, o)) (S c1))
    as (g2 & c2 & -> & Hn2 & Hf2); [by rewrite nodes_merge_rel_set|done| |].
  { intros i n Hi. apply (Hall i n). apply elem_of_app. right. by right. }
  intros [= <- _]. rewrite Hf2, replies_from_merge_self; [done|].
  by rewrite Hf1.
Qed.

Lemma well_stored_nodes g g' :
  nodes g' = nodes g -> well_stored cypher_date g' = well_stored cypher_date g.
Proof. unfold well_stored. by intros ->. Qed.

Lemma reply_rows_total g :
  well_stored cypher_date g = true ->
  exists replies,
    select (fun (i : nat) (n : Node) =>
              b ← reply_row g i n;
              Ok (if b : bool then Some n else None)) 0 (nodes g)
    = Ok replies.
Proof.
  intros Hg. apply select_total. intros j x Hx.
  destruct (reply_row_total cypher_date g j x) as [b Hb].
  { intros Hmx. by eapply well_stored_lookup. }
  simpl. rewrite Hb. simpl. by eexists.
Qed.

(** What a selected row is. *)
Lemma reply_rows_elem g replies i n :
  select (fun (i : nat) (n : Node) =>
            b ← reply_row g i n;
            Ok (if b : bool then Some n else None)) 0 (nodes g)
  = Ok replies ->
  (i, n) ∈ replies <-> nodes g !! i = Some n /\ reply_row g i n = Ok true.
Proof.
  intros Hsel. rewrite (select_elem _ _ _ _ Hsel). split.
  - intros (j & x & -> & Hx & Hp). simpl in *.
    destruct (reply_row g j x) as [b|] eqn:Hb; [|done].
    simpl in Hp. destruct b; [|done]. by injection Hp as <-.
  - intros [Hn Hrow]. exists i, n. split; [done|]. split; [done|].
    by rewrite Hrow.
Qed.

Lemma second_run g g' created :
  well_stored cypher_date g = true ->
  calculate_replies_to cypher_date g = Ok (g', created) ->
  calculate_replies_to cypher_date g' = Ok (g', 0).
Proof.
  intros Hg. unfold calculate_replies_to at 1.
  destruct (reply_rows_total g Hg) as [replies Hsel]. rewrite Hsel.
  cbn [mbind result_bind]. intros Hrun.
  pose proof (link_nodes _ _ _ _ _ Hrun) as Hn.
  assert (well_stored cypher_date g' = true) as Hg'
    by (by rewrite (well_stored_nodes g g' Hn)).
  unfold calculate_replies_to.
  destruct (reply_rows_total g' Hg') as [replies2 Hsel2]. rewrite Hsel2.
  cbn [mbind result_bind]. apply link_noop. intros i n Hin.
  apply (reply_rows_elem g' replies2 i n Hsel2) in Hin as [Hi Hrow].
  destruct (reply_row_true _ _ _ Hrow) as (Hm & Hf & Ha & Hr & Hd & Hout).
  assert (has_out "REPLIES_TO" i g = false) as Hout0.
  { destruct (has_out "REPLIES_TO" i g) eqn:H; [|done].
    apply (has_out_link _ _ _ _ _ _ _ Hrun) in H. congruence. }
  rewrite Hn in Hi.
  assert (reply_row g i n = Ok true) as Hrow0.
  { unfold reply_row. rewrite Hm, Hf. simpl.
    rewrite Ha, Hr, Hd, Hout0. reflexivity. }
  assert (forall j m, (j, m) ∈ replies ->
            exists cs, candidates cypher_date g m = Ok cs) as Hall.
  { intros j m Hj.
    apply (reply_rows_elem g replies j m Hsel) in Hj as [Hj Hjrow].
    destruct (reply_row_true _ _ _ Hjrow) as (Hm' & _ & _ & _ & Hd' & _).
    apply candidates_total; [done | done | | done].
    by apply (well_stored_lookup cypher_date g j m). }
  assert ((i, n) ∈ replies) as Hin1
    by (by apply (reply_rows_elem g replies i n Hsel)).
  destruct (Hall i n Hin1) as [cs Hcs].
  unfold latest_original. rewrite (candidates_nodes cypher_date g g' n Hn), Hcs.
  cbn [mbind result_bind].
  destruct cs as [|c cs]; [done|]. exfalso.
  destruct (select_indices _ _ _ _ Hsel) as [_ Hnd].
  apply (reply_gets_edge g replies g' created i n c cs Hnd Hall Hin1 Hcs);
    [by apply has_out_replies_from | done | by apply has_out_replies_from].
Qed.

End RuleFacts.

(** X21.  Run a second time on the graph that it left, the reply rule
    creates nothing and leaves the graph as it is: a reply that has its
    edge is not selected again, and one without a candidate still has
    none. *)
Theorem replies_rule_is_idempotent :
  forall (cypher_date : string -> option Z) (g g' : Graph) (created : nat),
    Spec.well_stored cypher_date g = true ->
    RelationCalculator.calculate_replies_to cypher_date g = Ok (g', created) ->
    RelationCalculator.calculate_replies_to cypher_date g' = Ok (g', 0).
Proof. exact second_run. Qed.

Lemma replies_rule_is_idempotent_witness :
  exists g',
    RelationCalculator.calculate_replies_to Letters.day Letters.graph
    = Ok (g', 1)
    /\ RelationCalculator.calculate_replies_to Letters.day g' = Ok (g', 0).
Proof.
  eexists. split; [vm_compute; reflexivity|].
  eapply (replies_rule_is_idempotent Letters.day Letters.graph);
    vm_compute; reflexivity.
Defined.

Section RowFacts.
Import Cypher RelationCalculator Spec.

Lemma nodes_merge_rows ty g rows :
  nodes (merge_rows ty g rows).1 = nodes g.
Proof.
  unfold merge_rows. cbn [fst]. revert g.
  induction rows as [|[[a b] props] rows IH]; intros g; cbn [foldl]; [done|].
  by rewrite IH, nodes_merge_rel_set.
Qed.

(** An edge after [MERGE ... SET] for one row was there before, or is
    the edge of the row. *)
Lemma rels_merge_rel_set ty props g a b r :
  r ∈ rels (merge_rel_set ty props g (a, b)) ->
  r ∈ rels g \/ (rel_src r = a /\ rel_type r = ty /\ rel_dst r = b).
Proof.
  unfold merge_rel_set. cbn [rels].
  intros (r0 & -> & Hr0)%list_elem_of_fmap.
  destruct (rel_is a ty b r0) eqn:Hrel.
  - right. unfold rel_is in Hrel.
    apply andb_true_iff in Hrel as [[H1 H2]%andb_true_iff H3]. cbn.
    apply Nat.eqb_eq in H1, H3. by apply String.eqb_eq in H2.
  - left. unfold merge_rel in Hr0.
    destruct (existsb (rel_is a ty b) (rels g)); [done|].
    cbn [rels] in Hr0. apply elem_of_app in Hr0 as [?|Hnew]; [done|].
    apply list_elem_of_singleton in Hnew as ->.
    unfold rel_is in Hrel. cbn in Hrel.
    by rewrite !Nat.eqb_refl, String.eqb_refl in Hrel.
Qed.

Lemma rels_merge_rows ty rows g r :
  r ∈ rels (merge_rows ty g rows).1 ->
  r ∈ rels g
  \/ exists a b props,
       (a, b, props) ∈ rows
       /\ rel_src r = a /\ rel_type r = ty /\ rel_dst r = b.
Proof.
  unfold merge_rows. cbn [fst]. revert g.
  induction rows as [|[[a b] props] rows IH]; intros g; cbn [foldl].
  - by left.
  - intros [Hr | (a' & b' & props' & Hin & H)]%IH.
    + apply rels_merge_rel_set in Hr as [?|?]; [by left|].
      right. exists a, b, props. split; [left|done].
    + right. exists a', b', props'. split; [by right|done].
Qed.

(** The rows of [pairs_where] are pairs of nodes that pass the test. *)
Lemma pairs_where_elem g p rows a b props :
  pairs_where g p = Ok rows ->
  (a, b, props) ∈ rows ->
  exists na nb,
    nodes g !! a = Some na /\ nodes g !! b = Some nb
    /\ p (a, na) (b, nb) = Ok (Some props).
Proof.
  unfold pairs_where.
  assert (forall x y, (x, y) ∈ (a ← indexed g; b ← indexed g; [(a, b)]) ->
            nodes g !! x.1 = Some x.2 /\ nodes g !! y.1 = Some y.2) as Hl.
  { intros x y (x' & (y' & Hxy & Hy)%list_elem_of_bind & Hx)%list_elem_of_bind.
    apply list_elem_of_singleton in Hxy as [= -> ->].
    unfold indexed in Hx, Hy.
    apply list_elem_of_lookup in Hx as [i Hx], Hy as [j Hy].
    rewrite list_lookup_imap in Hx, Hy.
    destruct (nodes g !! i) as [n|] eqn:Hi; [|done].
    destruct (nodes g !! j) as [m|] eqn:Hj; [|done].
    injection Hx as <-. injection Hy as <-. done. }
  revert Hl rows. generalize (a ← indexed g; b ← indexed g; [(a, b)]).
  intros l. induction l as [|[x y] l IH]; intros Hl rows; cbn [foldr].
  - intros [= <-]. by intros ?%elem_of_nil.
  - destruct (foldr _ (Ok []) l) as [rest|] eqn:Hrest; [|done].
    cbn [mbind result_bind].
    destruct (p x y) as [o|] eqn:Hp; [|done]. cbn [mbind result_bind].
    intros [= <-] Hin.
    assert ((a, b, props) ∈ rest ->
            exists na nb, nodes g !! a = Some na /\ nodes g !! b = Some nb
                          /\ p (a, na) (b, nb) = Ok (Some props)) as Hrec.
    { apply IH; [|done]. intros x' y' H. apply Hl. by right. }
    destruct o as [props'|]; [|by apply Hrec].
    apply elem_of_cons in Hin as [[= -> -> ->] | Hin]; [|by apply Hrec].
    destruct (Hl x y ltac:(left)) as [Hx Hy].
    exists x.2, y.2. split; [done|]. split; [done|].
    by destruct x, y.
Qed.

End RowFacts.

(** X22.  The four derived-relation rules write edges only: when one of
    them succeeds, the nodes of the graph, with their labels and
    properties, are those it started from. *)
Theorem derived_relations_keep_the_nodes :
  forall (cypher_date cypher_epoch : string -> option Z) (max_days : Z)
         (g g' : Graph) (n : nat),
    RelationCalculator.calculate_replies_to cypher_date g = Ok (g', n)
    \/ RelationCalculator.calculate_next_in_chain cypher_epoch max_days g
       = Ok (g', n)
    \/ RelationCalculator.calculate_acted_in_context cypher_date g
       = Ok (g', n)
    \/ RelationCalculator.calculate_case_timeline g = Ok (g', n) ->
    nodes g' = nodes g.
Proof.
  intros cypher_date cypher_epoch max_days g g' n [H|[H|[H|H]]]; revert H.
  - unfold RelationCalculator.calculate_replies_to.
    destruct (RelationCalculator.select _ 0 (nodes g)) as [replies|];
      [|done].
    cbn [mbind result_bind]. apply link_nodes.
  - unfold RelationCalculator.calculate_next_in_chain.
    destruct (RelationCalculator.pairs_where g _) as [rows|]; [|done].
    cbn [mbind result_bind]. intros [= <- _].
    exact (nodes_merge_rows "NEXT_IN_COMMUNICATION_CHAIN" g
             ((fun '(i1, i2, props) => (i2, i1, props)) <$> rows)).
  - unfold RelationCalculator.calculate_acted_in_context.
    destruct (RelationCalculator.pairs_where g _) as [rows|]; [|done].
    cbn [mbind result_bind]. intros [= <- _].
    exact (nodes_merge_rows "ACTED_IN_CONTEXT_OF" g rows).
  - unfold RelationCalculator.calculate_case_timeline.
    destruct (RelationCalculator.pairs_where g _) as [rows|]; [|done].
    cbn [mbind result_bind]. intros [= <- _].
    exact (nodes_merge_rows "FOLLOWS_IN_CASE" g rows).
Qed.

Lemma derived_relations_keep_the_nodes_witness :
  exists g',
    RelationCalculator.calculate_replies_to Letters.day Letters.graph
    = Ok (g', 1)
    /\ nodes g' = nodes Letters.graph.
Proof.
  eexists. split; [vm_compute; reflexivity|].
  eapply (derived_relations_keep_the_nodes Letters.day Letters.day 0
            Letters.graph _ 1).
  left. vm_compute. reflexivity.
Defined.

(** X23.  Every edge that the case timeline leaves was in the graph
    before, or it is a [FOLLOWS_IN_CASE] edge from an event to a later
    event of the same victim, with no event of that victim strictly
    between the two. *)
Theorem case_timeline_edges_are_sound :
  forall (g g' : Graph) (created : nat) (r : Rel),
    RelationCalculator.calculate_case_timeline g = Ok (g', created) ->
    r ∈ rels g' ->
    r ∈ rels g
    \/ (rel_type r = "FOLLOWS_IN_CASE"
        /\ exists e1 e2,
             nodes g !! rel_src r = Some e1
             /\ nodes g !! rel_dst r = Some e2
             /\ RelationCalculator.is_event e1 = true
             /\ RelationCalculator.is_event e2 = true
             /\ Cypher.eq (Cypher.prop "victim_id" e1)
                  (Cypher.prop "victim_id" e2) = true
             /\ RelationCalculator.str_lt (Cypher.prop "date_start" e1)
                  (Cypher.prop "date_start" e2) = true
             /\ forall i3 e3,
                  nodes g !! i3 = Some e3 ->
                  RelationCalculator.is_event e3 = true ->
                  Cypher.eq (Cypher.prop "victim_id" e3)
                    (Cypher.prop "victim_id" e1) = true ->
                  RelationCalculator.str_lt (Cypher.prop "date_start" e1)
                    (Cypher.prop "date_start" e3) = true ->
                  RelationCalculator.str_lt (Cypher.prop "date_start" e3)
                    (Cypher.prop "date_start" e2) = false).
Proof.
  intros g g' created r. unfold RelationCalculator.calculate_case_timeline.
  destruct (RelationCalculator.pairs_where g _) as [rows|] eqn:Hrows; [|done].
  cbn [mbind result_bind]. intros [= <- _] Hr.
  apply (rels_merge_rows "FOLLOWS_IN_CASE" rows g r) in Hr
    as [?|(a & b & props & Hin & <- & -> & <-)]; [by left|].
  right. split; [done|].
  destruct (pairs_where_elem g _ rows _ _ props Hrows Hin)
    as (e1 & e2 & Hn1 & Hn2 & Hp).
  exists e1, e2. split; [done|]. split; [done|].
  cbv beta iota in Hp.
  destruct (_ && _) eqn:Hc in Hp; [|done].
  repeat (apply andb_true_iff in Hc as [Hc ?]).
  repeat (split; [done|]).
  intros i3 e3 Hn3 Hev Hv Hlt.
  match goal with
  | H : negb _ = true |- _ => apply negb_true_iff in H; rename H into Hex
  end.
  destruct (RelationCalculator.str_lt (Cypher.prop "date_start" e3)
              (Cypher.prop "date_start" e2)) eqn:Hlt2; [|done].
  exfalso.
  assert ((i3, e3) ∈ RelationCalculator.indexed g) as Hi3.
  { unfold RelationCalculator.indexed. apply list_elem_of_lookup. exists i3.
    by rewrite list_lookup_imap, Hn3. }
  rewrite <- not_true_iff_false in Hex. apply Hex.
  apply existsb_exists. exists (i3, e3). split; [by apply list_elem_of_In|].
  by rewrite Hev, Hv, Hlt, Hlt2.
Qed.

Lemma case_timeline_edges_are_sound_witness :
  exists g' r,
    RelationCalculator.calculate_case_timeline Cases.graph = Ok (g', 2)
    /\ r ∈ rels g'
    /\ rel_src r = 0 /\ rel_dst r = 2
    /\ (r ∈ rels Cases.graph
        \/ (rel_type r = "FOLLOWS_IN_CASE"
            /\ exists e1 e2,
                 nodes Cases.graph !! rel_src r = Some e1
                 /\ nodes Cases.graph !! rel_dst r = Some e2
                 /\ RelationCalculator.is_event e1 = true
                 /\ RelationCalculator.is_event e2 = true
                 /\ Cypher.eq (Cypher.prop "victim_id" e1)
                      (Cypher.prop "victim_id" e2) = true
                 /\ RelationCalculator.str_lt (Cypher.prop "date_start" e1)
                      (Cypher.prop "date_start" e2) = true
                 /\ forall i3 e3,
                      nodes Cases.graph !! i3 = Some e3 ->
                      RelationCalculator.is_event e3 = true ->
                      Cypher.eq (Cypher.prop "victim_id" e3)
                        (Cypher.prop "victim_id" e1) = true ->
                      RelationCalculator.str_lt (Cypher.prop "date_start" e1)
                        (Cypher.prop "date_start" e3) = true ->
                      RelationCalculator.str_lt (Cypher.prop "date_start" e3)
                        (Cypher.prop "date_start" e2) = false)).
Proof.
  eexists _, {| rel_src := 0; rel_type := "FOLLOWS_IN_CASE"; rel_dst := 2;
                rel_props := RelationCalculator.COMPUTED |}.
  split; [vm_compute; reflexivity|].
  split; [apply list_elem_of_here|].
  split; [reflexivity|]. split; [reflexivity|].
  eapply (case_timeline_edges_are_sound Cases.graph _ 2);
    [vm_compute; reflexivity | apply list_elem_of_here].
Defined.

(** X24.  The label of an entity file depends only on the path part that
    follows the first part named [id]: what precedes that part and what
    follows the folder play no role, and a folder that is none of
    [person], [org], [gpe] and [place] gives [Entity], also when a later
    part of the path reads [id/person]. *)
Theorem label_is_decided_at_the_first_id :
  forall (pre : list string) (folder : string) (rest : list string),
    "id" ∉ pre ->
    EntityParser._get_label (pre ++ "id" :: folder :: rest)
    = EntityParser._get_label ["id"; folder]
    /\ (folder ∉ ["person"; "org"; "gpe"; "place"] ->
        EntityParser._get_label (pre ++ "id" :: folder :: rest) = "Entity").
Proof.
  intros pre folder rest Hpre.
  assert (EntityParser._get_label (pre ++ "id" :: folder :: rest)
          = EntityParser._get_label ["id"; folder]) as Heq.
  { induction pre as [|p pre IH]; [reflexivity|].
    cbn [app EntityParser._get_label].
    destruct (String.eqb p "id") eqn:Hp.
    - apply String.eqb_eq in Hp as ->. exfalso. apply Hpre. left.
    - apply IH. intros H. apply Hpre. by right. }
  split; [done|].
  intros Hf. rewrite Heq. cbn [EntityParser._get_label].
  rewrite String.eqb_refl.
  destruct (String.eqb folder "person") eqn:E1.
  { apply String.eqb_eq in E1 as ->. exfalso. apply Hf. set_solver. }
  destruct (String.eqb folder "org") eqn:E2.
  { apply String.eqb_eq in E2 as ->. exfalso. apply Hf. set_solver. }
  destruct (String.eqb folder "gpe") eqn:E3.
  { apply String.eqb_eq in E3 as ->. exfalso. apply Hf. set_solver. }
  destruct (String.eqb folder "place") eqn:E4.
  { apply String.eqb_eq in E4 as ->. exfalso. apply Hf. set_solver. }
  reflexivity.
Qed.

Lemma label_is_decided_at_the_first_id_witness :
  EntityParser._get_label
    ["vault"; "id"; "drafts"; "id"; "person"; "a.md"] = "Entity".
Proof.
  apply (proj2 (label_is_decided_at_the_first_id
                  ["vault"] "drafts" ["id"; "person"; "a.md"]
                  ltac:(set_solver))).
  set_solver.
Defined.

(** X25.  Every edge that the chain rule leaves was in the graph before,
    or it is a [NEXT_IN_COMMUNICATION_CHAIN] edge that runs from the
    earlier to the later of two micro-actions with the same actor and the
    same recipient, which share a person and lie at most [max_days] days
    apart. *)
Theorem chain_edges_are_sound :
  forall (cypher_epoch : string -> option Z) (max_days : Z)
         (g g' : Graph) (created : nat) (r : Rel),
    RelationCalculator.calculate_next_in_chain cypher_epoch max_days g
    = Ok (g', created) ->
    r ∈ rels g' ->
    r ∈ rels g
    \/ (rel_type r = "NEXT_IN_COMMUNICATION_CHAIN"
        /\ exists earlier later t1 t2,
             nodes g !! rel_src r = Some earlier
             /\ nodes g !! rel_dst r = Some later
             /\ RelationCalculator.is_micro earlier = true
             /\ RelationCalculator.is_micro later = true
             /\ Cypher.eq (Cypher.prop "actor_id" later)
                  (Cypher.prop "actor_id" earlier) = true
             /\ Cypher.eq (Cypher.prop "recipient_id" later)
                  (Cypher.prop "recipient_id" earlier) = true
             /\ RelationCalculator.str_lt (Cypher.prop "date_start" earlier)
                  (Cypher.prop "date_start" later) = true
             /\ RelationCalculator.epoch_of cypher_epoch
                  (Cypher.prop "date_start" earlier) = Ok t1
             /\ RelationCalculator.epoch_of cypher_epoch
                  (Cypher.prop "date_start" later) = Ok t2
             /\ ((t2 - t1) ÷ 86400 <= max_days)%Z
             /\ RelationCalculator.share_person g (rel_dst r) (rel_src r)
                = true).
Proof.
  intros cypher_epoch max_days g g' created r.
  unfold RelationCalculator.calculate_next_in_chain.
  destruct (RelationCalculator.pairs_where g _) as [rows|] eqn:Hrows; [|done].
  cbn [mbind result_bind]. intros [= <- _] Hr.
  apply (rels_merge_rows "NEXT_IN_COMMUNICATION_CHAIN"
           ((fun '(i1, i2, props) => (i2, i1, props)) <$> rows) g r) in Hr
    as [?|(a & b & props & Hin & <- & -> & <-)]; [by left|].
  right. split; [done|].
  apply list_elem_of_fmap in Hin as ([[i1 i2] props'] & [= Ha Hb ->] & Hin).
  rewrite Ha, Hb. clear Ha Hb.
  destruct (pairs_where_elem g _ rows _ _ props' Hrows Hin)
    as (m1 & m2 & Hn1 & Hn2 & Hp).
  cbv beta iota in Hp.
  destruct (_ && _) eqn:Hc in Hp; [|done].
  destruct (RelationCalculator.epoch_of cypher_epoch
              (Cypher.prop "date_start" m1)) as [t2|] eqn:Ht2; [|done].
  destruct (RelationCalculator.epoch_of cypher_epoch
              (Cypher.prop "date_start" m2)) as [t1|] eqn:Ht1; [|done].
  cbn [mbind result_bind] in Hp.
  destruct (_ && _) eqn:Hd in Hp; [|done].
  repeat (apply andb_true_iff in Hc as [Hc ?]).
  apply andb_true_iff in Hd as [[Hdays Hshare]%andb_true_iff _].
  apply Z.leb_le in Hdays.
  exists m2, m1, t1, t2. by repeat (split; [done|]).
Qed.

Lemma chain_edges_are_sound_witness :
  exists g' r,
    RelationCalculator.calculate_next_in_chain Letters.epoch 14 Letters.graph
    = Ok (g', 1)
    /\ r ∈ rels g'
    /\ rel_src r = 2 /\ rel_dst r = 0
    /\ (r ∈ rels Letters.graph
        \/ (rel_type r = "NEXT_IN_COMMUNICATION_CHAIN"
            /\ exists earlier later t1 t2,
                 nodes Letters.graph !! rel_src r = Some earlier
                 /\ nodes Letters.graph !! rel_dst r = Some later
                 /\ RelationCalculator.is_micro earlier = true
                 /\ RelationCalculator.is_micro later = true
                 /\ Cypher.eq (Cypher.prop "actor_id" later)
                      (Cypher.prop "actor_id" earlier) = true
                 /\ Cypher.eq (Cypher.prop "recipient_id" later)
                      (Cypher.prop "recipient_id" earlier) = true
                 /\ RelationCalculator.str_lt
                      (Cypher.prop "date_start" earlier)
                      (Cypher.prop "date_start" later) = true
                 /\ RelationCalculator.epoch_of Letters.epoch
                      (Cypher.prop "date_start" earlier) = Ok t1
                 /\ RelationCalculator.epoch_of Letters.epoch
                      (Cypher.prop "date_start" later) = Ok t2
                 /\ ((t2 - t1) ÷ 86400 <= 14)%Z
                 /\ RelationCalculator.share_person Letters.graph
                      (rel_dst r) (rel_src r) = true)).
Proof.
  eexists _, _.
  split; [vm_compute; reflexivity|].
  split; [apply (list_elem_of_lookup_2 _ 3); vm_compute; reflexivity|].
  split; [reflexivity|]. split; [reflexivity|].
  eapply (chain_edges_are_sound Letters.epoch 14 Letters.graph _ 1);
    [vm_compute; reflexivity
    |apply (list_elem_of_lookup_2 _ 3); vm_compute; reflexivity].
Defined.

(** X26.  Every edge that the context rule leaves was in the graph
    before, or it is an [ACTED_IN_CONTEXT_OF] edge from a micro-action to
    an event whose victim the micro-action concerns or references, and
    the two date intervals overlap; a missing end date counts as the
    start date. *)
Theorem context_edges_are_sound :
  forall (cypher_date : string -> option Z) (g g' : Graph) (created : nat)
         (r : Rel),
    RelationCalculator.calculate_acted_in_context cypher_date g
    = Ok (g', created) ->
    r ∈ rels g' ->
    r ∈ rels g
    \/ (rel_type r = "ACTED_IN_CONTEXT_OF"
        /\ exists m e m_start m_end e_start e_end,
             nodes g !! rel_src r = Some m
             /\ nodes g !! rel_dst r = Some e
             /\ RelationCalculator.is_micro m = true
             /\ RelationCalculator.is_event e = true
             /\ (exists ip p,
                   nodes g !! ip = Some p
                   /\ RelationCalculator.is_person p = true
                   /\ Cypher.linked ["CONCERNS"; "REFERENCES"]
                        (rel_src r) ip g = true
                   /\ Cypher.eq (Cypher.prop "victim_id" e)
                        (Cypher.prop "id" p) = true)
             /\ RelationCalculator.date_of cypher_date
                  (Cypher.prop "date_start" m) = Ok m_start
             /\ RelationCalculator.date_of cypher_date
                  (RelationCalculator.end_or_start m) = Ok m_end
             /\ RelationCalculator.date_of cypher_date
                  (Cypher.prop "date_start" e) = Ok e_start
             /\ RelationCalculator.date_of cypher_date
                  (RelationCalculator.end_or_start e) = Ok e_end
             /\ (m_start <= e_end)%Z /\ (e_start <= m_end)%Z).
Proof.
  intros cypher_date g g' created r.
  unfold RelationCalculator.calculate_acted_in_context.
  destruct (RelationCalculator.pairs_where g _) as [rows|] eqn:Hrows; [|done].
  cbn [mbind result_bind]. intros [= <- _] Hr.
  apply (rels_merge_rows "ACTED_IN_CONTEXT_OF" rows g r) in Hr
    as [?|(a & b & props & Hin & <- & -> & <-)]; [by left|].
  right. split; [done|].
  destruct (pairs_where_elem g _ rows _ _ props Hrows Hin)
    as (m & e & Hn1 & Hn2 & Hp).
  cbv beta iota in Hp.
  destruct (_ && _) eqn:Hc in Hp; [|done].
  destruct (RelationCalculator.date_of cypher_date
              (Cypher.prop "date_start" m)) as [m_start|] eqn:D1; [|done].
  cbn [mbind result_bind] in Hp.
  destruct (RelationCalculator.date_of cypher_date
              (RelationCalculator.end_or_start m)) as [m_end|] eqn:D2; [|done].
  cbn [mbind result_bind] in Hp.
  destruct (RelationCalculator.date_of cypher_date
              (Cypher.prop "date_start" e)) as [e_start|] eqn:D3; [|done].
  cbn [mbind result_bind] in Hp.
  destruct (RelationCalculator.date_of cypher_date
              (RelationCalculator.end_or_start e)) as [e_end|] eqn:D4; [|done].
  cbn [mbind result_bind] in Hp.
  destruct (_ && _) eqn:Hd in Hp; [|done].
  apply andb_true_iff in Hc as [[[[Hm He]%andb_true_iff Hex]%andb_true_iff _]
                                  %andb_true_iff _].
  apply andb_true_iff in Hd as [Hd1%Z.leb_le Hd2%Z.leb_le].
  apply existsb_exists in Hex as ([ip p] & Hip & Hpp).
  apply andb_true_iff in Hpp as [[Hper Hlink]%andb_true_iff Hvict].
  apply list_elem_of_In in Hip. unfold RelationCalculator.indexed in Hip.
  apply list_elem_of_lookup in Hip as [j Hj].
  rewrite list_lookup_imap in Hj.
  destruct (nodes g !! j) as [nj|] eqn:Hnj; [|done].
  injection Hj as -> ->.
  exists m, e, m_start, m_end, e_start, e_end.
  repeat (split; [done|]).
  split; [|done]. by exists ip, p.
Qed.

Lemma context_edges_are_sound_witness :
  exists g' r,
    RelationCalculator.calculate_acted_in_context Letters.day Letters.context
    = Ok (g', 1)
    /\ r ∈ rels g'
    /\ rel_src r = 0 /\ rel_dst r = 4
    /\ (r ∈ rels Letters.context
        \/ (rel_type r = "ACTED_IN_CONTEXT_OF"
            /\ exists m e m_start m_end e_start e_end,
                 nodes Letters.context !! rel_src r = Some m
                 /\ nodes Letters.context !! rel_dst r = Some e
                 /\ RelationCalculator.is_micro m = true
                 /\ RelationCalculator.is_event e = true
                 /\ (exists ip p,
                       nodes Letters.context !! ip = Some p
                       /\ RelationCalculator.is_person p = true
                       /\ Cypher.linked ["CONCERNS"; "REFERENCES"]
                            (rel_src r) ip Letters.context = true
                       /\ Cypher.eq (Cypher.prop "victim_id" e)
                            (Cypher.prop "id" p) = true)
                 /\ RelationCalculator.date_of Letters.day
                      (Cypher.prop "date_start" m) = Ok m_start
                 /\ RelationCalculator.date_of Letters.day
                      (RelationCalculator.end_or_start m) = Ok m_end
                 /\ RelationCalculator.date_of Letters.day
                      (Cypher.prop "date_start" e) = Ok e_start
                 /\ RelationCalculator.date_of Letters.day
                      (RelationCalculator.end_or_start e) = Ok e_end
                 /\ (m_start <= e_end)%Z /\ (e_start <= m_end)%Z)).
Proof.
  eexists _, _.
  split; [vm_compute; reflexivity|].
  split; [apply (list_elem_of_lookup_2 _ 3); vm_compute; reflexivity|].
  split; [reflexivity|]. split; [reflexivity|].
  eapply (context_edges_are_sound Letters.day Letters.context _ 1);
    [vm_compute; reflexivity
    |apply (list_elem_of_lookup_2 _ 3); vm_compute; reflexivity].
Defined.

(* ===================================================================== *)
(** * The two date parsers side by side                                   *)
(* ===================================================================== *)

Section TwoParsers.
Import PyStr Regex EDTFParser Spec.

Lemma remove_char_app (x : ascii) (s t : string) :
  remove_char x (s +:+ t) = remove_char x s +:+ remove_char x t.
Proof.
  induction s as [|c s IH]; simpl; [done|].
  rewrite IH. by destruct (Ascii.eqb c x).
Qed.

(** The commit-time parser on a full date with one modifier. *)
Lemma commit_modified (d : string) (u : ascii) :
  exactly FULL d -> u = "~"%char \/ u = "?"%char ->
  commit_triple (d +:+ String u EmptyString)
  = (Some d, Some d, if Ascii.eqb u "~" then "approximate" else "uncertain").
Proof.
  intros Hd Hu.
  destruct (date_chars_of FULL d) as [Hc Hne]; [tauto | done |].
  destruct (date_text_facts d Hc) as (Hsd & _ & Hslash & Htilde & Hq & Hdot).
  set (s := d +:+ String u EmptyString).
  destruct (suffixed_facts d (String u EmptyString) Hc Hne)
    as (_ & Hstrip & _ & Hmem & _ & _).
  { by destruct Hu as [-> | ->]. }
  cbv zeta in Hstrip, Hmem. fold s in Hstrip, Hmem.
  assert (negb (truthy s) || String.eqb (strip s) EmptyString = false) as H0.
  { rewrite Hstrip. unfold s. by destruct d. }
  assert (String.eqb s ".." = false) as H1.
  { apply (eqb_false_of_mem "."); [|done].
    rewrite (Hmem "."%char Hdot). by destruct Hu as [-> | ->]. }
  assert (remove_char u s = d) as Hrem.
  { unfold s. rewrite remove_char_app. simpl. rewrite Ascii.eqb_refl.
    rewrite append_empty. apply remove_char_none.
    by destruct Hu as [-> | ->]. }
  unfold commit_triple, MasterImport.parse_edtf_date.
  rewrite H0, Hstrip, H1, (Hmem "/"%char Hslash), (Hmem "~"%char Htilde),
    (Hmem "?"%char Hq).
  destruct Hu as [-> | ->]; cbn [mem Ascii.eqb orb]; cbv iota.
  - cbn [Ascii.eqb Bool.eqb andb]. cbv iota zeta.
    cbn [date_start date_end date_precision fst snd].
    by rewrite Hrem, Hsd.
  - cbn [Ascii.eqb Bool.eqb andb]. cbv iota zeta.
    cbn [date_start date_end date_precision fst snd].
    by rewrite Hrem, Hsd.
Qed.

(** The extractor on a full date with one modifier. *)
Lemma parse_modified_full (d : string) (u : ascii) :
  exactly FULL d -> u = "~"%char \/ u = "?"%char ->
  parse (d +:+ String u EmptyString)
  = Ok (Some d, Some d, if Ascii.eqb u "~" then "circa" else "uncertain").
Proof.
  intros Hd Hu.
  destruct (date_chars_of FULL d) as [Hc Hne]; [tauto | done |].
  rewrite (parse_modified d u Hc Hne Hu).
  by rewrite !normalize_full.
Qed.

(** Both parsers on a text of white space only. *)
Lemma blank_text (s : string) :
  all_chars is_space s = true ->
  parse s = Ok (None, None, "unknown")
  /\ commit_triple s = (None, None, "unknown").
Proof.
  intros Hs.
  assert (strip s = EmptyString) as Hstrip.
  { unfold strip, strip_by. by rewrite (rstrip_by_all _ _ Hs). }
  split.
  - unfold parse. destruct (_ || _); [done|]. cbv zeta. by rewrite Hstrip.
  - unfold commit_triple, MasterImport.parse_edtf_date.
    rewrite Hstrip. simpl String.eqb. by rewrite orb_true_r.
Qed.

End TwoParsers.

(** C2, amended.  The date fields stored with an event or a micro-action
    are those of the projector's own [parse_edtf_date] applied to the raw
    expression.  That function and the extractor's normalizer return
    equal triples on a closed interval of two full day dates, on a full
    day date followed by a question mark, on [..], on [../..] and on a
    text of white space only; on a full day date, bare or followed by a
    tilde, they return the same start and end and name the precision
    differently. *)
Theorem C2_commit_time_dates :
  (forall g event s,
     event_properties event !! "date_edtf" = Some (PStr s) ->
     s <> EmptyString ->
     exists g',
       MasterImport.import_event g event = Ok g'
       /\ forall i n,
            nodes g' !! i = Some n -> node_label n = "Event" ->
            Cypher.prop "event_id" n = PStr (event_id event) ->
            Cypher.prop "date_start" n = Py.of_option (Spec.commit_triple s).1.1
            /\ Cypher.prop "date_end" n = Py.of_option (Spec.commit_triple s).1.2
            /\ Cypher.prop "date_precision" n = PStr (Spec.commit_triple s).2)
  /\ (forall g micro s,
        micro_properties micro !! "date_edtf" = Some (PStr s) ->
        s <> EmptyString ->
        exists g',
          MasterImport.import_microaction g micro = Ok g'
          /\ forall i n,
               nodes g' !! i = Some n -> node_label n = "MicroAction" ->
               Cypher.prop "micro_id" n = PStr (micro_id micro) ->
               Cypher.prop "date_start" n = Py.of_option (Spec.commit_triple s).1.1
               /\ Cypher.prop "date_end" n = Py.of_option (Spec.commit_triple s).1.2
               /\ Cypher.prop "date_precision" n = PStr (Spec.commit_triple s).2)
  /\ (forall a b,
        Spec.exactly EDTFParser.FULL a -> Spec.exactly EDTFParser.FULL b ->
        EDTFParser.parse (a +:+ "/" +:+ b)
        = Ok (Spec.commit_triple (a +:+ "/" +:+ b)))
  /\ (forall d,
        Spec.exactly EDTFParser.FULL d ->
        EDTFParser.parse (d +:+ "?") = Ok (Spec.commit_triple (d +:+ "?")))
  /\ EDTFParser.parse ".." = Ok (Spec.commit_triple "..")
  /\ EDTFParser.parse "../.." = Ok (Spec.commit_triple "../..")
  /\ (forall s,
        Spec.all_chars PyStr.is_space s = true ->
        EDTFParser.parse s = Ok (Spec.commit_triple s))
  /\ (forall d,
        Spec.exactly EDTFParser.FULL d ->
        EDTFParser.parse d = Ok (Some d, Some d, "day")
        /\ Spec.commit_triple d = (Some d, Some d, "exact")
        /\ EDTFParser.parse (d +:+ "~") = Ok (Some d, Some d, "circa")
        /\ Spec.commit_triple (d +:+ "~") = (Some d, Some d, "approximate")).
Proof.
  split; [|split; [|split; [|split; [|split; [|split; [|split]]]]]].
  - intros g event s Hd Hne.
    destruct (commit_dates_parsed _ s Hd Hne) as (props & Hc & H1 & H2 & H3).
    destruct (import_event_stored g event props Hc) as (g' & Hg & Hstored).
    exists g'. split; [done|]. intros i n Hn Hl Hid.
    repeat split; by eapply Hstored.
  - intros g micro s Hd Hne.
    destruct (commit_dates_parsed _ s Hd Hne) as (props & Hc & H1 & H2 & H3).
    destruct (import_microaction_stored g micro props Hc) as (g' & Hg & Hstored).
    exists g'. split; [done|]. intros i n Hn Hl Hid.
    repeat split; by eapply Hstored.
  - intros a b Ha Hb. by rewrite parse_interval_full, commit_interval.
  - intros d Hd.
    rewrite (parse_modified_full d "?" Hd), (commit_modified d "?" Hd); auto.
  - reflexivity.
  - reflexivity.
  - intros s Hs. destruct (blank_text s Hs) as [-> ->]. reflexivity.
  - intros d Hd. split; [by apply parse_full|]. split; [by apply commit_full|].
    split.
    + rewrite (parse_modified_full d "~" Hd); auto.
    + rewrite (commit_modified d "~" Hd); auto.
Qed.

Lemma C2_commit_time_dates_witness :
  (exists g',
     MasterImport.import_event Cypher.empty sample_event = Ok g'
     /\ forall i n,
          nodes g' !! i = Some n -> node_label n = "Event" ->
          Cypher.prop "event_id" n = PStr "/id/event/e1" ->
          Cypher.prop "date_start" n = PStr "1942-03-29"
          /\ Cypher.prop "date_end" n = PStr "1942-04-27"
          /\ Cypher.prop "date_precision" n = PStr "interval")
  /\ EDTFParser.parse "1942-03-29/1942-04-27"
     = Ok (Some "1942-03-29", Some "1942-04-27", "interval")
  /\ EDTFParser.parse "1942-03-29?"
     = Ok (Some "1942-03-29", Some "1942-03-29", "uncertain")
  /\ EDTFParser.parse "   " = Ok (None, None, "unknown").
Proof.
  destruct C2_commit_time_dates
    as (Hev & _ & Hint & Hq & _ & _ & Hblank & _).
  split; [|split; [|split]].
  - apply (Hev Cypher.empty sample_event "1942-03-29/1942-04-27").
    + vm_compute. reflexivity.
    + discriminate.
  - apply (Hint "1942-03-29" "1942-04-27"); reflexivity.
  - apply (Hq "1942-03-29"). reflexivity.
  - apply (Hblank "   "). reflexivity.
Defined.

(* ===================================================================== *)
(** * The strict grammar of ids and what [clean_id] lets through          *)
(* ===================================================================== *)

Section StrictIds.
Import PyStr Regex WikilinkExtractor Spec.

Lemma exactly_hex (n : nat) (u : string) :
  exactly (repeat H n) u
  <-> String.length u = n /\ all_chars is_hex_dash u = true.
Proof.
  unfold exactly. revert u. induction n as [|n IH]; intros u.
  - destruct u; simpl; [tauto|]. split; [done | by intros [? _]].
  - destruct u as [|c u]; cbn [repeat match_toks tok_ok String.length
                               all_chars].
    + split; [done | by intros [? _]].
    + destruct (is_hex_dash c); cbn [andb].
      * rewrite IH. split; intros [? ?]; split; auto; lia.
      * split; [done | by intros [_ ?]].
Qed.

(** The strict grammar, in terms of the tokens of the patterns. *)
Lemma strict_id_shape (s : string) :
  strict_id s
  <-> exists ty u, ty ∈ TYPES /\ exactly HEX36 u
                   /\ s = "/" +:+ ("id/" +:+ ty +:+ "/" +:+ u).
Proof.
  unfold strict_id, HEX36. split.
  - intros (ty & u & Hty & Hlen & Hu & ->). exists ty, u.
    split; [done|]. split; [by apply exactly_hex | done].
  - intros (ty & u & Hty & [Hlen Hu]%exactly_hex & ->). by exists ty, u.
Qed.

Lemma strict_id_pattern (s : string) :
  strict_id s -> ID_PATTERN_match s = true.
Proof.
  intros (ty & u & Hty & Hu & ->)%strict_id_shape.
  by apply id_pattern_body.
Qed.

(** The pattern lets through the strict grammar, and the strict grammar
    followed by one line feed. *)
Lemma pattern_strict_id (s : string) :
  ID_PATTERN_match s = true ->
  strict_id s \/ exists y, strict_id y /\ s = y +:+ nl.
Proof.
  intros (ty & u & r & Hty & Hu & Hr & ->)%id_pattern_shape.
  assert (strict_id ("/" +:+ ("id/" +:+ ty +:+ "/" +:+ u))) as Hs.
  { apply strict_id_shape. by exists ty, u. }
  destruct Hr as [-> | ->].
  - left. by rewrite append_empty.
  - right. eexists. split; [exact Hs|]. done.
Qed.

Lemma strict_id_no_line_feed (s : string) :
  strict_id s -> mem LF s = false.
Proof.
  intros (ty & u & Hty & Hlen & Hu & ->).
  rewrite !mem_app.
  assert (mem LF u = false) as ->.
  { by apply (mem_false_of_all _ _ _ Hu). }
  repeat (apply elem_of_cons in Hty as [-> | Hty]; [reflexivity|]).
  by apply elem_of_nil in Hty.
Qed.

Lemma extract_ids_fold (file_path : option string)
    (ms : list (string * nat)) (ids : gset string)
    (w : option WikilinkWarnings) :
  Forall (fun m => exists ty u, ty ∈ TYPES /\ exactly HEX36 u
                                /\ m.1 = "id/" +:+ ty +:+ "/" +:+ u) ms ->
  (foldl (fun '(ids, w) '(raw_id, line_num) =>
            match clean_id raw_id w file_path (Some line_num) with
            | (Ok clean, w') => ({[clean]} ∪ ids, w')
            | (Raise _, w') => (ids, w')
            end)
         (ids, w) ms).1
  = list_to_set ((fun m => "/" +:+ m.1) <$> ms) ∪ ids.
Proof.
  intros Hms. revert ids w.
  induction Hms as [|[g1 line] ms (ty & u & Hty & Hu & Hg) _ IH];
    intros ids w; cbn [foldl fmap list_fmap list_to_set].
  - cbn [fst]. set_solver.
  - simpl in Hg. subst g1.
    rewrite (clean_id_group ty u w file_path (Some line) Hty Hu).
    rewrite IH. set_solver.
Qed.

(** The set that [extract_all_wikilinks] returns, whatever the
    collector and the file. *)
Lemma extract_all_ids (text : string) warnings file_path :
  (extract_all_wikilinks text warnings file_path).1
  = list_to_set ((fun m => "/" +:+ m.1) <$> finditer 0 1 text).
Proof.
  unfold extract_all_wikilinks.
  rewrite extract_ids_fold by apply finditer_groups. set_solver.
Qed.

(** What a failed call leaves in the collector. *)
Lemma clean_id_raise_logged raw w fp line_num e :
  fp <> EmptyString ->
  (clean_id raw (Some w) (Some fp) line_num).1 = Raise e ->
  exists msg w',
    e = ValueError msg
    /\ (clean_id raw (Some w) (Some fp) line_num).2 = Some w'
    /\ invalid_wikilinks w'
       = (invalid_wikilinks w ++ [(fp, or_zero line_num, raw, msg)])%list.
Proof.
  intros Hfp. destruct fp as [|a fp]; [done|]. clear Hfp.
  unfold clean_id. cbv zeta.
  destruct (negb (startswith "/" _)); cbv iota beta;
    destruct (negb (ID_PATTERN_match _)); cbn [fst snd log_if];
    change (truthy (String a fp)) with true; cbv iota beta;
    try discriminate;
    intros [= <-]; do 2 eexists; (split; [reflexivity|]);
    (split; [reflexivity|]); reflexivity.
Qed.

End StrictIds.

(** C7.  [clean_id] on a bracketed reference that lacks the leading slash
    and is otherwise an id of the strict grammar returns the id with the
    slash and, with a collector and a file, adds one entry to the list of
    slash corrections and none to the list of invalid links.  Whatever
    the input, an id that [clean_id] returns is of the strict grammar or
    is such an id followed by one line feed, and a call that fails raises
    the error about an id outside the grammar and adds the reference to
    the list of invalid links.  Every id in the set returned by
    [extract_all_wikilinks] is of the strict grammar.  At the end: the
    call on an id followed by a line feed returns it, line feed included,
    where the grammar asks for a failure; and the two examples of the
    specification. *)
Theorem C7_clean_and_extract :
  (forall ty u warnings file_path line_num,
     ty ∈ ["person"; "org"; "gpe"; "place"] ->
     String.length u = 36 ->
     Spec.all_chars PyStr.is_hex_dash u = true ->
     let body := "id/" +:+ ty +:+ "/" +:+ u in
     let raw := "[[" +:+ body +:+ "]]" in
     (WikilinkExtractor.clean_id raw warnings file_path line_num).1
     = Ok ("/" +:+ body)
     /\ forall w fp,
          fp <> EmptyString ->
          exists w',
            (WikilinkExtractor.clean_id raw (Some w) (Some fp) line_num).2
            = Some w'
            /\ auto_corrected_slashes w'
               = (auto_corrected_slashes w
                  ++ [(fp, WikilinkExtractor.or_zero line_num, raw)])%list
            /\ invalid_wikilinks w' = invalid_wikilinks w)
  /\ (forall raw warnings file_path line_num,
        match (WikilinkExtractor.clean_id raw warnings file_path line_num).1 with
        | Ok x =>
            Spec.strict_id x
            \/ exists y, Spec.strict_id y /\ x = y +:+ PyStr.nl
        | Raise e =>
            exists c, e = ValueError ("Invalid ID format: " +:+ c)
                      /\ ~ Spec.strict_id c
        end)
  /\ (forall raw w fp line_num e,
        fp <> EmptyString ->
        (WikilinkExtractor.clean_id raw (Some w) (Some fp) line_num).1
        = Raise e ->
        exists msg w',
          e = ValueError msg
          /\ (WikilinkExtractor.clean_id raw (Some w) (Some fp) line_num).2
             = Some w'
          /\ invalid_wikilinks w'
             = (invalid_wikilinks w
                ++ [(fp, WikilinkExtractor.or_zero line_num, raw, msg)])%list)
  /\ (forall text warnings file_path x,
        x ∈ (WikilinkExtractor.extract_all_wikilinks text warnings file_path).1 ->
        Spec.strict_id x)
  /\ WikilinkExtractor.clean_id
       ("[[/id/person/3b1e2b2a-0000-4000-8000-0123456789ab" +:+ PyStr.nl
        +:+ "]]")
       (Some Warnings.empty) (Some "note.md") None
     = (Ok ("/id/person/3b1e2b2a-0000-4000-8000-0123456789ab" +:+ PyStr.nl),
        Some Warnings.empty)
  /\ ~ Spec.strict_id
         ("/id/person/3b1e2b2a-0000-4000-8000-0123456789ab" +:+ PyStr.nl)
  /\ (WikilinkExtractor.clean_id "[[/id/person/not-a-uuid]]"
        (Some Warnings.empty) (Some "note.md") None).1
     = Raise (ValueError "Invalid ID format: /id/person/not-a-uuid")
  /\ elements
       (WikilinkExtractor.extract_all_wikilinks
          "[[/id/person/not-a-uuid]] [[/id/person/3b1e2b2a-0000-4000-8000-0123456789ab|A]]"
          None None).1
     = ["/id/person/3b1e2b2a-0000-4000-8000-0123456789ab"].
Proof.
  split; [|split; [|split; [|split; [|split; [|split; [|split]]]]]].
  - intros ty u warnings file_path line_num Hty Hlen Hu body raw.
    assert (Spec.exactly WikilinkExtractor.HEX36 u) as Hex
      by by apply exactly_hex.
    split.
    + unfold raw, body. by rewrite clean_id_missing_slash.
    + intros w fp Hfp. unfold raw, body.
      rewrite clean_id_missing_slash by done.
      cbn [snd WikilinkExtractor.log_if].
      assert (PyStr.truthy fp = true) as -> by by destruct fp.
      eexists. split; [reflexivity|]. split; reflexivity.
  - intros raw warnings file_path line_num.
    pose proof (clean_id_post raw warnings file_path line_num) as Hpost.
    destruct (WikilinkExtractor.clean_id raw warnings file_path line_num).1
      as [x|e].
    + by apply pattern_strict_id.
    + destruct Hpost as (c & -> & Hc). exists c. split; [done|].
      intros Hs%strict_id_pattern. congruence.
  - intros raw w fp line_num e. apply clean_id_raise_logged.
  - intros text warnings file_path x. rewrite extract_all_ids.
    intros ([g1 line] & -> & Hm)%elem_of_list_to_set%list_elem_of_fmap.
    pose proof (finditer_groups text 0 1) as Hms.
    rewrite Forall_forall in Hms.
    destruct (Hms _ Hm) as (ty & u & Hty & Hu & Hg). simpl in Hg. subst g1.
    apply strict_id_shape. by exists ty, u.
  - vm_compute. reflexivity.
  - intros Hs%strict_id_no_line_feed. vm_compute in Hs. discriminate.
  - vm_compute. reflexivity.
  - vm_compute. reflexivity.
Qed.

Lemma C7_clean_and_extract_witness :
  exists w',
    WikilinkExtractor.clean_id
      "[[id/person/3b1e2b2a-0000-4000-8000-0123456789ab]]"
      (Some Warnings.empty) (Some "note.md") (Some 7)
    = (Ok "/id/person/3b1e2b2a-0000-4000-8000-0123456789ab", Some w')
    /\ auto_corrected_slashes w'
       = [("note.md", 7,
           "[[id/person/3b1e2b2a-0000-4000-8000-0123456789ab]]")]
    /\ invalid_wikilinks w' = [].
Proof.
  destruct C7_clean_and_extract as (Hclean & _).
  destruct (Hclean "person" "3b1e2b2a-0000-4000-8000-0123456789ab"
              (Some Warnings.empty) (Some "note.md") (Some 7)) as [H1 H2].
  - apply list_elem_of_here.
  - reflexivity.
  - reflexivity.
  - destruct (H2 Warnings.empty "note.md" ltac:(discriminate))
      as (w' & Hw & Hs & Hi).
    exists w'. split; [|split; [exact Hs | exact Hi]].
    simpl in H1, Hw. apply injective_projections; assumption.
Defined.

(* ===================================================================== *)
(** * The links of the named front-matter fields                          *)
(* ===================================================================== *)

Section NamedFields.
Import EntityParser Spec.







Lemma post_weaken {A} (m : M A) (P Q : A -> Prop) :
  post m P -> (forall a, P a -> Q a) -> post m Q.
Proof. intros Hm HPQ w a w' H. by eapply HPQ, Hm. Qed.


(** ** What keeps a target *)

Lemma has_target_add_link k e x a :
  has_target k e a -> has_target k e (add_link x a).
Proof. done. Qed.

Lemma has_target_add_links k e xs a :
  has_target k e a -> has_target k e (add_links xs a).
Proof. done. Qed.









(** ** The block of [is_part_of] *)



(** ** The legacy lists of a person *)

Section Legacy.
Context (fm : list (string * pyval)) (entity_id fp : string).





End Legacy.

(** ** The whole extractor *)

Context (yaml_safe_load : string -> result pyval)
        (validate_frontmatter_syntax :
           string -> string -> option WikilinkWarnings ->
           option WikilinkWarnings)
        (parse_structures_from_markdown :
           string -> string -> list (string * list StructureItem))
        (base_properties :
           string -> list (string * pyval) -> string -> gmap string pyval).





End NamedFields.



